(** * Network client sessions and the SMTP exchange checks of magma

    A shallow embedding of [src/network/clients.c] (client_status,
    client_secure, client_connect, client_close) and of
    [check/magma/servers/smtp/smtp_check_network.c] (the end-of-response
    reader, the MAIL/RCPT/DATA, AUTH and QUIT steps and the authenticated
    relay scenario), followed by the properties of the specification that
    concern them.

    The C code runs against collaborators that are not part of these files:
    the resolver and socket calls, the TLS provider, the allocator, and the
    line reader and writers of the client module.  They are gathered in the
    [Platform] interface below; every function of the embedding is
    parameterised by an arbitrary platform, and theorems hold for all of
    them.  Pointers are integers with [NULL = 0]; dereferencing [NULL] or a
    released block is a [Fault], which is how the embedding renders C's
    undefined behaviour. *)

From Stdlib Require Import ZArith String Ascii List Lia Bool DecimalString.
From stdpp Require Import base option gmap.

Import ListNotations.
Local Open Scope string_scope.
Local Open Scope Z_scope.

(** ** Data *)

Definition ptr := Z.
Definition NULL : ptr := 0.

(** [client_t]: the descriptor, the TLS overlay (NULL when absent), the
    cached status, the peer address, the read buffer and the current line
    (a placer: option flags and the bytes it views). *)
Record client_t := Client {
  sockd : Z;
  tls : ptr;
  status : Z;
  ip : ptr;
  buffer : ptr;
  line_opts : Z;
  line : string
}.

Definition with_status (v : Z) (c : client_t) : client_t :=
  Client (sockd c) (tls c) v (ip c) (buffer c) (line_opts c) (line c).
Definition with_tls (v : ptr) (c : client_t) : client_t :=
  Client (sockd c) v (status c) (ip c) (buffer c) (line_opts c) (line c).
Definition with_sockd (v : Z) (c : client_t) : client_t :=
  Client v (tls c) (status c) (ip c) (buffer c) (line_opts c) (line c).
Definition with_ip (v : ptr) (c : client_t) : client_t :=
  Client (sockd c) (tls c) (status c) v (buffer c) (line_opts c) (line c).
Definition with_buffer (v : ptr) (c : client_t) : client_t :=
  Client (sockd c) (tls c) (status c) (ip c) v (line_opts c) (line c).
Definition with_line_opts (v : Z) (c : client_t) : client_t :=
  Client (sockd c) (tls c) (status c) (ip c) (buffer c) v (line c).
Definition with_line (v : string) (c : client_t) : client_t :=
  Client (sockd c) (tls c) (status c) (ip c) (buffer c) (line_opts c) v.

(** The block [mm_alloc] hands out is zero filled. *)
Definition zeroed_client : client_t := Client 0 0 0 0 0 0 "".

(** [ip_t]: a family tag and the raw address bytes. *)
Record ip_t := Ip { family : Z; ip_bytes : string }.

(** One record of the list [getaddrinfo] returns; the list itself stands for
    the chain through [ai_next], and an empty list for a NULL [info]. *)
Record addrinfo := Addrinfo {
  ai_family : Z;
  ai_socktype : Z;
  ai_protocol : Z;
  ai_addrlen : Z;
  ai_addr : string
}.

(** Constants of the socket headers (Linux values). *)
Definition AF_INET : Z := 2.
Definition AF_INET6 : Z := 10.
Definition SOCK_STREAM : Z := 1.
Definition sizeof_sockaddr_in : Z := 16.
Definition sizeof_sockaddr_in6 : Z := 28.

(** Resources a session acquires and releases, and the log of those calls. *)
Inductive resource :=
| RAddrinfo
| RFd (fd : Z)
| RTls (t : ptr)
| RMem (p : ptr)
| RStr (p : ptr).

Inductive event :=
| Acquire (r : resource)
| Release (r : resource).

Definition resource_eqb (a b : resource) : bool :=
  match a, b with
  | RAddrinfo, RAddrinfo => true
  | RFd x, RFd y | RTls x, RTls y | RMem x, RMem y | RStr x, RStr y => x =? y
  | _, _ => false
  end.

(** Replaying a log against the list of live resources: an acquisition adds
    the resource, a release removes it, and a release of a resource that is
    not live (a double close, a double free) has no result. *)
Fixpoint remove_first (r : resource) (live : list resource) : option (list resource) :=
  match live with
  | [] => None
  | x :: rest =>
      if resource_eqb r x then Some rest
      else option_map (cons x) (remove_first r rest)
  end.

Fixpoint replay (live : list resource) (log : list event) : option (list resource) :=
  match log with
  | [] => Some live
  | Acquire r :: rest => replay (r :: live) rest
  | Release r :: rest =>
      match remove_first r live with
      | Some live' => replay live' rest
      | None => None
      end
  end.

Fixpoint count_release (r : resource) (log : list event) : nat :=
  match log with
  | [] => 0%nat
  | Release x :: rest => ((if resource_eqb r x then 1 else 0) + count_release r rest)%nat
  | Acquire _ :: rest => count_release r rest
  end.

(** ** The platform *)

(** The collaborators of the two files.  [E] is the state of the outside
    world (the peer, the kernel, the allocator); every call may read and
    change it.  The line reader and the writers belong to the client module
    but not to these files: they return the byte count and the session as
    they leave it.

    The current line is a view into the session's fixed 8 KiB read buffer,
    which the line reader fills and reuses across reads; [line_tail] gives
    what that buffer holds after the end of the view, up to its capacity:
    bytes that earlier reads left there. *)
Class Platform (E : Type) := {
  tls_status : ptr -> E -> Z * E;
  tcp_status : Z -> E -> Z * E;
  tls_client_alloc : Z -> E -> ptr * E;
  getaddrinfo : string -> string -> E -> (Z * list addrinfo) * E;
  socket : Z -> Z -> Z -> E -> Z * E;
  connect : Z -> string -> Z -> E -> Z * E;
  mm_alloc : Z -> E -> ptr * E;
  st_alloc : Z -> E -> ptr * E;
  client_read_line_ext : client_t -> E -> (Z * client_t) * E;
  line_tail : client_t -> E -> string;
  client_write_ext : client_t -> string -> E -> (Z * client_t) * E;
  client_print_ext : client_t -> string -> E -> (Z * client_t) * E;
  sizeof_ip_t : Z;
  sizeof_client_t : Z;
  line_flags : Z
}.

Section Embedding.

Context {E : Type} `{Platform E}.

(** ** State, faults and the monad *)

Record world := World {
  w_env : E;
  w_clients : gmap Z client_t;
  w_ips : gmap Z ip_t;
  w_strings : gmap Z string;
  w_trace : list event
}.

Definition set_env (e : E) (w : world) : world :=
  World e (w_clients w) (w_ips w) (w_strings w) (w_trace w).
Definition set_clients (m : gmap Z client_t) (w : world) : world :=
  World (w_env w) m (w_ips w) (w_strings w) (w_trace w).
Definition set_ips (m : gmap Z ip_t) (w : world) : world :=
  World (w_env w) (w_clients w) m (w_strings w) (w_trace w).
Definition set_strings (m : gmap Z string) (w : world) : world :=
  World (w_env w) (w_clients w) (w_ips w) m (w_trace w).
Definition set_trace (t : list event) (w : world) : world :=
  World (w_env w) (w_clients w) (w_ips w) (w_strings w) t.

Inductive fault := NullDeref | UseAfterFree | OutOfBounds.

Inductive outcome (A : Type) :=
| Ok (a : A) (w : world)
| Fault (f : fault)
| OutOfFuel.
Arguments Ok {A} a w.
Arguments Fault {A} f.
Arguments OutOfFuel {A}.

Definition M (A : Type) := world -> outcome A.

Definition ret {A} (a : A) : M A := fun w => Ok a w.

Definition bind {A B} (m : M A) (k : A -> M B) : M B :=
  fun w => match m w with
           | Ok a w' => k a w'
           | Fault f => Fault f
           | OutOfFuel => OutOfFuel
           end.

Definition raise {A} (f : fault) : M A := fun _ => Fault f.
Definition out_of_fuel {A} : M A := fun _ => OutOfFuel.

End Embedding.

Arguments world E : clear implicits.
Arguments set_env {E} e w.
Arguments set_clients {E} m w.
Arguments set_ips {E} m w.
Arguments set_strings {E} m w.
Arguments set_trace {E} t w.
Arguments outcome E A : clear implicits.
Arguments M E A : clear implicits.
Arguments Ok {E A} a w.
Arguments Fault {E A} f.
Arguments OutOfFuel {E A}.

Notation "x <- m ;; k" := (bind m (fun x => k))
  (at level 100, m at next level, right associativity).
Notation "m ;;; k" := (bind m (fun _ => k))
  (at level 100, right associativity).

(** ** Primitive operations *)

Section Primitives.

Context {E : Type} `{Platform E}.
Local Abbreviation M := (M E).

(** A call to a collaborator: it returns a value and moves the outside
    world on. *)
Definition call {A} (f : E -> A * E) : M A :=
  fun w => Ok (fst (f (w_env w))) (set_env (snd (f (w_env w))) w).

(** A look at the outside world that leaves it as it is. *)
Definition observe {A} (f : E -> A) : M A :=
  fun w => Ok (f (w_env w)) w.

Definition emit (ev : event) : M unit :=
  fun w => Ok tt (set_trace (w_trace w ++ [ev]) w).

(** [client->...]: reading or writing through a NULL or released pointer is
    a fault. *)
Definition load (p : ptr) : M client_t :=
  fun w => if p =? NULL then Fault NullDeref
           else match w_clients w !! p with
                | Some c => Ok c w
                | None => Fault UseAfterFree
                end.

Definition store (p : ptr) (c : client_t) : M unit :=
  fun w => if p =? NULL then Fault NullDeref
           else match w_clients w !! p with
                | Some _ => Ok tt (set_clients (<[p := c]> (w_clients w)) w)
                | None => Fault UseAfterFree
                end.

Definition field {A} (f : client_t -> A) (p : ptr) : M A :=
  c <- load p ;; ret (f c).

Definition assign (upd : client_t -> client_t) (p : ptr) : M unit :=
  c <- load p ;; store p (upd c).

(** C truth values and the short-circuit connectives. *)
Definition is_set (z : Z) : bool := negb (z =? 0).

Definition and_also (a b : M bool) : M bool :=
  x <- a ;; if x then b else ret false.

Definition or_else (a b : M bool) : M bool :=
  x <- a ;; if x then ret true else b.

(** Releases.  [close], [tls_free] and [freeaddrinfo] are recorded in the
    log; their return values are not looked at by the code. *)
Definition close (sd : Z) : M unit := emit (Release (RFd sd)).
Definition tls_free (t : ptr) : M unit := emit (Release (RTls t)).
Definition freeaddrinfo : M unit := emit (Release RAddrinfo).

Definition mm_free (p : ptr) : M unit :=
  emit (Release (RMem p)) ;;;
  fun w => Ok tt (set_ips (delete p (w_ips w))
                    (set_clients (delete p (w_clients w)) w)).

(** Modelled from the spec: [mm_cleanup] and [st_cleanup] are macros of the
    memory and string modules, which are not among the source files.  The
    specification requires teardown to be safe on a session that was never
    fully initialised, and client_connect passes a possibly NULL [result]
    and [ip] to [mm_cleanup]; so each argument is released unless it is
    NULL. *)
Definition mm_cleanup (p : ptr) : M unit :=
  if p =? NULL then ret tt else mm_free p.

Definition st_cleanup (p : ptr) : M unit :=
  if p =? NULL then ret tt else emit (Release (RStr p)).

(** Acquisitions: the platform decides the result, the log records what was
    obtained, and a fresh block enters the memory. *)
Definition os_socket (fam typ proto : Z) : M Z :=
  sd <- call (socket fam typ proto) ;;
  if sd =? -1 then ret sd else emit (Acquire (RFd sd)) ;;; ret sd.

Definition os_getaddrinfo (host service : string) : M (Z * list addrinfo) :=
  r <- call (getaddrinfo host service) ;;
  match snd r with
  | [] => ret r
  | _ :: _ => emit (Acquire RAddrinfo) ;;; ret r
  end.

Definition tls_alloc (sd : Z) : M ptr :=
  t <- call (tls_client_alloc sd) ;;
  if t =? NULL then ret t else emit (Acquire (RTls t)) ;;; ret t.

Definition mm_alloc_client : M ptr :=
  p <- call (mm_alloc sizeof_client_t) ;;
  if p =? NULL then ret p
  else emit (Acquire (RMem p)) ;;;
       fun w => Ok p (set_clients (<[p := zeroed_client]> (w_clients w)) w).

Definition mm_alloc_ip : M ptr :=
  p <- call (mm_alloc sizeof_ip_t) ;;
  if p =? NULL then ret p
  else emit (Acquire (RMem p)) ;;;
       fun w => Ok p (set_ips (<[p := Ip 0 ""]> (w_ips w)) w).

Definition st_alloc_buf (n : Z) : M ptr :=
  p <- call (st_alloc n) ;;
  if p =? NULL then ret p else emit (Acquire (RStr p)) ;;; ret p.

Definition write_ip (p : ptr) (v : ip_t) : M unit :=
  fun w => Ok tt (set_ips (<[p := v]> (w_ips w)) w).

End Primitives.

Notation "a <&&> b" := (and_also a b) (at level 40, left associativity).
Notation "a <||> b" := (or_else a b) (at level 50, left associativity).

(** ** network/clients.c *)

Section Clients.

Context {E : Type} `{Platform E}.
Local Abbreviation M := (M E).

(** [client_status]: -1 on network errors, 0 for an unknown status, 1 for
    connected, and 2 for a graceful shutdown. *)
Definition client_status (client : ptr) : M Z :=
  let result := -1 in
  c0 <- ret (is_set client)
        <&&> (sd <- field sockd client ;; ret (negb (sd =? -1))) ;;
  result <- (if c0 then field status client else ret result) ;;
  c1 <- ret (is_set client)
        <&&> (t <- field tls client ;; ret (is_set t))
        <&&> (s <- field status client ;; ret (s >=? 0))
        <&&> (t <- field tls client ;; r <- call (tls_status t) ;;
              ret (negb (is_set r))) ;;
  if c1 then field status client
  else
    c2 <- ret (is_set client)
          <&&> (sd <- field sockd client ;; ret (negb (sd =? -1)))
          <&&> (s <- field status client ;; ret (s >=? 0))
          <&&> (sd <- field sockd client ;; r <- call (tcp_status sd) ;;
                ret (negb (is_set r))) ;;
    if c2 then field status client
    else assign (with_status (-1)) client ;;; ret (-1).

(** [client_secure]: -1 on failure or 0 on success. *)
Definition client_secure (client : ptr) : M Z :=
  if negb (is_set client) then ret (-1)
  else
    t <- field tls client ;;
    if is_set t then ret 0
    else
      sd <- field sockd client ;;
      t' <- tls_alloc sd ;;
      assign (with_tls t') client ;;;
      if negb (is_set t') then
        assign (with_status (-1)) client ;;; ret (-1)
      else
        assign (with_status 1) client ;;; ret 0.

(** The candidate loop of [client_connect].  [None] is the early
    [return NULL] after a failed [socket]; otherwise the loop leaves the
    last descriptor, the last [connect] result and the captured address. *)
Fixpoint connect_loop (holder : list addrinfo) (sd ret_ : Z) (ip_ : ptr)
  : M (option (Z * Z * ptr)) :=
  match holder with
  | [] => ret (Some (sd, ret_, ip_))
  | h :: next =>
      sd <- os_socket (ai_family h) (ai_socktype h) (ai_protocol h) ;;
      if sd =? -1 then freeaddrinfo ;;; ret None
      else
        ret_ <- call (connect sd (ai_addr h) (ai_addrlen h)) ;;
        if negb (is_set ret_) then
          ip_ <- mm_alloc_ip ;;
          ip_ <- (if negb (is_set ip_) then ret ip_
                  else if (ai_addrlen h =? sizeof_sockaddr_in6)
                          && (ai_family h =? AF_INET6) then
                    write_ip ip_ (Ip AF_INET6 (ai_addr h)) ;;; ret ip_
                  else if (ai_addrlen h =? sizeof_sockaddr_in)
                          && (ai_family h =? AF_INET) then
                    write_ip ip_ (Ip AF_INET (ai_addr h)) ;;; ret ip_
                  else mm_free ip_ ;;; ret NULL) ;;
          ret (Some (sd, ret_, ip_))
        else
          close sd ;;; connect_loop next sd ret_ ip_
  end.

(** [snprintf(service, 20, "%u", port)] for a 32-bit port. *)
Definition service_of (port : Z) : string :=
  NilEmpty.string_of_uint (N.to_uint (Z.to_N (port mod 2 ^ 32))).

(** [client_connect]: NULL on failure or a pointer to a newly initialised
    client upon success. *)
Definition client_connect (host : string) (port : Z) : M ptr :=
  r <- os_getaddrinfo host (service_of port) ;;
  let '(ret_, info) := r in
  match info with
  | [] => ret NULL
  | first :: _ =>
      if is_set ret_ || negb (ai_socktype first =? SOCK_STREAM) then
        freeaddrinfo ;;; ret NULL
      else
        l <- connect_loop info (-1) ret_ NULL ;;
        match l with
        | None => ret NULL
        | Some (sd, ret_, ip_) =>
            freeaddrinfo ;;;
            if is_set ret_ then close sd ;;; ret NULL
            else
              result <- mm_alloc_client ;;
              failed <- ret (negb (is_set result))
                        <||> (b <- st_alloc_buf 8192 ;;
                              assign (with_buffer b) result ;;;
                              ret (negb (is_set b))) ;;
              if failed then
                mm_cleanup result ;;; mm_cleanup ip_ ;;; close sd ;;; ret NULL
              else
                assign (with_ip ip_) result ;;;
                assign (with_sockd sd) result ;;;
                assign (with_status 1) result ;;;
                assign (with_line_opts line_flags) result ;;;
                ret result
        end
  end.

(** [client_close]: releases the TLS session, the descriptor, the address,
    the buffer and the client itself. *)
Definition client_close (client : ptr) : M unit :=
  if is_set client then
    t <- field tls client ;;
    (if is_set t then tls_free t else ret tt) ;;;
    sd <- field sockd client ;;
    (if negb (sd =? -1) then close sd else ret tt) ;;;
    i <- field ip client ;;
    mm_cleanup i ;;;
    b <- field buffer client ;;
    st_cleanup b ;;;
    mm_free client
  else ret tt.

End Clients.

(** ** Strings *)

Definition CR : ascii := ascii_of_nat 13.
Definition LF : ascii := ascii_of_nat 10.
Definition CRLF : string := String CR (String LF EmptyString).

(** The bytes of a C string: those before the first NUL. *)
Fixpoint c_str (s : string) : string :=
  match s with
  | EmptyString => EmptyString
  | String c rest =>
      if Ascii.eqb c Ascii.zero then EmptyString else String c (c_str rest)
  end.

(** [ns_length_get]: the length of a NUL terminated string; and
    [st_length_get]: the length a counted string carries; both as a
    [size_t]. *)
Definition ns_length_get (s : string) : Z := Z.of_nat (String.length (c_str s)).
Definition st_length_get (s : string) : Z := Z.of_nat (String.length s).

Definition INT_MAX : Z := 2 ^ 31 - 1.

(** Modelled from the spec: [st_length_int] belongs to the string library,
    which is not among the source files; it gives the length of a counted
    string as an [int], for use as a printf precision.  A length that fits
    is returned as it is, a larger one as [INT_MAX]. *)
Definition st_length_int (s : string) : Z :=
  Z.min (st_length_get s) INT_MAX.

(** A signed count compared with a [size_t] is converted to 64 unsigned
    bits first. *)
Definition to_size_t (z : Z) : Z := z mod 2 ^ 64.

(** What printf writes for a string argument: its bytes up to the first
    NUL, and with a precision at most that many of them; a negative
    precision counts as none given. *)
Definition printed (prec : option Z) (arg : string) : string :=
  match prec with
  | None => c_str arg
  | Some n => if n <? 0 then c_str arg
              else c_str (substring 0 (Z.to_nat n) arg)
  end.

(** The two conversions the checks use: [%s] and [%.*s]. *)
Fixpoint format_s (fmt arg : string) : string :=
  match fmt with
  | String "%" (String "s" rest) => printed None arg ++ rest
  | String c rest => String c (format_s rest arg)
  | EmptyString => EmptyString
  end.

Fixpoint format_ps (fmt : string) (prec : Z) (arg : string) : string :=
  match fmt with
  | String "%" (String "." (String "*" (String "s" rest))) =>
      printed (Some prec) arg ++ rest
  | String c rest => String c (format_ps rest prec arg)
  | EmptyString => EmptyString
  end.

(** Modelled from the spec: [st_cmp_cs_starts] belongs to the string
    library, which is not among the source files; the specification
    describes it as the byte-prefix comparison.  The result is zero exactly
    when the line starts with the expected token. *)
Definition st_cmp_cs_starts (s pfx : string) : Z :=
  if String.prefix pfx s then 0 else 1.

(** Modelled from the spec: [st_search_cs] is the substring search of the
    same library; the position it reports is not used by the checks. *)
Definition st_search_cs (s pat : string) : bool :=
  match String.index 0 pat s with
  | Some _ => true
  | None => false
  end.

(** ** check/magma/servers/smtp/smtp_check_network.c *)

Section SmtpCheck.

Context {E : Type} `{Platform E}.
Local Abbreviation M := (M E).

(** The reader and the writers of the client module, applied to the session
    a pointer designates. *)
Definition client_read_line (client : ptr) : M Z :=
  c <- load client ;;
  r <- call (client_read_line_ext c) ;;
  store client (snd r) ;;; ret (fst r).

Definition client_write (client : ptr) (data : string) : M Z :=
  c <- load client ;;
  r <- call (client_write_ext c data) ;;
  store client (snd r) ;;; ret (fst r).

Definition client_print (client : ptr) (text : string) : M Z :=
  c <- load client ;;
  r <- call (client_print_ext c text) ;;
  store client (snd r) ;;; ret (fst r).

(** Modelled from the spec: [pl_char_get] belongs to the string library,
    which is not among the source files; the specification describes the
    current line as a view, without ownership, into the session's 8 KiB
    read buffer.  [pl_char_get(client->line)[i]] is the byte [i] places
    after the first byte of the view.  The access is not checked against
    the length of the line: past its end it reads what the buffer holds
    there, and only past the end of the buffer is it out of bounds. *)
Definition line_char (client : ptr) (i : nat) : M ascii :=
  c <- load client ;;
  rest <- observe (line_tail c) ;;
  match String.get i (line c ++ rest) with
  | Some a => ret a
  | None => raise OutOfBounds
  end.

(** Modelled from the spec: [st_sprint] and [st_empty] belong to the string
    library, which is not among the source files.  The specification says a
    failing step records its message in the buffer the caller supplied: the
    text replaces the content of the destination.  A NULL destination
    designates no buffer, so nothing is recorded; a NULL or unwritten
    buffer is empty. *)
Definition st_sprint (dest : ptr) (msg : string) : M unit :=
  if dest =? NULL then ret tt
  else fun w => Ok tt (set_strings (<[dest := msg]> (w_strings w)) w).

Definition st_empty (s : ptr) : M bool :=
  if s =? NULL then ret true
  else fun w => Ok (match w_strings w !! s with
                    | Some t => (String.length t =? 0)%nat
                    | None => true
                    end) w.

(** [check_smtp_client_read_end]: calls client_read_line until the last
    line is found.  The loop has no bound of its own; [fuel] bounds the
    number of reads. *)
Fixpoint check_smtp_client_read_end (fuel : nat) (client : ptr) : M bool :=
  match fuel with
  | O => out_of_fuel
  | S fuel' =>
      n <- client_read_line client ;;
      if n >? 0 then
        ch <- line_char client 3 ;;
        if Ascii.eqb ch " " then ret true
        else check_smtp_client_read_end fuel' client
      else ret false
  end.

(** [check_smtp_client_mail_rcpt_data]: MAIL FROM, RCPT TO and DATA. *)
Definition check_smtp_client_mail_rcpt_data (fuel : nat) (client : ptr)
    (from to : string) (errmsg : ptr) : M bool :=
  let line_from := "MAIL FROM: <%s>" ++ CRLF in
  let line_to := "RCPT TO: <%s>" ++ CRLF in
  let size_from := to_size_t (ns_length_get line_from + ns_length_get from - 2) in
  let size_to := to_size_t (ns_length_get line_to + ns_length_get to - 2) in
  failed <- (n <- client_print client (format_s line_from from) ;;
             ret (negb (to_size_t n =? size_from)))
            <||> (b <- check_smtp_client_read_end fuel client ;; ret (negb b))
            <||> (s <- client_status client ;; ret (negb (s =? 1)))
            <||> (l <- field line client ;;
                  ret (is_set (st_cmp_cs_starts l "250"))) ;;
  if failed then
    st_sprint errmsg "Failed to return successful status after MAIL." ;;;
    ret false
  else
    failed <- (n <- client_print client (format_s line_to to) ;;
               ret (negb (to_size_t n =? size_to)))
              <||> (b <- check_smtp_client_read_end fuel client ;; ret (negb b))
              <||> (s <- client_status client ;; ret (negb (s =? 1)))
              <||> (l <- field line client ;;
                    ret (is_set (st_cmp_cs_starts l "250"))) ;;
    if failed then
      st_sprint errmsg "Failed to return successful status after RCPT." ;;;
      ret false
    else
      failed <- (n <- client_write client ("DATA" ++ CRLF) ;;
                 ret (negb (n =? 6)))
                <||> (b <- check_smtp_client_read_end fuel client ;; ret (negb b))
                <||> (s <- client_status client ;; ret (negb (s =? 1)))
                <||> (l <- field line client ;;
                      ret (is_set (st_cmp_cs_starts l "354"))) ;;
      if failed then
        st_sprint errmsg "Failed to return a proceed status code after DATA." ;;;
        ret false
      else ret true.

(** [check_smtp_client_auth_plain]. *)
Definition check_smtp_client_auth_plain (fuel : nat) (client : ptr)
    (auth : string) : M bool :=
  failed <- (n <- client_print client
                    (format_ps ("AUTH PLAIN %.*s" ++ CRLF) (st_length_int auth) auth) ;;
             ret (negb (to_size_t n =? to_size_t (st_length_get auth + 13))))
            <||> (b <- check_smtp_client_read_end fuel client ;; ret (negb b))
            <||> (s <- client_status client ;; ret (negb (s =? 1)))
            <||> (l <- field line client ;;
                  ret (is_set (st_cmp_cs_starts l "235"))) ;;
  if failed then ret false else ret true.

(** [check_smtp_client_auth_login]. *)
Definition check_smtp_client_auth_login (fuel : nat) (client : ptr)
    (user pass : string) : M bool :=
  failed <- (n <- client_write client ("AUTH LOGIN" ++ CRLF) ;;
             ret (negb (n =? 12)))
            <||> (b <- check_smtp_client_read_end fuel client ;; ret (negb b))
            <||> (s <- client_status client ;; ret (negb (s =? 1)))
            <||> (l <- field line client ;;
                  ret (is_set (st_cmp_cs_starts l "334"))) ;;
  if failed then ret false
  else
    failed <- (n <- client_print client
                      (format_ps ("%.*s" ++ CRLF) (st_length_int user) user) ;;
               ret (negb (to_size_t n =? to_size_t (st_length_get user + 2))))
              <||> (b <- check_smtp_client_read_end fuel client ;; ret (negb b))
              <||> (s <- client_status client ;; ret (negb (s =? 1)))
              <||> (l <- field line client ;;
                    ret (is_set (st_cmp_cs_starts l "334"))) ;;
    if failed then ret false
    else
      failed <- (n <- client_print client
                        (format_ps ("%.*s" ++ CRLF) (st_length_int pass) pass) ;;
                 ret (negb (to_size_t n =? to_size_t (st_length_get pass + 2))))
                <||> (b <- check_smtp_client_read_end fuel client ;; ret (negb b))
                <||> (s <- client_status client ;; ret (negb (s =? 1)))
                <||> (l <- field line client ;;
                      ret (is_set (st_cmp_cs_starts l "235"))) ;;
      if failed then ret false else ret true.

(** [check_smtp_client_quit]: QUIT, the 221 reply, and the follow-up read. *)
Definition check_smtp_client_quit (client : ptr) (errmsg : ptr) : M bool :=
  failed <- (n <- client_write client ("QUIT" ++ CRLF) ;; ret (negb (n =? 6)))
            <||> (n <- client_read_line client ;; ret (n <=? 0))
            <||> (s <- client_status client ;; ret (negb (s =? 1)))
            <||> (l <- field line client ;;
                  ret (is_set (st_cmp_cs_starts l "221"))) ;;
  if failed then
    st_sprint errmsg "Failed to return successful status following the QUIT command." ;;;
    ret false
  else
    n <- client_read_line client ;;
    if n >? 0 then
      st_sprint errmsg "The server failed to close the connection after issuing a QUIT command." ;;;
      ret false
    else ret true.

(** [check_smtp_network_auth_sthread], from the relay attempt on (the
    branches after the two AUTH exchanges).  The first condition of the
    branch is the assignment [errmsg = NULL], whose value is false: every
    later use of [errmsg] in the function sees NULL. *)
Definition auth_sthread_relay (fuel : nat) (client : ptr) (errmsg : ptr) : M bool :=
  let errmsg := NULL in
  failed <- ret (is_set errmsg)
            <||> (b <- check_smtp_client_mail_rcpt_data fuel client
                         "ladar@lavabit.com" "princess@example.com" errmsg ;;
                  ret (negb b))
            <||> (n <- client_print client ("." ++ CRLF) ;; ret (negb (n =? 3)))
            <||> (b <- check_smtp_client_read_end fuel client ;; ret (negb b))
            <||> (s <- client_status client ;; ret (negb (s =? 1)))
            <||> (l <- field line client ;;
                  ret (is_set (st_cmp_cs_starts l "550"))) ;;
  if failed then
    (if negb (is_set errmsg) then
       st_sprint errmsg
         "Failed to return an error status after sending from an unauthenticated account."
     else ret tt) ;;;
    client_close client ;;; ret false
  else
    failed <- (b <- check_smtp_client_mail_rcpt_data fuel client
                      "magma@lavabit.com" "princess@example.com" errmsg ;;
               ret (negb b))
              <||> (n <- client_print client ("." ++ CRLF) ;; ret (negb (n =? 3)))
              <||> (b <- check_smtp_client_read_end fuel client ;; ret (negb b))
              <||> (s <- client_status client ;; ret (negb (s =? 1)))
              <||> (l <- field line client ;;
                    ret (is_set (st_cmp_cs_starts l "250"))) ;;
    if failed then
      e <- st_empty errmsg ;;
      (if e then
         st_sprint errmsg
           "Failed to return successful status after sending from an authenticated account."
       else ret tt) ;;;
      client_close client ;;; ret false
    else
      ok <- check_smtp_client_quit client errmsg ;;
      if negb ok then client_close client ;;; ret false
      else client_close client ;;; ret true.

(** [check_smtp_network_auth_sthread]: connect, greeting, EHLO, a rejected
    and an accepted AUTH, then the relay exchanges above. *)
Definition check_smtp_network_auth_sthread (fuel : nat) (errmsg : ptr)
    (port : Z) (login : bool) : M bool :=
  client <- client_connect "localhost" port ;;
  failed <- ret (negb (is_set client))
            <||> (n <- client_read_line client ;; ret (n <=? 0))
            <||> (s <- client_status client ;; ret (negb (s =? 1)))
            <||> (l <- field line client ;;
                  ret (is_set (st_cmp_cs_starts l "220")))
            <||> (l <- field line client ;;
                  ret (negb (st_search_cs l " ESMTP "))) ;;
  if failed then
    st_sprint errmsg "Failed to connect with the SMTP server." ;;;
    client_close client ;;; ret false
  else
    failed <- (n <- client_write client ("EHLO localhost" ++ CRLF) ;;
               ret (negb (n =? 16)))
              <||> (b <- check_smtp_client_read_end fuel client ;; ret (negb b))
              <||> (s <- client_status client ;; ret (negb (s =? 1)))
              <||> (l <- field line client ;;
                    ret (is_set (st_cmp_cs_starts l "250"))) ;;
    if failed then
      st_sprint errmsg "Failed to return successful status after EHLO." ;;;
      client_close client ;;; ret false
    else
      bad <- (if login then
                check_smtp_client_auth_login fuel client
                  "bWFnbWE=" "aW52YWxpZHBhc3N3b3Jk"
              else
                check_smtp_client_auth_plain fuel client
                  "bWFnbWEAbWFnbWEAaW52YWxpZHBhc3N3b3Jk") ;;
      if bad then
        st_sprint errmsg
          "Invalid credentials appear to have authenticated when they should have failed." ;;;
        client_close client ;;; ret false
      else
        good <- (if login then
                   check_smtp_client_auth_login fuel client
                     "bWFnbWE=" "cGFzc3dvcmQ="
                 else
                   check_smtp_client_auth_plain fuel client
                     "bWFnbWEAbWFnbWEAcGFzc3dvcmQ=") ;;
        if negb good then
          st_sprint errmsg
            "Failed to authenticate even though we supplied valid credentials." ;;;
          client_close client ;;; ret false
        else auth_sthread_relay fuel client errmsg.

End SmtpCheck.

(** ** Vocabulary of the properties *)

Section Vocabulary.

Context {E : Type} `{Platform E}.
Local Abbreviation M := (M E).

(** [p] designates the session [c] in [w]. *)
Definition live (p : ptr) (c : client_t) (w : world E) : Prop :=
  p ≠ NULL ∧ w_clients w !! p = Some c.

(** What [client_status] comes to on a live session once the TLS probe is
    out of the way: the TCP probe, asked in environment [e]. *)
Definition tcp_branch (p : ptr) (c : client_t) (e : E) (w : world E) : outcome E Z :=
  if negb (sockd c =? -1) && (status c >=? 0) then
    if is_set (fst (tcp_status (sockd c) e)) then
      Ok (-1) (set_clients (<[p := with_status (-1) c]> (w_clients w))
                 (set_env (snd (tcp_status (sockd c) e)) w))
    else Ok (status c) (set_env (snd (tcp_status (sockd c) e)) w)
  else Ok (-1) (set_clients (<[p := with_status (-1) c]> (w_clients w)) (set_env e w)).

Definition status_outcome (p : ptr) (c : client_t) (w : world E) : outcome E Z :=
  if is_set (tls c) && (status c >=? 0) then
    if is_set (fst (tls_status (tls c) (w_env w))) then
      tcp_branch p c (snd (tls_status (tls c) (w_env w))) w
    else Ok (status c) (set_env (snd (tls_status (tls c) (w_env w))) w)
  else tcp_branch p c (w_env w) w.

(** Sequences of status queries and secure upgrades on one session. *)
Inductive session_op := OpStatus | OpSecure.

Definition apply_op (p : ptr) (o : session_op) : M unit :=
  match o with
  | OpStatus => client_status p ;;; ret tt
  | OpSecure => client_secure p ;;; ret tt
  end.

Fixpoint run_ops (ops : list session_op) (p : ptr) : M unit :=
  match ops with
  | [] => ret tt
  | o :: rest => apply_op p o ;;; run_ops rest p
  end.

Definition is_status_query (o : session_op) : bool :=
  match o with OpStatus => true | OpSecure => false end.

(** The releases [client_close] owes for session [c] at [p], in order. *)
Definition releases (p : ptr) (c : client_t) : list event :=
  (if is_set (tls c) then [Release (RTls (tls c))] else []) ++
  (if sockd c =? -1 then [] else [Release (RFd (sockd c))]) ++
  (if is_set (ip c) then [Release (RMem (ip c))] else []) ++
  (if is_set (buffer c) then [Release (RStr (buffer c))] else []) ++
  [Release (RMem p)].

(** The log of a connection attempt in which every candidate is refused:
    one socket per candidate, closed before the next is tried. *)
Definition refused_attempts (fds : list Z) : list event :=
  flat_map (fun sd => [Acquire (RFd sd); Release (RFd sd)]) fds.


(** The exchange of the QUIT step before the follow-up read: QUIT written
    in full, one line read, the status still 1, and the line starting with
    221.  [w3] is the state in which the follow-up read takes place. *)
Definition quit_acknowledged (p : ptr) (w w3 : world E) : Prop :=
  ∃ w1 n w2 c,
    client_write p ("QUIT" ++ CRLF) w = Ok 6 w1 ∧
    client_read_line p w1 = Ok n w2 ∧ n > 0 ∧
    client_status p w2 = Ok 1 w3 ∧
    live p c w3 ∧ st_cmp_cs_starts (line c) "221" = 0.

(** A computation that leaves every message buffer as it found it. *)
Definition keeps_strings {A} (m : M A) : Prop :=
  ∀ w a w', m w = Ok a w' → w_strings w' = w_strings w.

End Vocabulary.

(** ** A scripted platform

    A concrete platform for running the embedding: the peer is a list of
    read results consumed in order, the probes and the connect call give
    fixed answers, writes are accepted in full, and the allocator hands out
    increasing addresses. *)

(** The read buffer holds 8192 bytes; where nothing was written it is taken
    to hold zero bytes. *)
Definition buffer_capacity : nat := Z.to_nat 8192.

Fixpoint zero_bytes (n : nat) : string :=
  match n with
  | O => EmptyString
  | S k => String Ascii.zero (zero_bytes k)
  end.

Module Script.

Record env := Env {
  incoming : list (Z * string);
  tls_probe : Z;
  tcp_probe : Z;
  tls_handle : ptr;
  resolved : Z * list addrinfo;
  socket_fd : Z;
  connect_ret : Z;
  heap_next : ptr
}.

Definition read_line (c : client_t) (e : env) : (Z * client_t) * env :=
  match incoming e with
  | [] => ((0, c), e)
  | (n, l) :: rest =>
      ((n, with_line l c),
       Env rest (tls_probe e) (tcp_probe e) (tls_handle e) (resolved e)
           (socket_fd e) (connect_ret e) (heap_next e))
  end.

Definition write_all (c : client_t) (data : string) (e : env)
  : (Z * client_t) * env :=
  ((Z.of_nat (String.length data), c), e).

Definition alloc (size : Z) (e : env) : ptr * env :=
  (heap_next e,
   Env (incoming e) (tls_probe e) (tcp_probe e) (tls_handle e) (resolved e)
       (socket_fd e) (connect_ret e) (heap_next e + 64)).

#[global] Instance platform : Platform env := {|
  tls_status := fun _ e => (tls_probe e, e);
  tcp_status := fun _ e => (tcp_probe e, e);
  tls_client_alloc := fun _ e => (tls_handle e, e);
  getaddrinfo := fun _ _ e => (resolved e, e);
  socket := fun _ _ _ e => (socket_fd e, e);
  connect := fun _ _ _ e => (connect_ret e, e);
  mm_alloc := alloc;
  st_alloc := alloc;
  client_read_line_ext := read_line;
  line_tail := fun c _ => zero_bytes (buffer_capacity - String.length (line c));
  client_write_ext := write_all;
  client_print_ext := write_all;
  sizeof_ip_t := 20;
  sizeof_client_t := 64;
  line_flags := 0
|}.

(** A quiet platform: no incoming data, probes report nothing new. *)
Definition quiet : env := Env [] 0 0 0 (0, []) 3 0 4096.

Definition with_incoming (l : list (Z * string)) (e : env) : env :=
  Env l (tls_probe e) (tcp_probe e) (tls_handle e) (resolved e)
      (socket_fd e) (connect_ret e) (heap_next e).

(** An IPv4 candidate for 127.0.0.1. *)
Definition loopback : addrinfo :=
  Addrinfo AF_INET SOCK_STREAM 6 sizeof_sockaddr_in
    (String (ascii_of_nat 127) (String (ascii_of_nat 0)
      (String (ascii_of_nat 0) (String (ascii_of_nat 1) EmptyString)))).

(** A world holding one session at address 100 and one empty message
    buffer at address 200. *)
Definition session_at : ptr := 100.
Definition errmsg_at : ptr := 200.

Definition world_with (c : client_t) (e : env) : world env :=
  World e {[ session_at := c ]} ∅ {[ errmsg_at := "" ]} [].

Definition empty_world (e : env) : world env :=
  World e ∅ ∅ {[ errmsg_at := "" ]} [].

(** Sessions and environments of the examples. *)
Definition plain_session : client_t := Client 3 0 1 0 0 0 "".
Definition secured_session : client_t := Client 3 7 1 0 0 0 "".
Definition failed_session : client_t := Client 3 0 (-1) 0 0 0 "".
Definition full_session : client_t := Client 3 7 1 300 400 0 "".

Definition tls_closed_tcp_alive : env := Env [] 1 0 0 (0, []) 3 0 4096.
Definition tls_ready : env := Env [] 0 0 9 (0, []) 3 0 4096.
Definition refusing : env := Env [] 0 0 0 (0, [loopback]) 3 (-1) 4096.
Definition accepting : env := Env [] 0 0 0 (0, [loopback]) 3 0 4096.

(** A reply line: what the reader returns for it is its length. *)
Definition reply (text : string) : Z * string :=
  (Z.of_nat (String.length (text ++ CRLF)), text ++ CRLF).

End Script.

(** ** The basic scenario *)

(** [net_set_timeout] belongs to the network module, which is not among
    the source files: one more call to the outside world, answering whether
    both timeouts were set. *)
Class Timeouts (E : Type) := {
  net_set_timeout : Z -> Z -> Z -> E -> bool * E
}.

Section BasicScenario.

Context {E : Type} `{Platform E} `{Timeouts E}.
Local Abbreviation M := (M E).

(** The message the basic scenario submits after DATA. *)
Definition basic_message : string :=
  "To: magma@lavabit.com" ++ CRLF ++ "From: princess@example.com" ++ CRLF ++
  "Subject: Unit Tests" ++ CRLF ++ CRLF ++
  "Aren't unit tests great?" ++ CRLF ++ "." ++ CRLF.

(** [check_smtp_network_basic_sthread]: connect (upgrading to TLS when
    [secure] is set), greeting, HELO, EHLO, MAIL, RCPT, DATA, the message
    and QUIT, closing the session on every path. *)
Definition check_smtp_network_basic_sthread (fuel : nat) (errmsg : ptr)
    (port : Z) (secure : bool) : M bool :=
  let message := basic_message in
  client <- client_connect "localhost" port ;;
  failed <- ret (negb (is_set client))
            <||> (ret secure
                  <&&> (r <- client_secure client ;; ret (r =? -1)))
            <||> (sd <- field sockd client ;;
                  ok <- call (net_set_timeout sd 20 20) ;; ret (negb ok))
            <||> (n <- client_read_line client ;; ret (n <=? 0))
            <||> (s <- client_status client ;; ret (negb (s =? 1)))
            <||> (l <- field line client ;;
                  ret (is_set (st_cmp_cs_starts l "220")))
            <||> (l <- field line client ;;
                  ret (negb (st_search_cs l " ESMTP "))) ;;
  if failed then
    st_sprint errmsg "Failed to connect with the SMTP server." ;;;
    client_close client ;;; ret false
  else
    failed <- (n <- client_write client ("HELO localhost" ++ CRLF) ;;
               ret (negb (n =? 16)))
              <||> (n <- client_read_line client ;; ret (n <=? 0))
              <||> (s <- client_status client ;; ret (negb (s =? 1)))
              <||> (l <- field line client ;;
                    ret (is_set (st_cmp_cs_starts l "250"))) ;;
    if failed then
      st_sprint errmsg "Failed to return successful status after HELO." ;;;
      client_close client ;;; ret false
    else
      failed <- (n <- client_write client ("EHLO localhost" ++ CRLF) ;;
                 ret (negb (n =? 16)))
                <||> (b <- check_smtp_client_read_end fuel client ;; ret (negb b))
                <||> (s <- client_status client ;; ret (negb (s =? 1)))
                <||> (l <- field line client ;;
                      ret (is_set (st_cmp_cs_starts l "250"))) ;;
      if failed then
        st_sprint errmsg "Failed to return successful status after EHLO." ;;;
        client_close client ;;; ret false
      else
        failed <- (n <- client_write client ("MAIL FROM: <>" ++ CRLF) ;;
                   ret (negb (n =? 15)))
                  <||> (n <- client_read_line client ;; ret (n <=? 0))
                  <||> (s <- client_status client ;; ret (negb (s =? 1)))
                  <||> (l <- field line client ;;
                        ret (is_set (st_cmp_cs_starts l "250"))) ;;
        if failed then
          st_sprint errmsg "Failed to return successful status after MAIL." ;;;
          client_close client ;;; ret false
        else
          failed <- (n <- client_write client
                            ("RCPT TO: <princess@example.com>" ++ CRLF) ;;
                     ret (negb (n =? 33)))
                    <||> (n <- client_read_line client ;; ret (n <=? 0))
                    <||> (s <- client_status client ;; ret (negb (s =? 1)))
                    <||> (l <- field line client ;;
                          ret (is_set (st_cmp_cs_starts l "250"))) ;;
          if failed then
            st_sprint errmsg "Failed to return successful status after RCPT." ;;;
            client_close client ;;; ret false
          else
            failed <- (n <- client_write client ("DATA" ++ CRLF) ;;
                       ret (negb (n =? 6)))
                      <||> (n <- client_read_line client ;; ret (n <=? 0))
                      <||> (s <- client_status client ;; ret (negb (s =? 1)))
                      <||> (l <- field line client ;;
                            ret (is_set (st_cmp_cs_starts l "354"))) ;;
            if failed then
              st_sprint errmsg "Failed to return a proceed status code after DATA." ;;;
              client_close client ;;; ret false
            else
              failed <- (n <- client_write client message ;;
                         ret (negb (to_size_t n
                                    =? to_size_t (ns_length_get message))))
                        <||> (n <- client_read_line client ;; ret (n <=? 0))
                        <||> (s <- client_status client ;; ret (negb (s =? 1)))
                        <||> (l <- field line client ;;
                              ret (is_set (st_cmp_cs_starts l "250"))) ;;
              if failed then
                st_sprint errmsg
                  "Failed to get a successful status code after email submission." ;;;
                client_close client ;;; ret false
              else
                ok <- check_smtp_client_quit client errmsg ;;
                if negb ok then client_close client ;;; ret false
                else client_close client ;;; ret true.

End BasicScenario.

(** ** Vocabulary of the further properties *)

Fixpoint count_acquire (r : resource) (log : list event) : nat :=
  match log with
  | [] => 0%nat
  | Acquire x :: rest => ((if resource_eqb r x then 1 else 0) + count_acquire r rest)%nat
  | Release _ :: rest => count_acquire r rest
  end.

(** How many more times a log acquires [r] than it releases it. *)
Definition outstanding (r : resource) (log : list event) : Z :=
  Z.of_nat (count_acquire r log) - Z.of_nat (count_release r log).

(** What the candidate loop leaves behind, by its result: after a failed
    [socket] the address list is already freed; after an accepted connect
    the descriptor and, if captured, the address block are held; after the
    last refusal nothing is held. *)
Definition loop_holds (res : option (Z * Z * ptr)) (ip0 : ptr)
    (log : list event) : Prop :=
  match res with
  | None =>
      ∀ r, outstanding r log = - (if resource_eqb r RAddrinfo then 1 else 0)
  | Some (sd, ret_, ip_) =>
      if is_set ret_ then ip_ = ip0 ∧ ∀ r, outstanding r log = 0
      else sd ≠ -1 ∧
           ∀ r, outstanding r log =
                  (if resource_eqb r (RFd sd) then 1 else 0) +
                  (if is_set ip_ && resource_eqb r (RMem ip_) then 1 else 0)
  end.

(** The messages of the QUIT step. *)
Definition quit_messages : list string :=
  ["Failed to return successful status following the QUIT command.";
   "The server failed to close the connection after issuing a QUIT command."].

Section FurtherVocabulary.

Context {E : Type}.

(** A computation that neither acquires nor releases a resource and
    leaves every session block in place (it may update their fields). *)
Definition keeps_resources {A} (m : M E A) : Prop :=
  ∀ w a w', m w = Ok a w' →
    w_trace w' = w_trace w ∧
    ∀ q, is_Some (w_clients w' !! q) ↔ is_Some (w_clients w !! q).

(** A step that reports through [errmsg] with one of the messages [msgs]:
    when it succeeds the message buffers are untouched, and when it fails
    the buffer at [errmsg] holds one of the messages and the other buffers
    are untouched. *)
Definition reports (msgs : list string) (errmsg : ptr) (m : M E bool) : Prop :=
  ∀ w b w', m w = Ok b w' →
    if b then w_strings w' = w_strings w
    else ∃ msg, In msg msgs ∧ w_strings w' = <[errmsg := msg]> (w_strings w).

(** Two records of a session with the same handles: descriptor, TLS
    context, address block and buffer. *)
Definition same_handles (c c' : client_t) : Prop :=
  sockd c' = sockd c ∧ tls c' = tls c ∧ ip c' = ip c ∧ buffer c' = buffer c.

(** A computation that leaves the session at [p] its handles, and acquires
    and releases nothing. *)
Definition keeps_session (p : ptr) {A} (m : M E A) : Prop :=
  ∀ w a w' c, live p c w → m w = Ok a w' →
    w_trace w' = w_trace w ∧ ∃ c', live p c' w' ∧ same_handles c c'.

(** A computation that may give the session at [p] a TLS context, [t]
    afterwards: either the one it had, with nothing acquired, or a new one,
    acquired once, where there was none.  The other handles stay. *)
Definition secures (p : ptr) {A} (m : M E A) : Prop :=
  ∀ w a w' c, live p c w → m w = Ok a w' →
    ∃ t acq c',
      live p c' w' ∧ same_handles (with_tls t c) c' ∧
      (t = tls c ∧ acq = [] ∨
       tls c = NULL ∧ t ≠ NULL ∧ acq = [Acquire (RTls t)]) ∧
      w_trace w' = (w_trace w ++ acq)%list.

(** A computation whose only dealing with resources is the release of the
    session it finds at [client]: each of that session's resources once,
    the session block last. *)
Definition closes_session (client : ptr) {A} (m : M E A) : Prop :=
  ∀ w a w' c, live client c w → m w = Ok a w' →
    w_trace w' = (w_trace w ++ releases client c)%list ∧
    w_clients w' !! client = None.

End FurtherVocabulary.

(** ** Vocabulary of the exchanges

    Every step of the checks is a sequence of exchanges of one shape: a
    command is handed to a writer and the count it reports is tested, the
    reply is read (one line, or on to the end of a multi-line response),
    the status must be 1 and the last line must start with the expected
    code.  The commands below are read off the source; the theorems tie
    the steps to them. *)

Inductive writer := ByWrite | ByPrint.
Inductive framing := OneLine | ToEnd.

Record command := Command {
  cmd_writer : writer;
  cmd_text : string;
  cmd_count : Z → bool;
  cmd_framing : framing;
  cmd_code : string
}.

(** Why an exchange did not go through. *)
Inductive refusal := ShortWrite | NoReply | BadStatus | WrongCode.

(** The commands of check_smtp_client_mail_rcpt_data with the message each
    leaves on failure. *)
Definition mail_rcpt_data_script (from to : string) : list (command * string) :=
  [ (Command ByPrint (format_s ("MAIL FROM: <%s>" ++ CRLF) from)
       (fun n => to_size_t n =?
                 to_size_t (ns_length_get ("MAIL FROM: <%s>" ++ CRLF)
                            + ns_length_get from - 2))
       ToEnd "250",
     "Failed to return successful status after MAIL.");
    (Command ByPrint (format_s ("RCPT TO: <%s>" ++ CRLF) to)
       (fun n => to_size_t n =?
                 to_size_t (ns_length_get ("RCPT TO: <%s>" ++ CRLF)
                            + ns_length_get to - 2))
       ToEnd "250",
     "Failed to return successful status after RCPT.");
    (Command ByWrite ("DATA" ++ CRLF) (fun n => n =? 6) ToEnd "354",
     "Failed to return a proceed status code after DATA.") ].

(** The command of check_smtp_client_auth_plain. *)
Definition auth_plain_command (auth : string) : command :=
  Command ByPrint
    (format_ps ("AUTH PLAIN %.*s" ++ CRLF) (st_length_int auth) auth)
    (fun n => to_size_t n =? to_size_t (st_length_get auth + 13))
    ToEnd "235".

(** The commands of check_smtp_client_auth_login. *)
Definition credential_command (s code : string) : command :=
  Command ByPrint (format_ps ("%.*s" ++ CRLF) (st_length_int s) s)
    (fun n => to_size_t n =? to_size_t (st_length_get s + 2))
    ToEnd code.

Definition auth_login_commands (user pass : string) : list command :=
  [ Command ByWrite ("AUTH LOGIN" ++ CRLF) (fun n => n =? 12) ToEnd "334";
    credential_command user "334";
    credential_command pass "235" ].

(** The command of check_smtp_client_quit. *)
Definition quit_command : command :=
  Command ByWrite ("QUIT" ++ CRLF) (fun n => n =? 6) OneLine "221".

(** The commands of check_smtp_network_basic_sthread between the greeting
    and QUIT, with the message each leaves on failure. *)
Definition basic_script : list (command * string) :=
  [ (Command ByWrite ("HELO localhost" ++ CRLF) (fun n => n =? 16)
       OneLine "250",
     "Failed to return successful status after HELO.");
    (Command ByWrite ("EHLO localhost" ++ CRLF) (fun n => n =? 16)
       ToEnd "250",
     "Failed to return successful status after EHLO.");
    (Command ByWrite ("MAIL FROM: <>" ++ CRLF) (fun n => n =? 15)
       OneLine "250",
     "Failed to return successful status after MAIL.");
    (Command ByWrite ("RCPT TO: <princess@example.com>" ++ CRLF)
       (fun n => n =? 33) OneLine "250",
     "Failed to return successful status after RCPT.");
    (Command ByWrite ("DATA" ++ CRLF) (fun n => n =? 6) OneLine "354",
     "Failed to return a proceed status code after DATA.");
    (Command ByWrite basic_message
       (fun n => to_size_t n =? to_size_t (ns_length_get basic_message))
       OneLine "250",
     "Failed to get a successful status code after email submission.") ].

Section ExchangeVocabulary.

Context {E : Type} `{Platform E}.
Local Abbreviation M := (M E).

(** The command goes to its writer. *)
Definition sends (p : ptr) (c : command) : M Z :=
  match cmd_writer c with
  | ByWrite => client_write p (cmd_text c)
  | ByPrint => client_print p (cmd_text c)
  end.

(** The reply is read from [w] to [w']; [got] says whether a reply was
    there: a positive read for a single line, the end of the response
    found for a multi-line one. *)
Definition reply_read (fuel : nat) (p : ptr) (f : framing)
    (w : world E) (got : bool) (w' : world E) : Prop :=
  match f with
  | ToEnd => check_smtp_client_read_end fuel p w = Ok got w'
  | OneLine => ∃ n, client_read_line p w = Ok n w' ∧ got = (n >? 0)
  end.

(** The exchange of [c] went through from [w] to [w'], the writer having
    reported [n] bytes: the reply was read, the status is 1 and the line
    starts with the code. *)
Definition exchanged (fuel : nat) (p : ptr) (c : command) (n : Z)
    (w w' : world E) : Prop :=
  ∃ w1 w2 s,
    sends p c w = Ok n w1 ∧
    reply_read fuel p (cmd_framing c) w1 true w2 ∧
    client_status p w2 = Ok 1 w' ∧
    live p s w' ∧ st_cmp_cs_starts (line s) (cmd_code c) = 0.

(** The step accepts the exchange: the count passes its test as well. *)
Definition accepted (fuel : nat) (p : ptr) (c : command)
    (w w' : world E) : Prop :=
  ∃ n, cmd_count c n = true ∧ exchanged fuel p c n w w'.

(** The exchange of [c] stopped, for the reason [why], in [w']. *)
Definition refused (fuel : nat) (p : ptr) (c : command) (why : refusal)
    (w w' : world E) : Prop :=
  ∃ n w1,
    sends p c w = Ok n w1 ∧
    match why with
    | ShortWrite => cmd_count c n = false ∧ w' = w1
    | NoReply =>
        cmd_count c n = true ∧ reply_read fuel p (cmd_framing c) w1 false w'
    | BadStatus =>
        cmd_count c n = true ∧
        ∃ w2 r, reply_read fuel p (cmd_framing c) w1 true w2 ∧
                client_status p w2 = Ok r w' ∧ r ≠ 1
    | WrongCode =>
        cmd_count c n = true ∧
        ∃ w2 s, reply_read fuel p (cmd_framing c) w1 true w2 ∧
                client_status p w2 = Ok 1 w' ∧
                live p s w' ∧ st_cmp_cs_starts (line s) (cmd_code c) ≠ 0
    end.

(** A run of exchanges, each accepted. *)
Fixpoint all_accepted (fuel : nat) (p : ptr) (cs : list command)
    (w w' : world E) : Prop :=
  match cs with
  | [] => w' = w
  | c :: rest =>
      ∃ w1, accepted fuel p c w w1 ∧ all_accepted fuel p rest w1 w'
  end.

(** A run of exchanges, each gone through with its command written in
    full: the writer reported the length of the text. *)
Fixpoint all_in_full (fuel : nat) (p : ptr) (cs : list command)
    (w w' : world E) : Prop :=
  match cs with
  | [] => w' = w
  | c :: rest =>
      ∃ w1, exchanged fuel p c (Z.of_nat (String.length (cmd_text c))) w w1 ∧
            all_in_full fuel p rest w1 w'
  end.

(** The failure test of one exchange as the steps write it, and a run of
    exchanges that stops at the first failure. *)
Definition reply_fails (fuel : nat) (p : ptr) (f : framing) : M bool :=
  match f with
  | ToEnd => b <- check_smtp_client_read_end fuel p ;; ret (negb b)
  | OneLine => n <- client_read_line p ;; ret (n <=? 0)
  end.

Definition exchange_fails (fuel : nat) (p : ptr) (c : command) : M bool :=
  (n <- sends p c ;; ret (negb (cmd_count c n)))
  <||> reply_fails fuel p (cmd_framing c)
  <||> (s <- client_status p ;; ret (negb (s =? 1)))
  <||> (l <- field line p ;; ret (is_set (st_cmp_cs_starts l (cmd_code c)))).

Fixpoint exchanges (fuel : nat) (p : ptr) (on_fail : string → M bool)
    (cs : list (command * string)) (and_then : M bool) : M bool :=
  match cs with
  | [] => and_then
  | (c, msg) :: rest =>
      failed <- exchange_fails fuel p c ;;
      if failed then on_fail msg
      else exchanges fuel p on_fail rest and_then
  end.

(** The reader and the writers leave the session its handles. *)
Definition steady_io : Prop :=
  (∀ c e, same_handles c (snd (fst (client_read_line_ext c e)))) ∧
  (∀ c data e, same_handles c (snd (fst (client_write_ext c data e)))) ∧
  (∀ c text e, same_handles c (snd (fst (client_print_ext c text e)))).

End ExchangeVocabulary.

Section GreetingVocabulary.

Context {E : Type} `{Platform E} `{Timeouts E}.

(** The failure test of the opening of check_smtp_network_basic_sthread,
    as the function writes it. *)
Definition greeting_fails (secure : bool) (client : ptr) : M E bool :=
  ret (negb (is_set client))
  <||> (ret secure
        <&&> (r <- client_secure client ;; ret (r =? -1)))
  <||> (sd <- field sockd client ;;
        ok <- call (net_set_timeout sd 20 20) ;; ret (negb ok))
  <||> (n <- client_read_line client ;; ret (n <=? 0))
  <||> (s <- client_status client ;; ret (negb (s =? 1)))
  <||> (l <- field line client ;;
        ret (is_set (st_cmp_cs_starts l "220")))
  <||> (l <- field line client ;;
        ret (negb (st_search_cs l " ESMTP "))).

(** The opening of check_smtp_network_basic_sthread went through from [w]
    to [wg]: the session exists, it was secured if that was asked for, the
    timeouts were set, and a greeting line was read that starts with 220
    and names ESMTP, the status being 1. *)
Definition greeted (secure : bool) (client : ptr) (w wg : world E) : Prop :=
  client ≠ NULL ∧
  ∃ ws wt n wr c s,
    (if secure then ∃ r, client_secure client w = Ok r ws ∧ r ≠ -1
     else ws = w) ∧
    live client c ws ∧
    call (net_set_timeout (sockd c) 20 20) ws = Ok true wt ∧
    client_read_line client wt = Ok n wr ∧ n > 0 ∧
    client_status client wr = Ok 1 wg ∧
    live client s wg ∧
    st_cmp_cs_starts (line s) "220" = 0 ∧
    st_search_cs (line s) " ESMTP " = true.

End GreetingVocabulary.

(** The scripted platform sets its timeouts without fail. *)
#[global] Instance script_timeouts : Timeouts Script.env := {|
  net_set_timeout := fun _ _ _ e => (true, e)
|}.

(** A platform whose read buffer has a history and whose peer takes a
    limited number of writes: each read lands at the start of the buffer,
    over what earlier reads left there, and the bytes it does not
    overwrite stay; a write is accepted in full while credit lasts and
    reported as failed afterwards.  Nothing can be obtained. *)
Module Replay.

Record env := Env {
  pending : list (Z * string);
  held : string;
  credit : nat
}.

Definition drop (n : nat) (s : string) : string :=
  substring n (String.length s - n) s.

Definition read_line (c : client_t) (e : env) : (Z * client_t) * env :=
  match pending e with
  | [] => ((0, c), e)
  | (n, l) :: rest =>
      ((n, with_line l c),
       Env rest (l ++ drop (String.length l) (held e)) (credit e))
  end.

Definition tail (c : client_t) (e : env) : string :=
  drop (String.length (line c)) (held e) ++
  zero_bytes (buffer_capacity
              - Nat.max (String.length (held e)) (String.length (line c))).

Definition write (c : client_t) (data : string) (e : env)
  : (Z * client_t) * env :=
  match credit e with
  | O => ((-1, c), e)
  | S k => ((Z.of_nat (String.length data), c), Env (pending e) (held e) k)
  end.

#[global] Instance platform : Platform env := {|
  tls_status := fun _ e => (0, e);
  tcp_status := fun _ e => (0, e);
  tls_client_alloc := fun _ e => (NULL, e);
  getaddrinfo := fun _ _ e => ((-1, []), e);
  socket := fun _ _ _ e => (-1, e);
  connect := fun _ _ _ e => (-1, e);
  mm_alloc := fun _ e => (NULL, e);
  st_alloc := fun _ e => (NULL, e);
  client_read_line_ext := read_line;
  line_tail := tail;
  client_write_ext := write;
  client_print_ext := write;
  sizeof_ip_t := 20;
  sizeof_client_t := 64;
  line_flags := 0
|}.

(** One plain session at address 100 whose buffer still holds the greeting
    read earlier, an empty message buffer at 200, the lines the peer sends
    next and the number of writes it takes. *)
Definition greeting : string := "220 mx.example.com ESMTP" ++ CRLF.

Definition after_greeting (next : list (Z * string)) (writes : nat)
  : world env :=
  World (Env next greeting writes)
        {[ 100 := Client 3 0 1 0 400 0 greeting ]} ∅ {[ 200 := "" ]} [].

(** A reply line: what the reader returns for it is its length. *)
Definition reply (text : string) : Z * string :=
  (Z.of_nat (String.length (text ++ CRLF)), text ++ CRLF).

End Replay.

(** * Properties *)

(** ** Running the monad on a live session *)

Create HintDb live.

Section MonadFacts.

Context {E : Type} `{Platform E}.
Implicit Types (w : world E) (c : client_t) (p : ptr).

Lemma bind_ret {A B} (a : A) (k : A → M E B) w : bind (ret a) k w = k a w.
Proof. reflexivity. Qed.

Lemma bind_assoc {A B C} (m : M E A) (f : A → M E B) (k : B → M E C) w :
  bind (bind m f) k w = bind m (fun a => bind (f a) k) w.
Proof. unfold bind. by destruct (m w). Qed.

Lemma bind_call {A B} (f : E → A * E) (k : A → M E B) w :
  bind (call f) k w = k (fst (f (w_env w))) (set_env (snd (f (w_env w))) w).
Proof. reflexivity. Qed.

Lemma bind_emit {B} ev (k : unit → M E B) w :
  bind (emit ev) k w = k tt (set_trace (w_trace w ++ [ev]) w).
Proof. reflexivity. Qed.

Lemma bind_Ok {A B} (m : M E A) (k : A → M E B) w a w1 :
  m w = Ok a w1 → bind m k w = k a w1.
Proof. intros Hm. unfold bind. by rewrite Hm. Qed.

Lemma bind_Ok_inv {A B} (m : M E A) (k : A → M E B) w b w' :
  bind m k w = Ok b w' → ∃ a w1, m w = Ok a w1 ∧ k a w1 = Ok b w'.
Proof. unfold bind. destruct (m w) as [a w1| |]; [eauto | done | done]. Qed.

Lemma load_live p c w : live p c w → load p w = Ok c w.
Proof.
  intros [Hp Hc]. unfold load.
  destruct (Z.eqb_spec p NULL); [done|]. by rewrite Hc.
Qed.

Lemma load_Ok_inv p c w w' : load p w = Ok c w' → w' = w ∧ live p c w.
Proof.
  unfold load, live. destruct (Z.eqb_spec p NULL); [done|].
  destruct (w_clients w !! p); [|done]. by intros [= -> ->].
Qed.

Lemma field_live {A} (f : client_t → A) p c w :
  live p c w → field f p w = Ok (f c) w.
Proof. intros Hl. unfold field, bind, ret. by rewrite (load_live _ _ _ Hl). Qed.

Lemma bind_field_live {A B} (f : client_t → A) (k : A → M E B) p c w :
  live p c w → bind (field f p) k w = k (f c) w.
Proof. intros Hl. unfold bind. by rewrite (field_live _ _ _ _ Hl). Qed.

Lemma assign_live upd p c w :
  live p c w →
  assign upd p w = Ok tt (set_clients (<[p := upd c]> (w_clients w)) w).
Proof.
  intros Hl. unfold assign, bind. rewrite (load_live _ _ _ Hl).
  destruct Hl as [Hp Hc]. unfold store.
  destruct (Z.eqb_spec p NULL); [done|]. by rewrite Hc.
Qed.

Lemma bind_assign_live {B} upd (k : unit → M E B) p c w :
  live p c w →
  bind (assign upd p) k w = k tt (set_clients (<[p := upd c]> (w_clients w)) w).
Proof. intros Hl. unfold bind. by rewrite (assign_live _ _ _ _ Hl). Qed.

Lemma live_set_env p c e w : live p c w → live p c (set_env e w).
Proof. by intros [? ?]. Qed.

Lemma live_set_trace p c t w : live p c w → live p c (set_trace t w).
Proof. by intros [? ?]. Qed.

Lemma live_set_strings p c m w : live p c w → live p c (set_strings m w).
Proof. by intros [? ?]. Qed.

Lemma live_set_ips p c m w : live p c w → live p c (set_ips m w).
Proof. by intros [? ?]. Qed.

Lemma live_insert p c c' w :
  live p c w → live p c' (set_clients (<[p := c']> (w_clients w)) w).
Proof. intros [? ?]. split; [done|]. simpl. apply lookup_insert_eq. Qed.

Lemma live_nonnull p c w : live p c w → p ≠ NULL.
Proof. by intros [? _]. Qed.

Lemma live_inj p c c' w : live p c w → live p c' w → c = c'.
Proof. intros [_ H1] [_ H2]. congruence. Qed.

Lemma is_set_live p c w : live p c w → is_set p = true.
Proof. intros [Hp _]. unfold is_set. by destruct (Z.eqb_spec p 0). Qed.

Lemma is_set_true z : is_set z = true ↔ z ≠ 0.
Proof. unfold is_set. destruct (Z.eqb_spec z 0); split; intros; done. Qed.

Lemma is_set_false z : is_set z = false ↔ z = 0.
Proof. unfold is_set. destruct (Z.eqb_spec z 0); split; intros; done. Qed.

Lemma set_env_id w : set_env (w_env w) w = w.
Proof. by destruct w. Qed.

Lemma set_clients_id p c w :
  live p c w → set_clients (<[p := c]> (w_clients w)) w = w.
Proof.
  intros [_ Hc]. destruct w as [e cl i s t]; simpl in *.
  unfold set_clients; simpl. by rewrite insert_id.
Qed.

End MonadFacts.

#[export] Hint Resolve live_set_env live_set_trace live_set_strings
  live_set_ips live_insert : live.
#[export] Hint Extern 1 (live ?p _ (set_clients (<[?p := _]> _) _)) =>
  (split; [eapply live_nonnull; eassumption | apply lookup_insert_eq]) : live.

Ltac mstep :=
  first
    [ rewrite bind_ret
    | rewrite bind_assoc
    | rewrite bind_call
    | rewrite bind_emit
    | erewrite bind_field_live by eauto with live
    | erewrite bind_assign_live by eauto with live
    | erewrite field_live by eauto with live
    | erewrite assign_live by eauto with live ].

Ltac msimpl := unfold and_also, or_else; repeat (mstep; cbv beta).

Ltac mcase :=
  match goal with
  | Hb : ?b = _ |- context [if ?b then _ else _] => rewrite Hb
  | |- context [if ?b then _ else _] => destruct b eqn:?
  end.

Ltac mrun := repeat (msimpl; simpl; try mcase).

(** ** client_status and client_secure *)

Section StatusFacts.

Context {E : Type} `{Platform E}.
Implicit Types (w : world E) (c : client_t) (p : ptr).

(** On a live session, [client_status] is the probe cascade. *)
Lemma client_status_live p c w :
  live p c w → client_status p w = status_outcome p c w.
Proof.
  intros Hl. pose proof (is_set_live _ _ _ Hl) as Hs.
  unfold client_status, status_outcome, tcp_branch.
  mrun; rewrite ?set_env_id; try reflexivity; try discriminate.
Qed.

(** On a NULL session every guard of [client_status] fails and the last
    branch stores through the pointer. *)
Lemma client_status_null w : client_status NULL w = @Fault E Z NullDeref.
Proof. reflexivity. Qed.

(** On a live session, [client_secure] either finds the overlay in place,
    or asks the TLS provider and records the answer. *)
Lemma client_secure_live p c w :
  live p c w →
  client_secure p w =
    if is_set (tls c) then Ok 0 w
    else
      let t := tls_client_alloc (sockd c) (w_env w) in
      if is_set (fst t) then
        Ok 0 (set_clients
                (<[p := with_status 1 (with_tls (fst t) c)]> (w_clients w))
                (set_trace (w_trace w ++ [Acquire (RTls (fst t))])
                   (set_env (snd t) w)))
      else
        Ok (-1) (set_clients
                   (<[p := with_status (-1) (with_tls (fst t) c)]> (w_clients w))
                   (set_env (snd t) w)).
Proof.
  intros Hl. pose proof (is_set_live _ _ _ Hl) as Hs.
  unfold client_secure, tls_alloc. rewrite Hs. cbn [negb].
  msimpl. destruct (is_set (tls c)) eqn:Ht; [reflexivity|].
  msimpl. cbv zeta.
  set (t := tls_client_alloc (sockd c) (w_env w)).
  destruct (is_set (fst t)) eqn:Hz.
  - assert (Hn : (fst t =? NULL) = false)
      by (apply is_set_true in Hz; unfold NULL; lia).
    rewrite Hn. msimpl. rewrite Hz. cbn [negb]. msimpl.
    unfold set_clients; simpl. by rewrite insert_insert_eq.
  - assert (Hn : (fst t =? NULL) = true)
      by (apply is_set_false in Hz; unfold NULL; lia).
    rewrite Hn. msimpl. rewrite Hz. cbn [negb]. msimpl.
    unfold set_clients; simpl. by rewrite insert_insert_eq.
Qed.

(** C3 (amended).  For a live session with a TLS overlay and a non-negative
    cached status, client_status asks the TLS probe first.  A zero answer
    retains the cached status: it is returned and the session is unchanged.
    A non-zero answer does not yet decide: when the descriptor is valid the
    TCP probe is asked next, and a zero answer from it retains the cached
    status as well; the returned value and the stored status become -1 only
    when the TCP probe is non-zero too or the descriptor is -1. *)
Theorem client_status_tls_probe p c w :
  live p c w → tls c ≠ NULL → 0 ≤ status c →
  let t := tls_status (tls c) (w_env w) in
  let u := tcp_status (sockd c) (snd t) in
  (fst t = 0 → client_status p w = Ok (status c) (set_env (snd t) w)) ∧
  (fst t ≠ 0 → sockd c ≠ -1 → fst u = 0 →
     client_status p w = Ok (status c) (set_env (snd u) w)) ∧
  (fst t ≠ 0 → sockd c ≠ -1 → fst u ≠ 0 →
     client_status p w =
       Ok (-1) (set_clients (<[p := with_status (-1) c]> (w_clients w))
                  (set_env (snd u) w))) ∧
  (fst t ≠ 0 → sockd c = -1 →
     client_status p w =
       Ok (-1) (set_clients (<[p := with_status (-1) c]> (w_clients w))
                  (set_env (snd t) w))).
Proof.
  intros Hl Ht Hs t u. subst t u.
  rewrite (client_status_live _ _ _ Hl). unfold status_outcome, tcp_branch.
  apply is_set_true in Ht. rewrite Ht.
  assert (Hge : (status c >=? 0) = true) by lia. rewrite Hge. simpl.
  split; [|split; [|split]].
  - intros Hz. apply is_set_false in Hz. by rewrite Hz.
  - intros Hz Hsd Hu. apply is_set_true in Hz. apply is_set_false in Hu.
    rewrite Hz, Hu. by destruct (Z.eqb_spec (sockd c) (-1)).
  - intros Hz Hsd Hu. apply is_set_true in Hz. apply is_set_true in Hu.
    rewrite Hz, Hu. by destruct (Z.eqb_spec (sockd c) (-1)).
  - intros Hz Hsd. apply is_set_true in Hz. rewrite Hz, Hsd. reflexivity.
Qed.

Lemma secure_noop_when_overlay_present p c w :
  live p c w → tls c ≠ NULL → client_secure p w = Ok 0 w.
Proof.
  intros Hl Ht. rewrite (client_secure_live _ _ _ Hl).
  apply is_set_true in Ht. by rewrite Ht.
Qed.

(** C7.  client_secure on a session whose TLS overlay is already
    established returns 0 and changes nothing: the session (TLS context,
    descriptor, status, buffer) and the rest of the state are as before. *)
Theorem client_secure_already_secured p c w :
  live p c w → tls c ≠ NULL →
  client_secure p w = Ok 0 w ∧
  (client_secure p ;;; client_secure p) w = Ok 0 w.
Proof.
  intros Hl Ht.
  pose proof (secure_noop_when_overlay_present _ _ _ Hl Ht) as Hs.
  split; [done|]. by rewrite (bind_Ok _ _ _ _ _ Hs).
Qed.

(** C10.  client_status needs a session: on NULL its last branch stores -1
    through the pointer and the call faults, whereas client_secure answers
    -1 and client_close does nothing, both leaving the state alone.  On a
    live session client_status always returns: the value is -1 or the
    cached non-negative status, it is what the session holds afterwards,
    and it lies in {-1, 0, 1, 2} whenever the cached status does. *)
Theorem client_status_needs_session w :
  client_status NULL w = Fault NullDeref ∧
  client_secure NULL w = Ok (-1) w ∧
  client_close NULL w = Ok tt w ∧
  ∀ p c, live p c w →
    ∃ r w' c', client_status p w = Ok r w' ∧ live p c' w' ∧ status c' = r ∧
      (r = -1 ∨ (r = status c ∧ 0 ≤ r)) ∧
      (status c ∈ [-1; 0; 1; 2] → r ∈ [-1; 0; 1; 2]).
Proof.
  split; [reflexivity|]. split; [reflexivity|]. split; [reflexivity|].
  intros p c Hl. rewrite (client_status_live _ _ _ Hl).
  unfold status_outcome, tcp_branch.
  assert (Hin : -1 ∈ [-1; 0; 1; 2]) by set_solver.
  repeat mcase; simpl;
    (eexists _, _, _; split; [reflexivity|]; split; [eauto with live|];
     split; [reflexivity|]; split; [|done]);
    try (left; reflexivity); right; split; try reflexivity;
    repeat match goal with
           | Hb : _ && _ = true |- _ => apply andb_prop in Hb as [? ?]
           end; lia.
Qed.

(** The statuses the two functions can leave behind once an error was
    recorded: the error itself, or "connected" over a TLS overlay. *)
Lemma apply_op_after_error o p c w :
  live p c w →
  status c = -1 ∨ (status c = 1 ∧ tls c ≠ NULL) →
  ∃ w' c', apply_op p o w = Ok tt w' ∧ live p c' w' ∧
    (status c' = -1 ∨ (status c' = 1 ∧ tls c' ≠ NULL)).
Proof.
  intros Hl HJ. destruct o; unfold apply_op.
  - unfold bind. rewrite (client_status_live _ _ _ Hl).
    unfold status_outcome, tcp_branch.
    repeat mcase; simpl; eexists _, _; (split; [reflexivity|]);
      (split; [eauto with live|]); simpl; auto.
  - unfold bind. rewrite (client_secure_live _ _ _ Hl). cbv zeta.
    repeat mcase; simpl; eexists _, _; (split; [reflexivity|]);
      (split; [eauto with live|]); simpl; auto.
    right. split; [done|]. by apply is_set_true.
Qed.

(** With the error recorded, a status query is a no-op, and so is a secure
    upgrade of a session that already has its overlay. *)
Lemma apply_op_error_noop o p c w :
  live p c w → status c = -1 →
  is_status_query o = true ∨ tls c ≠ NULL →
  apply_op p o w = Ok tt w.
Proof.
  intros Hl Hs Ho. destruct o; unfold apply_op.
  - unfold bind. rewrite (client_status_live _ _ _ Hl).
    unfold status_outcome, tcp_branch.
    assert (Hge : (status c >=? 0) = false) by lia.
    rewrite Hge, !andb_false_r. rewrite set_env_id.
    replace (with_status (-1) c) with c by (destruct c; simpl in *; by subst).
    by rewrite (set_clients_id _ _ _ Hl).
  - destruct Ho as [?|Ht]; [done|].
    unfold bind. by rewrite (secure_noop_when_overlay_present _ _ _ Hl Ht).
Qed.

Lemma run_ops_after_error ops p c w :
  live p c w →
  status c = -1 ∨ (status c = 1 ∧ tls c ≠ NULL) →
  ∃ w' c', run_ops ops p w = Ok tt w' ∧ live p c' w' ∧
    (status c' = -1 ∨ (status c' = 1 ∧ tls c' ≠ NULL)).
Proof.
  revert c w. induction ops as [|o ops IH]; intros c w Hl HJ.
  - exists w, c. split; [reflexivity | split; assumption].
  - destruct (apply_op_after_error o _ _ _ Hl HJ) as (w1 & c1 & Ho & Hl1 & HJ1).
    destruct (IH _ _ Hl1 HJ1) as (w2 & c2 & Hr & Hl2 & HJ2).
    exists w2, c2. split; [|done]. simpl. by rewrite (bind_Ok _ _ _ _ _ Ho).
Qed.

Lemma run_ops_error_noop ops p c w :
  live p c w → status c = -1 →
  forallb is_status_query ops = true ∨ tls c ≠ NULL →
  run_ops ops p w = Ok tt w.
Proof.
  intros Hl Hs. induction ops as [|o ops IH]; intros Ho; [reflexivity|].
  simpl. rewrite (bind_Ok _ _ _ _ _ (apply_op_error_noop o _ _ _ Hl Hs
    ltac:(destruct Ho as [Ho|?]; [left; simpl in Ho; by apply andb_prop in Ho as [? _] | by right]))).
  apply IH. destruct Ho as [Ho|?]; [left|by right].
  simpl in Ho. by apply andb_prop in Ho as [_ ?].
Qed.

(** C2 (amended).  On a session whose stored status is -1, any sequence of
    client_status and client_secure calls runs to completion and leaves the
    status at -1, with one exception: a client_secure call that builds a new
    TLS context for a session that had none sets the status to 1.  So the
    final status is -1, or it is 1 and the session, which had no overlay,
    now has one; it is never 2.  Sequences of client_status calls alone, and
    any sequence on a session that already has its overlay, change
    nothing at all. *)
Theorem status_error_sticky_except_new_tls ops p c w :
  live p c w → status c = -1 →
  ∃ w' c', run_ops ops p w = Ok tt w' ∧ live p c' w' ∧
    (status c' = -1 ∨ (status c' = 1 ∧ tls c = NULL ∧ tls c' ≠ NULL)) ∧
    (forallb is_status_query ops = true ∨ tls c ≠ NULL → w' = w).
Proof.
  intros Hl Hs.
  destruct (run_ops_after_error ops _ _ _ Hl (or_introl Hs))
    as (w' & c' & Hr & Hl' & HJ).
  exists w', c'. split; [done|]. split; [done|].
  assert (Hnoop : forallb is_status_query ops = true ∨ tls c ≠ NULL → w' = w).
  { intros Ho. pose proof (run_ops_error_noop ops _ _ _ Hl Hs Ho) as Hr'.
    rewrite Hr in Hr'. by injection Hr'. }
  split; [|done].
  destruct HJ as [?|[H1 Ht']]; [by left|]. right. split; [done|].
  split; [|done].
  destruct (Z.eq_dec (tls c) NULL) as [|Hne]; [done|exfalso].
  rewrite (Hnoop (or_intror Hne)) in Hl'.
  rewrite <- (live_inj _ _ _ _ Hl Hl') in H1. lia.
Qed.

End StatusFacts.

(** The scripted sessions are live in their worlds. *)
Lemma script_live c e : live Script.session_at c (Script.world_with c e).
Proof. split; [done|]. apply lookup_singleton_eq. Qed.

(** C3, an instance of the theorem: a TLS probe with nothing to report
    leaves a connected, secured session as it is. *)
Lemma client_status_tls_probe_witness :
  client_status Script.session_at
    (Script.world_with Script.secured_session Script.quiet)
  = Ok 1 (Script.world_with Script.secured_session Script.quiet).
Proof.
  refine (proj1 (client_status_tls_probe Script.session_at
                   Script.secured_session
                   (Script.world_with Script.secured_session Script.quiet)
                   (script_live _ _) _ _) _).
  - vm_compute. discriminate.
  - vm_compute. discriminate.
  - reflexivity.
Defined.

(** C3, the statement as first given fails: the TLS probe reports the overlay
    closed (1), the TCP probe has nothing to report (0), and client_status
    returns the cached status 1 and leaves it stored, not -1. *)
Lemma client_status_tls_closed_tcp_alive :
  tls Script.secured_session ≠ NULL ∧
  0 ≤ status Script.secured_session ∧
  fst (tls_status (tls Script.secured_session) Script.tls_closed_tcp_alive) = 1 ∧
  client_status Script.session_at
    (Script.world_with Script.secured_session Script.tls_closed_tcp_alive)
  = Ok 1 (Script.world_with Script.secured_session Script.tls_closed_tcp_alive).
Proof.
  split; [vm_compute; discriminate|]. split; [vm_compute; discriminate|].
  split; [reflexivity|]. vm_compute. reflexivity.
Qed.

(** C7, an instance of the theorem. *)
Lemma client_secure_already_secured_witness :
  client_secure Script.session_at
    (Script.world_with Script.secured_session Script.tls_ready)
  = Ok 0 (Script.world_with Script.secured_session Script.tls_ready).
Proof.
  refine (proj1 (client_secure_already_secured Script.session_at
                   Script.secured_session _ (script_live _ _) _)).
  vm_compute. discriminate.
Defined.

(** C10, an instance of the theorem. *)
Lemma client_status_needs_session_witness :
  client_status NULL (Script.world_with Script.plain_session Script.quiet)
    = Fault NullDeref ∧
  ∃ r w' c',
    client_status Script.session_at
      (Script.world_with Script.plain_session Script.quiet) = Ok r w' ∧
    live Script.session_at c' w' ∧ status c' = r ∧
    (r = -1 ∨ (r = status Script.plain_session ∧ 0 ≤ r)) ∧
    (status Script.plain_session ∈ [-1; 0; 1; 2] → r ∈ [-1; 0; 1; 2]).
Proof.
  destruct (client_status_needs_session
              (Script.world_with Script.plain_session Script.quiet))
    as (H1 & _ & _ & H4).
  split; [exact H1|]. apply H4. apply script_live.
Defined.

(** C2, the statement as first given fails: the session holds status -1 and
    has no overlay, the TLS provider hands out a context, and client_secure
    returns 0 and leaves status 1. *)
Lemma client_secure_revives_failed_session :
  status Script.failed_session = -1 ∧
  ∃ w', client_secure Script.session_at
          (Script.world_with Script.failed_session Script.tls_ready) = Ok 0 w' ∧
        status <$> (w_clients w' !! Script.session_at) = Some 1.
Proof.
  split; [reflexivity|]. eexists. split; [reflexivity|].
  vm_compute. reflexivity.
Qed.

(** C2, an instance of the theorem: a query, an upgrade and a query. *)
Lemma status_error_sticky_except_new_tls_witness :
  ∃ w' c',
    run_ops [OpStatus; OpSecure; OpStatus] Script.session_at
      (Script.world_with Script.failed_session Script.tls_ready) = Ok tt w' ∧
    live Script.session_at c' w' ∧
    (status c' = -1 ∨
     (status c' = 1 ∧ tls Script.failed_session = NULL ∧ tls c' ≠ NULL)) ∧
    (forallb is_status_query [OpStatus; OpSecure; OpStatus] = true
     ∨ tls Script.failed_session ≠ NULL →
     w' = Script.world_with Script.failed_session Script.tls_ready).
Proof.
  apply status_error_sticky_except_new_tls; [apply script_live | reflexivity].
Defined.

(** ** client_close *)

Section CloseFacts.

Context {E : Type} `{Platform E}.
Implicit Types (w : world E) (c : client_t) (p : ptr).

Lemma live_delete_other p q c w :
  live p c w → q ≠ p →
  live p c (set_ips (delete q (w_ips w)) (set_clients (delete q (w_clients w)) w)).
Proof.
  intros [Hp Hc] Hq. split; [done|]. simpl. by rewrite lookup_delete_ne.
Qed.

Lemma mm_cleanup_live_other p q c w :
  live p c w → q ≠ p →
  ∃ w', mm_cleanup q w = Ok tt w' ∧ live p c w' ∧
    w_trace w' = (w_trace w ++ (if is_set q then [Release (RMem q)] else []))%list ∧
    w_env w' = w_env w ∧ w_strings w' = w_strings w.
Proof.
  intros Hl Hq. unfold mm_cleanup, is_set, NULL.
  destruct (q =? 0) eqn:Hz; simpl.
  - exists w. unfold ret. by rewrite app_nil_r.
  - eexists. split; [reflexivity|]. split; [|done].
    apply live_delete_other; [|done]. by apply live_set_trace.
Qed.

Lemma st_cleanup_live p b c w :
  live p c w →
  ∃ w', st_cleanup b w = Ok tt w' ∧ live p c w' ∧
    w_trace w' = (w_trace w ++ (if is_set b then [Release (RStr b)] else []))%list ∧
    w_env w' = w_env w ∧ w_strings w' = w_strings w.
Proof.
  intros Hl. unfold st_cleanup, is_set, NULL.
  destruct (b =? 0) eqn:Hz; simpl.
  - exists w. unfold ret. by rewrite app_nil_r.
  - eexists. split; [reflexivity|]. split; [|done]. by apply live_set_trace.
Qed.

Lemma releases_NoDup p c : ip c ≠ p → NoDup (releases p c).
Proof.
  intros Hip. unfold releases.
  destruct (is_set (tls c)), (sockd c =? -1), (is_set (ip c)),
    (is_set (buffer c)); simpl;
    repeat (apply NoDup_cons_2;
            [rewrite ?not_elem_of_cons; repeat split;
             try congruence; apply not_elem_of_nil|]);
    apply NoDup_nil_2.
Qed.

Lemma client_close_live p c w :
  live p c w → ip c ≠ p →
  ∃ w', client_close p w = Ok tt w' ∧
    w_trace w' = (w_trace w ++ releases p c)%list ∧
    w_clients w' !! p = None ∧
    w_env w' = w_env w ∧ w_strings w' = w_strings w.
Proof.
  intros Hl Hip. pose proof (is_set_live _ _ _ Hl) as Hs.
  unfold client_close. rewrite Hs.
  erewrite bind_field_live by eauto.
  assert (∃ w1, (if is_set (tls c) then tls_free (tls c) else ret tt) w = Ok tt w1
                ∧ live p c w1
                ∧ w_trace w1 = (w_trace w ++ (if is_set (tls c) then [Release (RTls (tls c))] else []))%list
                ∧ w_env w1 = w_env w ∧ w_strings w1 = w_strings w)
    as (w1 & Hr1 & Hl1 & Ht1 & He1 & Hs1).
  { destruct (is_set (tls c)).
    - eexists. split; [reflexivity|]. split; [by apply live_set_trace|done].
    - exists w. unfold ret. by rewrite app_nil_r. }
  rewrite (bind_Ok _ _ _ _ _ Hr1).
  erewrite bind_field_live by eauto.
  assert (∃ w2, (if negb (sockd c =? -1) then close (sockd c) else ret tt) w1 = Ok tt w2
                ∧ live p c w2
                ∧ w_trace w2 = (w_trace w1 ++ (if sockd c =? -1 then [] else [Release (RFd (sockd c))]))%list
                ∧ w_env w2 = w_env w1 ∧ w_strings w2 = w_strings w1)
    as (w2 & Hr2 & Hl2 & Ht2 & He2 & Hs2).
  { destruct (sockd c =? -1); simpl.
    - exists w1. unfold ret. by rewrite app_nil_r.
    - eexists. split; [reflexivity|]. split; [by apply live_set_trace|done]. }
  rewrite (bind_Ok _ _ _ _ _ Hr2).
  erewrite bind_field_live by eauto.
  destruct (mm_cleanup_live_other p (ip c) c w2 Hl2 Hip)
    as (w3 & Hr3 & Hl3 & Ht3 & He3 & Hs3).
  rewrite (bind_Ok _ _ _ _ _ Hr3).
  erewrite bind_field_live by eauto.
  destruct (st_cleanup_live p (buffer c) c w3 Hl3)
    as (w4 & Hr4 & Hl4 & Ht4 & He4 & Hs4).
  rewrite (bind_Ok _ _ _ _ _ Hr4).
  eexists. split; [reflexivity|]. simpl.
  split; [|split; [apply lookup_delete_eq | split; congruence]].
  rewrite Ht4, Ht3, Ht2, Ht1. unfold releases. by rewrite <- !app_assoc.
Qed.

Lemma client_close_released p w :
  p ≠ NULL → w_clients w !! p = None → client_close p w = Fault UseAfterFree.
Proof.
  intros Hp Hc. unfold client_close.
  apply is_set_true in Hp as Hs. rewrite Hs.
  unfold field; unfold bind; unfold load.
  apply Z.eqb_neq in Hp. rewrite Hp. by rewrite Hc.
Qed.

(** C4 (amended).  client_close does nothing on an absent session.  On a
    live one, fully or partially initialised, it releases the TLS context
    if there is one, then the descriptor unless it is -1, then the peer
    address and the buffer if allocated, then the session block itself:
    each resource once, in that order.  It clears no field and releases
    the block, so it is not idempotent: a second call on the same pointer
    reads the released session. *)
Theorem client_close_releases_once p c w :
  live p c w → ip c ≠ p →
  client_close NULL w = Ok tt w ∧
  ∃ w', client_close p w = Ok tt w' ∧
    w_trace w' = (w_trace w ++ releases p c)%list ∧
    NoDup (releases p c) ∧
    w_clients w' !! p = None ∧
    w_env w' = w_env w ∧ w_strings w' = w_strings w ∧
    client_close p w' = Fault UseAfterFree.
Proof.
  intros Hl Hip. split; [reflexivity|].
  destruct (client_close_live _ _ _ Hl Hip) as (w' & Hr & Ht & Hc & He & Hs).
  exists w'. repeat (split; [done || by apply releases_NoDup|]).
  apply client_close_released; [by destruct Hl | done].
Qed.

End CloseFacts.

(** C4, an instance of the theorem: a session with all four resources. *)
Lemma client_close_releases_once_witness :
  ∃ w', client_close Script.session_at
          (Script.world_with Script.full_session Script.quiet) = Ok tt w' ∧
    w_trace w' = [Release (RTls 7); Release (RFd 3); Release (RMem 300);
                  Release (RStr 400); Release (RMem 100)] ∧
    client_close Script.session_at w' = Fault UseAfterFree.
Proof.
  destruct (client_close_releases_once Script.session_at Script.full_session
              (Script.world_with Script.full_session Script.quiet)
              (script_live _ _) ltac:(vm_compute; discriminate))
    as (_ & w' & Hr & Ht & _ & _ & _ & _ & Hf).
  exists w'. split; [exact Hr|]. split; [exact Ht | exact Hf].
Defined.

(** C4, the statement as first given fails: after one close of a fully
    initialised session, a second close of the same session is not a
    harmless no-op; it reads the session block the first call released. *)
Lemma client_close_twice_faults :
  (client_close Script.session_at ;;; client_close Script.session_at)
    (Script.world_with Script.full_session Script.quiet)
  = Fault UseAfterFree.
Proof. vm_compute. reflexivity. Qed.

(** ** client_connect *)

Section ConnectFacts.

Context {E : Type} `{Platform E}.
Implicit Types (w : world E) (c : client_t) (p : ptr).

Lemma resource_eqb_refl r : resource_eqb r r = true.
Proof. destruct r; simpl; auto using Z.eqb_refl. Qed.

(** A socket opened and closed at once leaves the live resources as they
    were. *)
Lemma replay_refused_attempts fds live rest :
  replay live (refused_attempts fds ++ rest)%list = replay live rest.
Proof.
  revert live. induction fds as [|sd fds IH]; intros live; [reflexivity|].
  simpl. rewrite Z.eqb_refl. apply IH.
Qed.

Lemma last_cons_default {A} (x : A) l d : List.last (x :: l) d = List.last l x.
Proof.
  revert x d. induction l as [|y l IH]; intros x d; [reflexivity|].
  change (List.last (x :: y :: l) d) with (List.last (y :: l) d).
  by rewrite !IH.
Qed.

(** The candidate loop while the outside world is in a state [I] in which
    every socket call succeeds and every connect is refused: it runs
    through the whole list, leaves each descriptor closed, and ends holding
    the last descriptor and the last error. *)
Lemma connect_loop_refused (I : E → Prop) holder sd0 r0 ip0 w :
  (∀ f t pr e, I e → fst (socket f t pr e) ≠ -1 ∧ I (snd (socket f t pr e))) →
  (∀ sd a l e, I e → fst (connect sd a l e) ≠ 0 ∧ I (snd (connect sd a l e))) →
  I (w_env w) →
  ∃ fds r' w',
    connect_loop holder sd0 r0 ip0 w = Ok (Some (List.last fds sd0, r', ip0)) w' ∧
    length fds = length holder ∧
    (holder ≠ [] → r' ≠ 0) ∧
    w_trace w' = (w_trace w ++ refused_attempts fds)%list ∧
    w_clients w' = w_clients w ∧ w_strings w' = w_strings w.
Proof.
  intros Hsock Hconn. revert sd0 r0 w.
  induction holder as [|h next IH]; intros sd0 r0 w HI.
  - exists [], r0, w. simpl. unfold ret. by rewrite app_nil_r.
  - simpl. unfold os_socket. msimpl.
    set (s := socket (ai_family h) (ai_socktype h) (ai_protocol h) (w_env w)).
    destruct (Hsock (ai_family h) (ai_socktype h) (ai_protocol h) (w_env w) HI)
      as [Hs HI1].
    fold s in Hs, HI1. apply Z.eqb_neq in Hs as Hs'. rewrite Hs'. msimpl.
    rewrite Hs'. msimpl.
    match goal with
    | |- context [connect ?a ?b ?c ?e] =>
        destruct (Hconn a b c e HI1) as [Hc HI2]; set (r := connect a b c e) in *
    end.
    apply is_set_true in Hc as Hc'. rewrite Hc'. cbn [negb].
    unfold close. msimpl.
    match goal with
    | |- context [connect_loop next ?a ?b ?c ?w1] =>
        destruct (IH a b w1 HI2) as (fds & r' & w' & Hr & Hlen & Hne & Ht & Hcl & Hst)
    end.
    exists (fst s :: fds), (if fds is [] then fst r else r'), w'.
    rewrite last_cons_default.
    split.
    { rewrite Hr. destruct fds as [|x fds]; [|done].
      destruct next; [|done]. simpl in Hr. unfold ret in Hr. simpl. congruence. }
    split; [simpl; by rewrite Hlen|].
    split.
    { intros _. destruct fds as [|x fds]; [done|].
      apply Hne. by destruct next. }
    split; [|done].
    rewrite Ht. simpl. by rewrite <- !app_assoc.
Qed.

(** C5.  What client_connect does when every candidate refuses the
    connection: it returns NULL, frees the address list once and closes
    every socket it created in the loop, and then closes the descriptor of
    the last candidate a second time after the list is freed.  Replaying
    the log, the last release finds no open descriptor: a double close. *)
Theorem client_connect_refused_closes_last_twice
    (I : E → Prop) host port w info e1 first :
  (∀ f t pr e, I e → fst (socket f t pr e) ≠ -1 ∧ I (snd (socket f t pr e))) →
  (∀ sd a l e, I e → fst (connect sd a l e) ≠ 0 ∧ I (snd (connect sd a l e))) →
  getaddrinfo host (service_of port) (w_env w) = ((0, info), e1) → I e1 →
  head info = Some first → ai_socktype first = SOCK_STREAM →
  ∃ fds w',
    client_connect host port w = Ok NULL w' ∧
    length fds = length info ∧
    w_trace w' =
      (w_trace w ++ [Acquire RAddrinfo] ++ refused_attempts fds ++
       [Release RAddrinfo; Release (RFd (List.last fds (-1)))])%list ∧
    replay [] ([Acquire RAddrinfo] ++ refused_attempts fds ++
               [Release RAddrinfo; Release (RFd (List.last fds (-1)))])%list
      = None.
Proof.
  intros Hsock Hconn Hga HI Hhd Hst.
  destruct info as [|a rest]; [done|]. injection Hhd as ->.
  unfold client_connect, os_getaddrinfo. msimpl. rewrite Hga.
  cbn [fst snd]. cbv beta iota. msimpl. cbv beta iota.
  change (is_set 0) with false. rewrite Hst, Z.eqb_refl. cbn [negb orb].
  match goal with
  | |- context [bind (connect_loop ?l ?a ?b ?c) _ ?w1] =>
      destruct (connect_loop_refused I l a b c w1 Hsock Hconn HI)
        as (fds & r' & w' & Hr & Hlen & Hne & Ht & _ & _)
  end.
  rewrite (bind_Ok _ _ _ _ _ Hr). unfold freeaddrinfo, close. msimpl.
  assert (Hr' : is_set r' = true) by (apply is_set_true; by apply Hne).
  rewrite Hr'. msimpl.
  eexists fds, _. split; [reflexivity|]. split; [done|]. split.
  - simpl. rewrite Ht. simpl. rewrite <- !app_assoc. reflexivity.
  - cbn [app replay]. rewrite replay_refused_attempts. reflexivity.
Qed.

End ConnectFacts.

(** C5, an instance of the theorem: one candidate, descriptor 3, refused. *)
Lemma client_connect_refused_closes_last_twice_witness :
  ∃ fds w',
    client_connect "localhost" 25 (Script.empty_world Script.refusing) = Ok NULL w' ∧
    length fds = 1%nat ∧
    w_trace w' =
      ([Acquire RAddrinfo] ++ refused_attempts fds ++
       [Release RAddrinfo; Release (RFd (List.last fds (-1)))])%list ∧
    replay [] ([Acquire RAddrinfo] ++ refused_attempts fds ++
               [Release RAddrinfo; Release (RFd (List.last fds (-1)))])%list
      = None.
Proof.
  apply (client_connect_refused_closes_last_twice
           (fun e => Script.socket_fd e = 3 ∧ Script.connect_ret e = -1)
           "localhost" 25
           (Script.empty_world Script.refusing) [Script.loopback]
           Script.refusing Script.loopback).
  - intros f t pr e [Hs Hc]. simpl. rewrite Hs. split; [discriminate | done].
  - intros sd a l e [Hs Hc]. simpl. rewrite Hc. split; [discriminate | done].
  - reflexivity.
  - split; reflexivity.
  - reflexivity.
  - reflexivity.
Defined.

(** C5, the run itself: with one refused candidate the log is the list
    acquired, socket 3 opened and closed, the list freed, and socket 3
    closed again. *)
Lemma client_connect_single_refused_log :
  ∃ w', client_connect "localhost" 25 (Script.empty_world Script.refusing)
          = Ok NULL w' ∧
        w_trace w' = [Acquire RAddrinfo; Acquire (RFd 3); Release (RFd 3);
                      Release RAddrinfo; Release (RFd 3)] ∧
        count_release (RFd 3) (w_trace w') = 2%nat ∧
        replay [] (w_trace w') = None.
Proof.
  eexists. split; [vm_compute; reflexivity|].
  split; [reflexivity|]. split; reflexivity.
Qed.

(** ** The end-of-response reader *)

Section ReadEndFacts.

Context {E : Type} `{Platform E}.
Implicit Types (w : world E) (c : client_t) (p : ptr).

Lemma get_Some_length (s : string) i a :
  String.get i s = Some a → (i < String.length s)%nat.
Proof.
  revert i. induction s as [|x s IH]; intros i; [done|].
  destruct i as [|i]; simpl; [lia|]. intros Hg. apply IH in Hg. lia.
Qed.

Lemma get_None_length (s : string) i :
  String.get i s = None → (String.length s ≤ i)%nat.
Proof.
  revert i. induction s as [|x s IH]; intros i; [simpl; lia|].
  destruct i as [|i]; simpl; [done|]. intros Hg. apply IH in Hg. lia.
Qed.

Lemma get_app_l (s t : string) i :
  (i < String.length s)%nat → String.get i (s ++ t) = String.get i s.
Proof. intros Hi. symmetry. by apply append_correct1. Qed.

Lemma get_app_r (s t : string) i :
  (String.length s ≤ i)%nat →
  String.get i (s ++ t) = String.get (i - String.length s) t.
Proof.
  intros Hi. rewrite (append_correct2 s t (i - String.length s)).
  f_equal. lia.
Qed.

Lemma line_char_live p c w i :
  live p c w →
  line_char p i w =
    match String.get i (line c ++ line_tail c (w_env w)) with
    | Some a => Ok a w
    | None => Fault OutOfBounds
    end.
Proof.
  intros Hl. unfold line_char. rewrite (bind_Ok _ _ _ _ _ (load_live _ _ _ Hl)).
  unfold observe, bind. by destruct (get i _).
Qed.




Lemma read_end_step_line fuel p w n w1 ch :
  client_read_line p w = Ok n w1 → n > 0 → line_char p 3 w1 = Ok ch w1 →
  check_smtp_client_read_end (S fuel) p w =
    if Ascii.eqb ch " " then Ok true w1
    else check_smtp_client_read_end fuel p w1.
Proof.
  intros Hr Hn Hc. simpl. rewrite (bind_Ok _ _ _ _ _ Hr).
  assert (Hg : (n >? 0) = true) by lia. rewrite Hg.
  rewrite (bind_Ok _ _ _ _ _ Hc). by destruct (Ascii.eqb ch " ").
Qed.

Lemma read_end_step_short fuel p w n w1 :
  client_read_line p w = Ok n w1 → n > 0 →
  line_char p 3 w1 = Fault OutOfBounds →
  check_smtp_client_read_end (S fuel) p w = Fault OutOfBounds.
Proof.
  intros Hr Hn Hc. simpl. rewrite (bind_Ok _ _ _ _ _ Hr).
  assert (Hg : (n >? 0) = true) by lia. rewrite Hg.
  unfold bind. by rewrite Hc.
Qed.





(** C9.  The test of check_smtp_client_read_end reads the byte at offset 3
    of the line just read, whatever its length.  When the line has at
    least four bytes that byte is the fourth byte of the line and the test
    is whether it is a space.  When a positive read leaves a shorter line,
    the line has no such byte and nothing in the function guards against
    it: the access goes past the end of the line, the byte the read buffer
    holds there decides the test whatever the line says, and the access is
    out of bounds altogether if the buffer ends before it. *)
Theorem read_end_needs_four_bytes fuel p w n w1 c :
  client_read_line p w = Ok n w1 → n > 0 → live p c w1 →
  ((4 ≤ String.length (line c))%nat →
     ∃ ch, String.get 3 (line c) = Some ch ∧
       check_smtp_client_read_end (S fuel) p w =
         if Ascii.eqb ch " " then Ok true w1
         else check_smtp_client_read_end fuel p w1) ∧
  ((String.length (line c) < 4)%nat →
     String.get 3 (line c) = None ∧
     check_smtp_client_read_end (S fuel) p w =
       match String.get (3 - String.length (line c))
               (line_tail c (w_env w1)) with
       | Some ch => if Ascii.eqb ch " " then Ok true w1
                    else check_smtp_client_read_end fuel p w1
       | None => Fault OutOfBounds
       end).
Proof.
  intros Hr Hn Hl.
  pose proof (line_char_live p c w1 3 Hl) as Hlc.
  split; intros Hlen.
  - rewrite get_app_l in Hlc by lia.
    destruct (get 3 (line c)) as [ch|] eqn:Hg.
    + exists ch. split; [done|]. by apply (read_end_step_line _ _ _ n w1 ch).
    + apply get_None_length in Hg. lia.
  - rewrite get_app_r in Hlc by lia. split.
    + destruct (get 3 (line c)) eqn:Hg; [|done].
      apply get_Some_length in Hg. lia.
    + destruct (get _ (line_tail c (w_env w1))) as [ch|].
      * by apply (read_end_step_line _ _ _ n w1 ch).
      * by apply (read_end_step_short _ _ _ n w1).
Qed.

End ReadEndFacts.



(** C9, an instance of the theorem: a positive read that leaves the
    three-byte line 250 in a buffer that still holds an earlier greeting
    is taken for the end of the response. *)
Lemma read_end_needs_four_bytes_witness :
  ∃ w', check_smtp_client_read_end 1 100 (Replay.after_greeting [(3, "250")] 0)
          = Ok true w' ∧
        line <$> (w_clients w' !! 100) = Some "250".
Proof.
  assert (Hrun : ∃ w', client_read_line 100 (Replay.after_greeting [(3, "250")] 0)
                         = Ok 3 w')
    by (eexists; vm_compute; reflexivity).
  destruct Hrun as [w' Hr]. exists w'.
  assert (Hl : live 100 (Client 3 0 1 0 400 0 "250") w').
  { vm_compute in Hr. injection Hr as <-. split; [done | vm_compute; reflexivity]. }
  assert (Hline : line <$> (w_clients w' !! 100) = Some "250").
  { destruct Hl as [_ Hc]. change ptr with Z in Hc.
    replace (w_clients w' !! 100) with (Some (Client 3 0 1 0 400 0 "250")).
    reflexivity. }
  split; [|exact Hline].
  destruct (read_end_needs_four_bytes 0 100 _ 3 w'
              (Client 3 0 1 0 400 0 "250") Hr ltac:(lia) Hl) as [_ Hshort].
  destruct (Hshort ltac:(simpl; lia)) as [_ ->].
  vm_compute in Hr. injection Hr as <-. vm_compute. reflexivity.
Defined.

(** ** The QUIT step *)

Section QuitFacts.

Context {E : Type} `{Platform E}.
Implicit Types (w : world E) (c : client_t) (p : ptr).

Lemma or_else_false (a b : M E bool) w w1 :
  a w = Ok false w1 → or_else a b w = b w1.
Proof. intros Ha. unfold or_else. by rewrite (bind_Ok _ _ _ _ _ Ha). Qed.

Lemma or_else_false_inv (a b : M E bool) w w' :
  or_else a b w = Ok false w' →
  ∃ w1, a w = Ok false w1 ∧ b w1 = Ok false w'.
Proof.
  unfold or_else. intros Hb. apply bind_Ok_inv in Hb as (x & w1 & Ha & Hk).
  destruct x; [done|]. by exists w1.
Qed.

Lemma test_Ok {A} (m : M E A) (f : A → bool) w x w1 :
  m w = Ok x w1 → bind m (fun x => ret (f x)) w = Ok (f x) w1.
Proof. intros Hm. by rewrite (bind_Ok _ _ _ _ _ Hm). Qed.

Lemma test_Ok_inv {A} (m : M E A) (f : A → bool) w b w' :
  bind m (fun x => ret (f x)) w = Ok b w' → ∃ x, m w = Ok x w' ∧ f x = b.
Proof.
  intros Hb. apply bind_Ok_inv in Hb as (x & w1 & Hm & Hr).
  injection Hr as <- <-. by exists x.
Qed.

Lemma field_Ok_inv {A} (f : client_t → A) p w a w' :
  field f p w = Ok a w' → w' = w ∧ ∃ c, live p c w ∧ a = f c.
Proof.
  unfold field. intros Hb. apply bind_Ok_inv in Hb as (c & w1 & Hl & Hr).
  apply load_Ok_inv in Hl as [-> Hl]. injection Hr as <- <-. eauto.
Qed.

Lemma quit_after_ack p errmsg w w3 :
  quit_acknowledged p w w3 →
  check_smtp_client_quit p errmsg w =
    (n <- client_read_line p ;;
     if n >? 0 then
       st_sprint errmsg
         "The server failed to close the connection after issuing a QUIT command." ;;;
       ret false
     else ret true) w3.
Proof.
  intros (w1 & n & w2 & c & Hw & Hr & Hn & Hs & Hl & Hp).
  unfold check_smtp_client_quit.
  match goal with
  | |- bind ?m _ _ = _ => assert (Hch : m w = Ok false w3)
  end.
  { erewrite or_else_false; cycle 1.
    { erewrite or_else_false; cycle 1.
      { erewrite or_else_false; cycle 1.
        { by rewrite (test_Ok _ (fun n => negb (n =? 6)) _ _ _ Hw). }
        rewrite (test_Ok _ (fun n => n <=? 0) _ _ _ Hr).
        f_equal. lia. }
      rewrite (test_Ok _ (fun s => negb (s =? 1)) _ _ _ Hs). reflexivity. }
    erewrite bind_field_live by eauto. unfold ret.
    apply is_set_false in Hp. by rewrite Hp. }
  by rewrite (bind_Ok _ _ _ _ _ Hch).
Qed.

Lemma quit_true_inv p errmsg w w' :
  check_smtp_client_quit p errmsg w = Ok true w' →
  ∃ w3 m, quit_acknowledged p w w3 ∧ client_read_line p w3 = Ok m w' ∧ m ≤ 0.
Proof.
  unfold check_smtp_client_quit. intros Hb.
  apply bind_Ok_inv in Hb as (failed & w3 & Hf & Hk).
  destruct failed.
  { apply bind_Ok_inv in Hk as (? & ? & _ & Hk). by injection Hk. }
  apply or_else_false_inv in Hf as (wc & Hf & Hd).
  apply or_else_false_inv in Hf as (w2 & Hf & Hc).
  apply or_else_false_inv in Hf as (w1 & Ha & Hb).
  apply test_Ok_inv in Ha as (n0 & Hw & Hn0).
  apply test_Ok_inv in Hb as (n & Hr & Hn).
  apply test_Ok_inv in Hc as (s & Hs & Hs1).
  apply test_Ok_inv in Hd as (l & Hl & Hp).
  apply field_Ok_inv in Hl as (-> & c & Hl & ->).
  assert (n0 = 6) as -> by lia. assert (s = 1) as -> by lia.
  apply bind_Ok_inv in Hk as (m & w4 & Hm & Hk).
  destruct (m >? 0) eqn:Hgt.
  { apply bind_Ok_inv in Hk as (? & ? & _ & Hk). by injection Hk. }
  injection Hk as <-.
  exists wc, m. split; [|split; [done | lia]].
  exists w1, n, w2, c.
  split; [done|]. split; [done|]. split; [lia|]. split; [done|].
  split; [done|]. by apply is_set_false.
Qed.

(** C6 (amended).  The QUIT step succeeds exactly when the QUIT command is
    written in full (6 bytes), one line is read, the session status is 1,
    the line begins with 221, and the follow-up read returns nothing: a
    result that is zero or negative, so an orderly shutdown and a failed
    read both count.  Further bytes on the follow-up read (a positive
    result) make the step fail, with the message recorded in a non-NULL
    buffer. *)
Theorem quit_succeeds_iff_no_further_bytes p errmsg w :
  (∀ w', check_smtp_client_quit p errmsg w = Ok true w' ↔
         ∃ w3 m, quit_acknowledged p w w3 ∧
                 client_read_line p w3 = Ok m w' ∧ m ≤ 0) ∧
  (∀ w3 m w4, quit_acknowledged p w w3 →
     client_read_line p w3 = Ok m w4 → m > 0 →
     check_smtp_client_quit p errmsg w =
       Ok false
         (if errmsg =? NULL then w4
          else set_strings
                 (<[errmsg :=
                      "The server failed to close the connection after issuing a QUIT command."]>
                    (w_strings w4)) w4)).
Proof.
  split.
  - intros w'. split; [apply quit_true_inv|].
    intros (w3 & m & Hack & Hm & Hle).
    rewrite (quit_after_ack _ _ _ _ Hack), (bind_Ok _ _ _ _ _ Hm).
    assert (Hg : (m >? 0) = false) by lia. by rewrite Hg.
  - intros w3 m w4 Hack Hm Hgt.
    rewrite (quit_after_ack _ _ _ _ Hack), (bind_Ok _ _ _ _ _ Hm).
    assert (Hg : (m >? 0) = true) by lia. rewrite Hg.
    unfold st_sprint. by destruct (errmsg =? NULL).
Qed.

End QuitFacts.

(** C6, an instance of the theorem: the 221 reply followed by an orderly
    shutdown (a read of zero bytes). *)
Lemma quit_succeeds_iff_no_further_bytes_witness :
  ∃ w', check_smtp_client_quit Script.session_at Script.errmsg_at
          (Script.world_with Script.plain_session
             (Script.with_incoming [Script.reply "221 Bye"] Script.quiet))
        = Ok true w'.
Proof.
  eexists.
  apply (proj1 (quit_succeeds_iff_no_further_bytes Script.session_at
                  Script.errmsg_at _)).
  eexists _, 0. split.
  - eexists _, 9, _, _.
    split; [reflexivity|]. split; [reflexivity|]. split; [lia|].
    split; [reflexivity|]. split; [split; [done | reflexivity]|].
    reflexivity.
  - split; [reflexivity | lia].
Defined.

(** C6, the statement as first given fails: the server acknowledges QUIT with
    221 and the follow-up read then fails with -1, which is no orderly
    shutdown; the step succeeds all the same. *)
Lemma quit_accepts_failed_follow_up_read :
  ∃ w3 w',
    quit_acknowledged Script.session_at
      (Script.world_with Script.plain_session
         (Script.with_incoming [Script.reply "221 Bye"; (-1, "")] Script.quiet))
      w3 ∧
    client_read_line Script.session_at w3 = Ok (-1) w' ∧
    check_smtp_client_quit Script.session_at Script.errmsg_at
      (Script.world_with Script.plain_session
         (Script.with_incoming [Script.reply "221 Bye"; (-1, "")] Script.quiet))
    = Ok true w'.
Proof.
  eexists _, _. split; [|split].
  - eexists _, 9, _, _.
    split; [reflexivity|]. split; [reflexivity|]. split; [lia|].
    split; [reflexivity|]. split; [split; [done | reflexivity]|].
    reflexivity.
  - reflexivity.
  - vm_compute. reflexivity.
Qed.

(** ** The relay exchanges and the message buffer *)

Create HintDb keeps.

Section KeepsStrings.

Context {E : Type} `{Platform E}.
Implicit Types (w : world E) (c : client_t) (p : ptr).

Lemma ks_ret {A} (a : A) : keeps_strings (E:=E) (ret a).
Proof. intros w x w' Hr. by inversion Hr. Qed.

Lemma ks_bind {A B} (m : M E A) (k : A → M E B) :
  keeps_strings m → (∀ a, keeps_strings (k a)) → keeps_strings (bind m k).
Proof.
  intros Hm Hk w b w' Hb. apply bind_Ok_inv in Hb as (a & w1 & Ha & Hb).
  rewrite (Hk _ _ _ _ Hb). by apply (Hm _ _ _ Ha).
Qed.

Lemma ks_if {A} (b : bool) (x y : M E A) :
  keeps_strings x → keeps_strings y → keeps_strings (if b then x else y).
Proof. by destruct b. Qed.

Lemma ks_call {A} (f : E → A * E) : keeps_strings (call f).
Proof. intros w x w' Hr. by inversion Hr. Qed.

Lemma ks_observe {A} (f : E → A) : keeps_strings (observe f).
Proof. intros w x w' Hr. by inversion Hr. Qed.

Lemma ks_emit ev : keeps_strings (E:=E) (emit ev).
Proof. intros w x w' Hr. by inversion Hr. Qed.

Lemma ks_raise {A} f : keeps_strings (E:=E) (A:=A) (raise f).
Proof. by intros w x w' Hr. Qed.

Lemma ks_out_of_fuel {A} : keeps_strings (E:=E) (A:=A) out_of_fuel.
Proof. by intros w x w' Hr. Qed.

Lemma ks_load p : keeps_strings (E:=E) (load p).
Proof. intros w x w' Hr. by apply load_Ok_inv in Hr as [-> _]. Qed.

Lemma ks_store p c : keeps_strings (E:=E) (store p c).
Proof.
  intros w x w'. unfold store. destruct (p =? NULL); [done|].
  destruct (w_clients w !! p); [|done]. intros Hr. by inversion Hr.
Qed.

Lemma ks_field {A} (f : client_t → A) p : keeps_strings (E:=E) (field f p).
Proof. apply ks_bind; [apply ks_load | intros; apply ks_ret]. Qed.

Lemma ks_assign upd p : keeps_strings (E:=E) (assign upd p).
Proof. apply ks_bind; [apply ks_load | intros; apply ks_store]. Qed.

Lemma ks_and_also (a b : M E bool) :
  keeps_strings a → keeps_strings b → keeps_strings (and_also a b).
Proof.
  intros Ha Hb. apply ks_bind; [done|]. intros x.
  apply ks_if; [done | apply ks_ret].
Qed.

Lemma ks_or_else (a b : M E bool) :
  keeps_strings a → keeps_strings b → keeps_strings (or_else a b).
Proof.
  intros Ha Hb. apply ks_bind; [done|]. intros x.
  apply ks_if; [apply ks_ret | done].
Qed.

Lemma ks_mm_free p : keeps_strings (E:=E) (mm_free p).
Proof.
  apply ks_bind; [apply ks_emit|]. intros _ w x w' Hr. by inversion Hr.
Qed.

Lemma ks_st_sprint_null msg : keeps_strings (E:=E) (st_sprint NULL msg).
Proof. apply ks_ret. Qed.

Lemma ks_st_empty s : keeps_strings (E:=E) (st_empty s).
Proof.
  unfold st_empty. destruct (s =? NULL); [apply ks_ret|].
  intros w x w' Hr. by inversion Hr.
Qed.

End KeepsStrings.

#[export] Hint Resolve ks_ret ks_call ks_observe ks_emit ks_raise ks_out_of_fuel ks_load
  ks_store ks_field ks_assign ks_mm_free ks_st_sprint_null ks_st_empty : keeps.

(** Goes through a computation built from the combinators, leaving the
    calls the hint base does not know. *)
Ltac ks_step :=
  first
    [ solve [auto 1 with keeps nocore]
    | apply ks_bind; [|intros ?]
    | apply ks_or_else
    | apply ks_and_also
    | apply ks_if
    | match goal with
      | |- keeps_strings (match ?x with _ => _ end) => destruct x
      end ].

Ltac ks_auto := repeat ks_step.

Section RelayFacts.

Context {E : Type} `{Platform E}.
Implicit Types (w : world E) (c : client_t) (p : ptr).

Lemma ks_client_status p : keeps_strings (E:=E) (client_status p).
Proof. unfold client_status. ks_auto. Qed.

Lemma ks_client_close p : keeps_strings (E:=E) (client_close p).
Proof.
  unfold client_close, tls_free, close, mm_cleanup, st_cleanup. ks_auto.
Qed.

Lemma ks_client_read_line p : keeps_strings (E:=E) (client_read_line p).
Proof. unfold client_read_line. ks_auto. Qed.

Lemma ks_client_write p data : keeps_strings (E:=E) (client_write p data).
Proof. unfold client_write. ks_auto. Qed.

Lemma ks_client_print p text : keeps_strings (E:=E) (client_print p text).
Proof. unfold client_print. ks_auto. Qed.

Lemma ks_line_char p i : keeps_strings (E:=E) (line_char p i).
Proof. unfold line_char. ks_auto. Qed.

Lemma ks_read_end fuel p :
  keeps_strings (E:=E) (check_smtp_client_read_end fuel p).
Proof.
  induction fuel as [|fuel IH]; simpl; [apply ks_out_of_fuel|].
  apply ks_bind; [apply ks_client_read_line|]. intros n.
  apply ks_if; [|apply ks_ret].
  apply ks_bind; [apply ks_line_char|]. intros ch.
  apply ks_if; [apply ks_ret | apply IH].
Qed.

Hint Resolve ks_client_status ks_client_close ks_client_read_line
  ks_client_write ks_client_print ks_line_char ks_read_end : keeps.

(** With a NULL message pointer the MAIL/RCPT/DATA and QUIT steps record
    nothing. *)
Lemma ks_mail_rcpt_data_null fuel p from to :
  keeps_strings (E:=E) (check_smtp_client_mail_rcpt_data fuel p from to NULL).
Proof. unfold check_smtp_client_mail_rcpt_data. cbv zeta. ks_auto. Qed.

Lemma ks_quit_null p : keeps_strings (E:=E) (check_smtp_client_quit p NULL).
Proof. unfold check_smtp_client_quit. ks_auto. Qed.

Hint Resolve ks_mail_rcpt_data_null ks_quit_null : keeps.

(** C8.  What the relay part of check_smtp_network_auth_sthread records.
    The branch starts by assigning NULL to [errmsg], so when a step of the
    relay exchanges fails the driver does return false, but the message
    goes to the NULL pointer: whatever the outcome, every message buffer,
    the caller's included, holds what it held before. *)
Theorem auth_relay_records_no_message fuel client errmsg w b w' :
  auth_sthread_relay fuel client errmsg w = Ok b w' →
  w_strings w' = w_strings w.
Proof.
  revert w b w'. change (keeps_strings (auth_sthread_relay fuel client errmsg)).
  unfold auth_sthread_relay. cbv zeta. ks_auto.
Qed.

End RelayFacts.

(** C8, an instance of the theorem: the server accepts the message of the
    unauthenticated sender (250 where 550 is due), the step fails, and the
    caller's buffer is as empty as before. *)
Lemma auth_relay_records_no_message_witness :
  ∃ w', auth_sthread_relay 5 Script.session_at Script.errmsg_at
          (Script.world_with Script.plain_session
             (Script.with_incoming
                [Script.reply "250 OK"; Script.reply "250 OK";
                 Script.reply "354 Go ahead"; Script.reply "250 Accepted"]
                Script.quiet)) = Ok false w' ∧
        w_strings w' !! Script.errmsg_at = Some "".
Proof.
  assert (Hrun : ∃ w', auth_sthread_relay 5 Script.session_at Script.errmsg_at
                         (Script.world_with Script.plain_session
                            (Script.with_incoming
                               [Script.reply "250 OK"; Script.reply "250 OK";
                                Script.reply "354 Go ahead";
                                Script.reply "250 Accepted"]
                               Script.quiet)) = Ok false w')
    by (eexists; vm_compute; reflexivity).
  destruct Hrun as [w' Hr]. exists w'. split; [exact Hr|].
  rewrite (auth_relay_records_no_message _ _ _ _ _ _ Hr). reflexivity.
Defined.

(** C8, the run itself: the whole scenario against a server that lets the
    unauthenticated sender relay.  The driver returns false, every resource
    is released, and the buffer the caller supplied is still empty. *)
Lemma auth_sthread_relay_failure_leaves_errmsg_empty :
  ∃ w', check_smtp_network_auth_sthread 5 Script.errmsg_at 25 false
          (Script.empty_world
             (Script.with_incoming
                [Script.reply "220 mail.example.com ESMTP Magma";
                 Script.reply "250-mail.example.com";
                 Script.reply "250 AUTH PLAIN LOGIN";
                 Script.reply "535 Authentication failed";
                 Script.reply "235 Authenticated";
                 Script.reply "250 OK"; Script.reply "250 OK";
                 Script.reply "354 Go ahead"; Script.reply "250 Accepted"]
                Script.accepting)) = Ok false w' ∧
        w_strings w' !! Script.errmsg_at = Some "" ∧
        replay [] (w_trace w') = Some [].
Proof.
  eexists. split; [vm_compute; reflexivity|].
  split; vm_compute; reflexivity.
Qed.

(** For comparison, a failure before the relay exchanges is described in
    the caller's buffer. *)
Lemma auth_sthread_earlier_failure_is_described :
  ∃ w', check_smtp_network_auth_sthread 5 Script.errmsg_at 25 false
          (Script.empty_world
             (Script.with_incoming
                [Script.reply "220 mail.example.com ESMTP Magma";
                 Script.reply "250 AUTH PLAIN LOGIN";
                 Script.reply "535 Authentication failed";
                 Script.reply "535 Authentication failed"]
                Script.accepting)) = Ok false w' ∧
        w_strings w' !! Script.errmsg_at
          = Some "Failed to authenticate even though we supplied valid credentials.".
Proof.
  eexists. split; [vm_compute; reflexivity|]. vm_compute. reflexivity.
Qed.

(** * Further properties *)

(** ** Counting acquisitions and releases *)

Lemma outstanding_app r l1 l2 :
  outstanding r (l1 ++ l2)%list = outstanding r l1 + outstanding r l2.
Proof.
  unfold outstanding. induction l1 as [|[x|x] l1 IH]; simpl in *; lia.
Qed.

Lemma outstanding_nil r : outstanding r [] = 0.
Proof. reflexivity. Qed.

Lemma outstanding_acquire r x log :
  outstanding r (Acquire x :: log) =
    (if resource_eqb r x then 1 else 0) + outstanding r log.
Proof. unfold outstanding. simpl. destruct (resource_eqb r x); lia. Qed.

Lemma outstanding_release r x log :
  outstanding r (Release x :: log) =
    outstanding r log - (if resource_eqb r x then 1 else 0).
Proof. unfold outstanding. simpl. destruct (resource_eqb r x); lia. Qed.

Lemma outstanding_refused_attempts r fds :
  outstanding r (refused_attempts fds) = 0.
Proof.
  induction fds as [|sd fds IH]; [reflexivity|].
  change (refused_attempts (sd :: fds))
    with (Acquire (RFd sd) :: Release (RFd sd) :: refused_attempts fds).
  rewrite outstanding_acquire, outstanding_release, IH. lia.
Qed.

Ltac out_norm :=
  repeat (cbn [app];
          first [ rewrite outstanding_acquire
                | rewrite outstanding_release
                | rewrite outstanding_app
                | rewrite outstanding_nil ]).

(** ** client_connect on every path *)

Section ConnectPaths.

Context {E : Type} `{Platform E}.
Implicit Types (w : world E) (c : client_t) (p : ptr).

Lemma connect_loop_log holder sd0 r0 ip0 w :
  holder ≠ [] ∨ r0 ≠ 0 →
  ∃ res w' log,
    connect_loop holder sd0 r0 ip0 w = Ok res w' ∧
    w_trace w' = (w_trace w ++ log)%list ∧
    w_strings w' = w_strings w ∧
    loop_holds res ip0 log.
Proof.
  revert sd0 r0 w. induction holder as [|h next IH]; intros sd0 r0 w Hne.
  - destruct Hne as [|Hr]; [done|].
    exists (Some (sd0, r0, ip0)), w, []. simpl.
    apply is_set_true in Hr. rewrite Hr. unfold ret. by rewrite app_nil_r.
  - simpl. unfold os_socket. msimpl.
    set (s := socket (ai_family h) (ai_socktype h) (ai_protocol h) (w_env w)).
    destruct (fst s =? -1) eqn:Hs.
    + msimpl. rewrite Hs. unfold freeaddrinfo. msimpl.
      eexists None, _, [Release RAddrinfo]. split; [reflexivity|].
      split; [reflexivity|]. split; [reflexivity|].
      intros r. rewrite outstanding_release, outstanding_nil. lia.
    + msimpl. rewrite Hs. msimpl.
      match goal with
      | |- context [connect ?a ?b ?c ?e] => set (r := connect a b c e)
      end.
      destruct (is_set (fst r)) eqn:Hr; cbn [negb].
      * unfold close. msimpl.
        match goal with
        | |- context [connect_loop next ?a ?b ?c ?w1] =>
            destruct (IH a b w1) as (res & w' & log & Hrun & Ht & Hst & Hh);
            [right; by apply is_set_true|]
        end.
        exists res, w', ([Acquire (RFd (fst s)); Release (RFd (fst s))] ++ log)%list.
        split; [done|]. split; [rewrite Ht; simpl; by rewrite <- !app_assoc|].
        split; [by rewrite Hst|].
        destruct res as [[[sd ret_] ip_]|]; simpl in *.
        -- destruct (is_set ret_).
           ++ destruct Hh as [-> Hh]. split; [done|]. intros x.
              cbn [app].
              rewrite outstanding_acquire, outstanding_release, Hh. lia.
           ++ destruct Hh as [Hsd Hh]. split; [done|]. intros x.
              cbn [app].
              rewrite outstanding_acquire, outstanding_release, Hh. lia.
        -- intros x. cbn [app].
           rewrite outstanding_acquire, outstanding_release, Hh. lia.
      * assert (Hsd : fst s ≠ -1) by (by apply Z.eqb_neq).
        unfold mm_alloc_ip, write_ip, mm_free, bind, call, emit, ret. simpl.
        set (q := fst (mm_alloc sizeof_ip_t (snd r))).
        assert (Hqq : (q =? NULL) = negb (is_set q))
          by (unfold is_set, NULL; by rewrite negb_involutive).
        rewrite Hqq. destruct (is_set q) eqn:Hq'; simpl; rewrite Hq'; simpl.
        2:{ eexists _, _, [Acquire (RFd (fst s))].
            split; [reflexivity|]. split; [reflexivity|]. split; [reflexivity|].
            simpl. rewrite Hr. split; [done|]. intros x.
            rewrite outstanding_acquire, outstanding_nil, Hq'. simpl. lia. }
        repeat mcase; simpl;
          (eexists _, _, _; split; [reflexivity|];
           split; [simpl; rewrite <- ?app_assoc; reflexivity|];
           split; [reflexivity|]; simpl; rewrite Hr; split; [done|]; intros x;
           cbn [app];
           rewrite ?outstanding_acquire, ?outstanding_release, ?outstanding_nil,
             ?Hq'; simpl; repeat mcase; lia).
Qed.



Lemma mm_cleanup_run q w :
  ∃ w', mm_cleanup q w = Ok tt w' ∧
    w_trace w' =
      (w_trace w ++ (if is_set q then [Release (RMem q)] else []))%list ∧
    w_strings w' = w_strings w.
Proof.
  unfold mm_cleanup, is_set, NULL. destruct (q =? 0); simpl.
  - exists w. unfold ret. by rewrite app_nil_r.
  - eexists. split; [reflexivity|]. by split.
Qed.

Lemma eqb_NULL_is_set q : (q =? NULL) = negb (is_set q).
Proof. unfold is_set, NULL. by rewrite negb_involutive. Qed.

Lemma connect_cleanup_run res ip_ sd w :
  ∃ w',
    (mm_cleanup res ;;; mm_cleanup ip_ ;;; emit (Release (RFd sd)) ;;; ret NULL) w
      = Ok NULL w' ∧
    w_trace w' =
      (w_trace w ++ (if is_set res then [Release (RMem res)] else []) ++
       (if is_set ip_ then [Release (RMem ip_)] else []) ++
       [Release (RFd sd)])%list ∧
    w_strings w' = w_strings w.
Proof.
  destruct (mm_cleanup_run res w) as (w1 & Hr1 & Ht1 & Hs1).
  destruct (mm_cleanup_run ip_ w1) as (w2 & Hr2 & Ht2 & Hs2).
  rewrite (bind_Ok _ _ _ _ _ Hr1), (bind_Ok _ _ _ _ _ Hr2). msimpl.
  eexists. split; [reflexivity|]. simpl.
  split; [rewrite Ht2, Ht1; by rewrite <- !app_assoc | congruence].
Qed.

Lemma mm_alloc_client_run w :
  mm_alloc_client w =
    let a := mm_alloc sizeof_client_t (w_env w) in
    if is_set (fst a) then
      Ok (fst a)
        (set_clients (<[fst a := zeroed_client]> (w_clients w))
           (set_trace (w_trace w ++ [Acquire (RMem (fst a))])
              (set_env (snd a) w)))
    else Ok (fst a) (set_env (snd a) w).
Proof.
  unfold mm_alloc_client. msimpl. cbv zeta. rewrite eqb_NULL_is_set.
  by destruct (is_set _).
Qed.

Lemma st_alloc_buf_run n w :
  st_alloc_buf n w =
    let a := st_alloc n (w_env w) in
    Ok (fst a)
      (if is_set (fst a) then
         set_trace (w_trace w ++ [Acquire (RStr (fst a))]) (set_env (snd a) w)
       else set_env (snd a) w).
Proof.
  unfold st_alloc_buf. msimpl. cbv zeta. rewrite eqb_NULL_is_set.
  by destruct (is_set _).
Qed.

Lemma client_connect_paths host port w :
  ∃ p w' log,
    client_connect host port w = Ok p w' ∧
    w_trace w' = (w_trace w ++ log)%list ∧
    w_strings w' = w_strings w ∧
    if is_set p then
      ∃ sd ip_ b,
        sd ≠ -1 ∧ b ≠ NULL ∧
        live p (Client sd NULL 1 ip_ b line_flags "") w' ∧
        ∀ r, outstanding r
               (log ++ releases p (Client sd NULL 1 ip_ b line_flags ""))%list = 0
    else
      ∀ r, outstanding r log ≤ 0 ∧
           match r with RFd _ => True | _ => outstanding r log = 0 end.
Proof.
  unfold client_connect, os_getaddrinfo. msimpl.
  destruct (getaddrinfo host (service_of port) (w_env w)) as [[ret_ info] e1].
  cbn [fst snd]. destruct info as [|first rest].
  { msimpl. cbv beta iota. exists NULL, (set_env e1 w), []. 
    split; [reflexivity|]. split; [simpl; by rewrite app_nil_r|].
    split; [reflexivity|]. simpl. intros r. rewrite outstanding_nil.
    split; [lia|]. by destruct r. }
  msimpl. cbv beta iota.
  destruct (is_set ret_ || negb (ai_socktype first =? SOCK_STREAM)) eqn:Hbad.
  { unfold freeaddrinfo. msimpl.
    eexists NULL, _, [Acquire RAddrinfo; Release RAddrinfo].
    split; [reflexivity|]. split; [simpl; by rewrite <- app_assoc|].
    split; [reflexivity|]. simpl. intros r.
    rewrite outstanding_acquire, outstanding_release, outstanding_nil.
    split; [lia|]. destruct r; lia. }
  match goal with
  | |- context [bind (connect_loop ?l ?a ?b ?c) _ ?w1] =>
      destruct (connect_loop_log l a b c w1 ltac:(by left))
        as (res & w2 & log & Hrun & Ht & Hst & Hh)
  end.
  rewrite (bind_Ok _ _ _ _ _ Hrun). simpl in Ht, Hst.
  destruct res as [[[sd r] ip_]|]; simpl in Hh.
  2:{ exists NULL, w2, ([Acquire RAddrinfo] ++ log)%list.
      split; [reflexivity|]. split; [rewrite Ht; by rewrite <- app_assoc|].
      split; [done|]. simpl. intros x.
      rewrite outstanding_acquire, Hh. split; [lia|]. destruct x; lia. }
  unfold freeaddrinfo, close. msimpl.
  destruct (is_set r) eqn:Hr.
  { destruct Hh as [-> Hh]. msimpl.
    eexists NULL, _,
      ([Acquire RAddrinfo] ++ log ++ [Release RAddrinfo; Release (RFd sd)])%list.
    split; [reflexivity|].
    split; [simpl; rewrite Ht; by rewrite <- !app_assoc|].
    split; [done|]. simpl. intros x.
    rewrite outstanding_acquire, outstanding_app, Hh, !outstanding_release,
      outstanding_nil.
    split; [destruct (resource_eqb x RAddrinfo), (resource_eqb x (RFd sd)); lia|].
    destruct x; simpl; try done; destruct (resource_eqb _ _); lia. }
  destruct Hh as [Hsd Hh].
  rewrite bind_assoc || idtac.
  match goal with
  | |- context [bind mm_alloc_client _ ?w3] =>
      pose proof (mm_alloc_client_run w3) as Hp; cbv zeta in Hp;
      set (a := mm_alloc sizeof_client_t (w_env w3)) in *
  end.
  destruct (is_set (fst a)) eqn:Hset.
  2:{ rewrite (bind_Ok _ _ _ _ _ Hp). msimpl. rewrite Hset. cbn [negb]. msimpl.
      match goal with
      | |- context [bind (mm_cleanup ?x) _ ?w3] =>
          destruct (connect_cleanup_run x ip_ sd w3) as (w' & Hc & Htc & Hsc)
      end.
      exists NULL, w',
        ([Acquire RAddrinfo] ++ log ++ [Release RAddrinfo] ++
         (if is_set ip_ then [Release (RMem ip_)] else []) ++
         [Release (RFd sd)])%list.
      split; [exact Hc|].
      split; [rewrite Htc, Hset; simpl; rewrite Ht; by rewrite <- !app_assoc|].
      split; [rewrite Hsc; simpl; done|]. simpl. intros x.
      destruct (is_set ip_) eqn:Hip; out_norm; rewrite Hh, ?Hip; simpl;
        (split; [repeat mcase; lia|]);
        destruct x; simpl; try done; repeat mcase; lia. }
  rewrite (bind_Ok _ _ _ _ _ Hp). msimpl. rewrite Hset. cbn [negb].
  rewrite !bind_assoc.
  match goal with
  | |- context [bind (st_alloc_buf 8192) _ ?w4] =>
      pose proof (st_alloc_buf_run 8192 w4) as Hb; cbv zeta in Hb;
      set (b := st_alloc 8192 (w_env w4)) in *;
      assert (Hl4 : live (fst a) zeroed_client w4)
        by (split; [by apply is_set_true | apply lookup_insert_eq])
  end.
  rewrite (bind_Ok _ _ _ _ _ Hb).
  destruct (is_set (fst b)) eqn:Hbuf.
  2:{ msimpl. rewrite ?Hbuf. cbn [negb].
      match goal with
      | |- context [bind (mm_cleanup ?x) _ ?w3] =>
          destruct (connect_cleanup_run x ip_ sd w3) as (w' & Hc & Htc & Hsc)
      end.
      exists NULL, w',
        ([Acquire RAddrinfo] ++ log ++
         [Release RAddrinfo; Acquire (RMem (fst a)); Release (RMem (fst a))] ++
         (if is_set ip_ then [Release (RMem ip_)] else []) ++
         [Release (RFd sd)])%list.
      split; [exact Hc|].
      split; [rewrite Htc, Hset; simpl; rewrite Ht; by rewrite <- !app_assoc|].
      split; [rewrite Hsc; simpl; done|]. simpl. intros x.
      destruct (is_set ip_) eqn:Hip; out_norm; rewrite Hh, ?Hip; simpl;
        (split; [repeat mcase; lia|]);
        destruct x; simpl; try done; repeat mcase; lia. }
  msimpl. rewrite ?Hbuf. cbn [negb]. msimpl.
  eexists (fst a), _,
    ([Acquire RAddrinfo] ++ log ++
     [Release RAddrinfo; Acquire (RMem (fst a)); Acquire (RStr (fst b))])%list.
  split; [reflexivity|].
  split; [simpl; rewrite Ht; by rewrite <- !app_assoc|].
  split; [simpl; done|]. rewrite Hset.
  exists sd, ip_, (fst b).
  split; [done|]. split; [by apply is_set_true|].
  split; [split; [by apply is_set_true | simpl; apply lookup_insert_eq]|].
  intros x. unfold releases. cbn [tls sockd ip buffer]. 
  change (is_set NULL) with false.
  apply Z.eqb_neq in Hsd as Hsd'. rewrite Hsd', Hbuf.
  destruct (is_set ip_) eqn:Hip; out_norm; rewrite Hh, ?Hip; simpl;
    repeat mcase; lia.
Qed.


(** X1.  client_connect always returns, whatever the resolver, the socket
    calls and the allocator answer.  When it returns NULL nothing it
    acquired is left unreleased: the address list and every memory block
    are released exactly as often as they were acquired, and no descriptor
    is left open. *)
Theorem client_connect_failure_releases_everything host port w :
  ∃ p w' log,
    client_connect host port w = Ok p w' ∧
    w_trace w' = (w_trace w ++ log)%list ∧
    (p = NULL →
     ∀ r, outstanding r log ≤ 0 ∧
          match r with RFd _ => True | _ => outstanding r log = 0 end).
Proof.
  destruct (client_connect_paths host port w) as (p & w' & log & Hr & Ht & _ & Hp).
  exists p, w', log. split; [done|]. split; [done|].
  intros ->. exact Hp.
Qed.

(** X2.  A session client_connect hands out is live, has status 1, no TLS
    overlay, a valid descriptor, an allocated buffer and the placer flags
    set; and what the call acquired and did not release is exactly what
    client_close will release for that session. *)
Theorem client_connect_success_session host port w p w' :
  client_connect host port w = Ok p w' → p ≠ NULL →
  ∃ c log,
    live p c w' ∧ status c = 1 ∧ tls c = NULL ∧ sockd c ≠ -1 ∧
    buffer c ≠ NULL ∧ line_opts c = line_flags ∧
    w_trace w' = (w_trace w ++ log)%list ∧
    ∀ r, outstanding r (log ++ releases p c)%list = 0.
Proof.
  intros Hrun Hp.
  destruct (client_connect_paths host port w) as (p' & w'' & log & Hr & Ht & _ & Hc).
  rewrite Hrun in Hr. injection Hr as <- <-.
  apply is_set_true in Hp. rewrite Hp in Hc.
  destruct Hc as (sd & ip_ & b & Hsd & Hb & Hl & Hout).
  eexists _, log. split; [exact Hl|]. by repeat (split; [done|]).
Qed.

(** X3.  Connecting and then closing balances: after client_close of a
    freshly connected session, every resource acquired since before the
    connect has been released exactly as often as it was acquired, and the
    session block is gone. *)
Theorem connect_then_close_balanced host port w p w1 :
  client_connect host port w = Ok p w1 → p ≠ NULL →
  (∀ c, live p c w1 → ip c ≠ p) →
  ∃ w2 log,
    client_close p w1 = Ok tt w2 ∧
    w_trace w2 = (w_trace w ++ log)%list ∧
    (∀ r, outstanding r log = 0) ∧
    w_clients w2 !! p = None.
Proof.
  intros Hrun Hp Hfresh.
  destruct (client_connect_paths host port w) as (p' & w'' & log & Hr & Ht & _ & Hc).
  rewrite Hrun in Hr. injection Hr as <- <-.
  apply is_set_true in Hp. rewrite Hp in Hc.
  destruct Hc as (sd & ip_ & b & Hsd & Hb & Hl & Hout).
  destruct (client_close_live _ _ _ Hl (Hfresh _ Hl)) as (w2 & Hcl & Ht2 & Hgone & _).
  exists w2, (log ++ releases p (Client sd NULL 1 ip_ b line_flags ""))%list.
  split; [done|]. split; [rewrite Ht2, Ht; by rewrite <- app_assoc|].
  by split.
Qed.

(** X4.  Right after a successful connect, client_status consults the TCP
    probe only: it returns 1 when the probe reports nothing and -1
    otherwise, never 0 or 2. *)
Theorem fresh_session_status host port w p w1 :
  client_connect host port w = Ok p w1 → p ≠ NULL →
  ∃ c r w2,
    live p c w1 ∧ client_status p w1 = Ok r w2 ∧
    r = if is_set (fst (tcp_status (sockd c) (w_env w1))) then -1 else 1.
Proof.
  intros Hrun Hp.
  destruct (client_connect_paths host port w) as (p' & w'' & log & Hr & Ht & _ & Hc).
  rewrite Hrun in Hr. injection Hr as <- <-.
  apply is_set_true in Hp. rewrite Hp in Hc.
  destruct Hc as (sd & ip_ & b & Hsd & Hb & Hl & Hout).
  exists (Client sd NULL 1 ip_ b line_flags "").
  rewrite (client_status_live _ _ _ Hl).
  unfold status_outcome, tcp_branch. cbn [tls sockd status].
  change (is_set NULL) with false. cbn [andb].
  apply Z.eqb_neq in Hsd. rewrite Hsd. cbn [negb andb].
  change (1 >=? 0) with true. cbv iota.
  destruct (is_set (fst (tcp_status sd (w_env w1)))) eqn:Hprobe;
    eexists _, _; (split; [exact Hl|]); split; reflexivity.
Qed.

End ConnectPaths.

(** X2, X3 and X4 on the scripted platform with one accepting candidate. *)
Lemma script_connect_accepting :
  ∃ w1, client_connect "localhost" 25 (Script.empty_world Script.accepting)
          = Ok 4160 w1 ∧
        ∀ c, live 4160 c w1 → ip c ≠ 4160.
Proof.
  eexists. split; [vm_compute; reflexivity|].
  intros c [_ Hc]. vm_compute in Hc. injection Hc as <-. vm_compute. discriminate.
Qed.

Lemma client_connect_success_session_witness :
  ∃ w' c log,
    client_connect "localhost" 25 (Script.empty_world Script.accepting)
      = Ok 4160 w' ∧
    live 4160 c w' ∧ status c = 1 ∧ tls c = NULL ∧ sockd c ≠ -1 ∧
    buffer c ≠ NULL ∧ line_opts c = line_flags ∧
    w_trace w' = (w_trace (Script.empty_world Script.accepting) ++ log)%list ∧
    ∀ r, outstanding r (log ++ releases 4160 c)%list = 0.
Proof.
  destruct script_connect_accepting as (w1 & Hrun & _).
  destruct (client_connect_success_session _ _ _ _ _ Hrun
              ltac:(vm_compute; discriminate)) as (c & log & Hc).
  exists w1, c, log. split; [exact Hrun | exact Hc].
Defined.

Lemma connect_then_close_balanced_witness :
  ∃ w1 w2 log,
    client_connect "localhost" 25 (Script.empty_world Script.accepting)
      = Ok 4160 w1 ∧
    client_close 4160 w1 = Ok tt w2 ∧
    w_trace w2 = (w_trace (Script.empty_world Script.accepting) ++ log)%list ∧
    (∀ r, outstanding r log = 0) ∧
    w_clients w2 !! 4160 = None.
Proof.
  destruct script_connect_accepting as (w1 & Hrun & Hfresh).
  destruct (connect_then_close_balanced _ _ _ _ _ Hrun
              ltac:(vm_compute; discriminate) Hfresh) as (w2 & log & Hc).
  exists w1, w2, log. split; [exact Hrun | exact Hc].
Defined.

Lemma fresh_session_status_witness :
  ∃ w1 c r w2,
    client_connect "localhost" 25 (Script.empty_world Script.accepting)
      = Ok 4160 w1 ∧
    live 4160 c w1 ∧ client_status 4160 w1 = Ok r w2 ∧
    r = if is_set (fst (tcp_status (sockd c) (w_env w1))) then -1 else 1.
Proof.
  destruct script_connect_accepting as (w1 & Hrun & _).
  destruct (fresh_session_status _ _ _ _ _ Hrun
              ltac:(vm_compute; discriminate)) as (c & r & w2 & Hc).
  exists w1, c, r, w2. split; [exact Hrun | exact Hc].
Defined.

(** ** Steps that leave the resources alone *)

#[export] Hint Resolve ks_client_status ks_client_close ks_client_read_line
  ks_client_write ks_client_print ks_line_char ks_read_end : keeps.

Create HintDb resources.

Section KeepsResources.

Context {E : Type} `{Platform E}.
Implicit Types (w : world E) (c : client_t) (p : ptr).

Lemma kr_ret {A} (a : A) : keeps_resources (E:=E) (ret a).
Proof. intros w x w' Hr. by inversion Hr. Qed.

Lemma kr_bind {A B} (m : M E A) (k : A → M E B) :
  keeps_resources m → (∀ a, keeps_resources (k a)) →
  keeps_resources (bind m k).
Proof.
  intros Hm Hk w b w' Hb. apply bind_Ok_inv in Hb as (a & w1 & Ha & Hb).
  destruct (Hm _ _ _ Ha) as [Ht1 Hd1]. destruct (Hk _ _ _ _ Hb) as [Ht2 Hd2].
  split; [congruence|]. intros q. by rewrite Hd2, Hd1.
Qed.

Lemma kr_if {A} (b : bool) (x y : M E A) :
  keeps_resources x → keeps_resources y →
  keeps_resources (if b then x else y).
Proof. by destruct b. Qed.

Lemma kr_call {A} (f : E → A * E) : keeps_resources (call f).
Proof. intros w x w' Hr. by inversion Hr. Qed.

Lemma kr_observe {A} (f : E → A) : keeps_resources (observe f).
Proof. intros w x w' Hr. by inversion Hr. Qed.

Lemma kr_raise {A} f : keeps_resources (E:=E) (A:=A) (raise f).
Proof. by intros w x w' Hr. Qed.

Lemma kr_out_of_fuel {A} : keeps_resources (E:=E) (A:=A) out_of_fuel.
Proof. by intros w x w' Hr. Qed.

Lemma kr_load p : keeps_resources (E:=E) (load p).
Proof. intros w x w' Hr. by apply load_Ok_inv in Hr as [-> _]. Qed.

Lemma kr_store p c : keeps_resources (E:=E) (store p c).
Proof.
  intros w x w'. unfold store. destruct (p =? NULL); [done|].
  destruct (w_clients w !! p) as [c0|] eqn:Hc; [|done].
  intros Hr. inversion Hr; subst. split; [done|]. intros q. simpl.
  rewrite lookup_insert. case_decide; [subst q|done].
  split; intros _; [exists c0; exact Hc | by exists c].
Qed.

Lemma kr_field {A} (f : client_t → A) p : keeps_resources (E:=E) (field f p).
Proof. apply kr_bind; [apply kr_load | intros; apply kr_ret]. Qed.

Lemma kr_assign upd p : keeps_resources (E:=E) (assign upd p).
Proof. apply kr_bind; [apply kr_load | intros; apply kr_store]. Qed.

Lemma kr_and_also (a b : M E bool) :
  keeps_resources a → keeps_resources b → keeps_resources (and_also a b).
Proof.
  intros Ha Hb. apply kr_bind; [done|]. intros x.
  apply kr_if; [done | apply kr_ret].
Qed.

Lemma kr_or_else (a b : M E bool) :
  keeps_resources a → keeps_resources b → keeps_resources (or_else a b).
Proof.
  intros Ha Hb. apply kr_bind; [done|]. intros x.
  apply kr_if; [apply kr_ret | done].
Qed.

Lemma kr_st_sprint dest msg : keeps_resources (E:=E) (st_sprint dest msg).
Proof.
  unfold st_sprint. destruct (dest =? NULL); [apply kr_ret|].
  intros w x w' Hr. by inversion Hr.
Qed.

Lemma kr_st_empty s : keeps_resources (E:=E) (st_empty s).
Proof.
  unfold st_empty. destruct (s =? NULL); [apply kr_ret|].
  intros w x w' Hr. by inversion Hr.
Qed.

End KeepsResources.

#[export] Hint Resolve kr_ret kr_call kr_observe kr_raise kr_out_of_fuel kr_load kr_store
  kr_field kr_assign kr_st_sprint kr_st_empty : resources.

Ltac kr_step :=
  first
    [ solve [auto 1 with resources nocore]
    | apply kr_bind; [|intros ?]
    | apply kr_or_else
    | apply kr_and_also
    | apply kr_if
    | match goal with
      | |- keeps_resources (match ?x with _ => _ end) => destruct x
      end ].

Ltac kr_auto := repeat kr_step.

Section StepsKeepResources.

Context {E : Type} `{Platform E}.
Implicit Types (w : world E) (c : client_t) (p : ptr).

Lemma kr_client_status p : keeps_resources (E:=E) (client_status p).
Proof. unfold client_status. kr_auto. Qed.

Lemma kr_client_read_line p : keeps_resources (E:=E) (client_read_line p).
Proof. unfold client_read_line. kr_auto. Qed.

Lemma kr_client_write p data : keeps_resources (E:=E) (client_write p data).
Proof. unfold client_write. kr_auto. Qed.

Lemma kr_client_print p text : keeps_resources (E:=E) (client_print p text).
Proof. unfold client_print. kr_auto. Qed.

Lemma kr_line_char p i : keeps_resources (E:=E) (line_char p i).
Proof. unfold line_char. kr_auto. Qed.

Lemma kr_read_end fuel p :
  keeps_resources (E:=E) (check_smtp_client_read_end fuel p).
Proof.
  induction fuel as [|fuel IH]; simpl; [apply kr_out_of_fuel|].
  apply kr_bind; [apply kr_client_read_line|]. intros n.
  apply kr_if; [|apply kr_ret].
  apply kr_bind; [apply kr_line_char|]. intros ch.
  apply kr_if; [apply kr_ret | apply IH].
Qed.

Hint Resolve kr_client_status kr_client_read_line kr_client_write
  kr_client_print kr_line_char kr_read_end : resources.

Lemma kr_mail_rcpt_data fuel p from to errmsg :
  keeps_resources (E:=E) (check_smtp_client_mail_rcpt_data fuel p from to errmsg).
Proof. unfold check_smtp_client_mail_rcpt_data. cbv zeta. kr_auto. Qed.

Lemma kr_auth_plain fuel p auth :
  keeps_resources (E:=E) (check_smtp_client_auth_plain fuel p auth).
Proof. unfold check_smtp_client_auth_plain. kr_auto. Qed.

Lemma kr_auth_login fuel p user pass :
  keeps_resources (E:=E) (check_smtp_client_auth_login fuel p user pass).
Proof. unfold check_smtp_client_auth_login. kr_auto. Qed.

Lemma kr_quit p errmsg : keeps_resources (E:=E) (check_smtp_client_quit p errmsg).
Proof. unfold check_smtp_client_quit. kr_auto. Qed.

Lemma ks_auth_plain fuel p auth :
  keeps_strings (E:=E) (check_smtp_client_auth_plain fuel p auth).
Proof. unfold check_smtp_client_auth_plain. ks_auto. Qed.

Lemma ks_auth_login fuel p user pass :
  keeps_strings (E:=E) (check_smtp_client_auth_login fuel p user pass).
Proof. unfold check_smtp_client_auth_login. ks_auto. Qed.

Lemma ks_client_secure p : keeps_strings (E:=E) (client_secure p).
Proof. unfold client_secure, tls_alloc. ks_auto. Qed.

Lemma ks_client_connect host port : keeps_strings (E:=E) (client_connect host port).
Proof.
  intros w p w' Hrun.
  destruct (client_connect_paths host port w) as (p' & w'' & log & Hr & _ & Hs & _).
  rewrite Hrun in Hr. by injection Hr as <- <-.
Qed.

(** X8.  The exchange steps leave the session to their caller: whether
    they succeed or fail, the end-of-response reader, the MAIL/RCPT/DATA
    step, both AUTH steps and the QUIT step acquire and release nothing,
    and a session that was live before is live after. *)
Theorem exchange_steps_leave_session_open fuel p c w errmsg from to auth user pass :
  live p c w →
  ∀ step : M E bool,
    In step [check_smtp_client_read_end fuel p;
             check_smtp_client_mail_rcpt_data fuel p from to errmsg;
             check_smtp_client_auth_plain fuel p auth;
             check_smtp_client_auth_login fuel p user pass;
             check_smtp_client_quit p errmsg] →
    ∀ b w', step w = Ok b w' →
      w_trace w' = w_trace w ∧ ∃ c', live p c' w'.
Proof.
  intros [Hp Hc] step Hin b w' Hrun.
  assert (Hk : keeps_resources step).
  { simpl in Hin.
    destruct Hin as [<-|[<-|[<-|[<-|[<-|[]]]]]];
      auto using kr_read_end, kr_mail_rcpt_data, kr_auth_plain, kr_auth_login,
        kr_quit. }
  destruct (Hk _ _ _ Hrun) as [Ht Hd]. split; [done|].
  assert (Hs : is_Some (w_clients w' !! p)) by (apply Hd; by exists c).
  destruct Hs as [c' Hc']. by exists c'.
Qed.

End StepsKeepResources.

#[export] Hint Resolve kr_client_status kr_client_read_line kr_client_write
  kr_client_print kr_line_char kr_read_end kr_mail_rcpt_data kr_auth_plain
  kr_auth_login kr_quit : resources.
#[export] Hint Resolve ks_auth_plain ks_auth_login ks_client_secure
  ks_client_connect ks_mail_rcpt_data_null ks_quit_null : keeps.

(** ** Steps that report through the message buffer *)

Section Reports.

Context {E : Type} `{Platform E}.
Implicit Types (w : world E) (c : client_t) (p : ptr).

Lemma reports_bind {A} msgs errmsg (m : M E A) (k : A → M E bool) :
  keeps_strings m → (∀ a, reports msgs errmsg (k a)) →
  reports msgs errmsg (bind m k).
Proof.
  intros Hm Hk w b w' Hb. apply bind_Ok_inv in Hb as (a & w1 & Ha & Hb).
  pose proof (Hk _ _ _ _ Hb) as Hrep. rewrite (Hm _ _ _ Ha) in Hrep. exact Hrep.
Qed.

Lemma reports_if msgs errmsg (b : bool) (x y : M E bool) :
  reports msgs errmsg x → reports msgs errmsg y →
  reports msgs errmsg (if b then x else y).
Proof. by destruct b. Qed.

Lemma reports_ret_true msgs errmsg : reports (E:=E) msgs errmsg (ret true).
Proof. intros w b w' Hr. by inversion Hr. Qed.

Lemma reports_fail msgs errmsg msg :
  errmsg ≠ NULL → In msg msgs →
  reports (E:=E) msgs errmsg (st_sprint errmsg msg ;;; ret false).
Proof.
  intros Hne Hin w b w' Hb.
  unfold st_sprint in Hb. apply Z.eqb_neq in Hne. rewrite Hne in Hb.
  apply bind_Ok_inv in Hb as (? & w1 & Hs & Hb). inversion Hs; subst.
  inversion Hb; subst. by exists msg.
Qed.

Lemma close_then_ret_strings client (r : bool) w b w' :
  (client_close client ;;; ret r) w = Ok b w' →
  b = r ∧ w_strings w' = w_strings w.
Proof.
  intros Hb. apply bind_Ok_inv in Hb as (? & w1 & Hc & Hb).
  inversion Hb; subst. split; [done|]. by apply (ks_client_close _ _ _ _ Hc).
Qed.

Lemma reports_quit p errmsg :
  errmsg ≠ NULL →
  reports quit_messages errmsg (check_smtp_client_quit p errmsg).
Proof.
  intros Hne. unfold check_smtp_client_quit.
  apply reports_bind; [ks_auto|]. intros failed.
  apply reports_if; [apply reports_fail; [done | simpl; tauto]|].
  apply reports_bind; [ks_auto|]. intros n.
  apply reports_if;
    [apply reports_fail; [done | simpl; tauto] | apply reports_ret_true].
Qed.

End Reports.

(** ** Exchanges *)

Section ExchangeFacts.

Context {E : Type} `{Platform E}.
Implicit Types (w : world E) (c : command) (p : ptr).

Lemma or_else_true (a b : M E bool) w w1 :
  a w = Ok true w1 → or_else a b w = Ok true w1.
Proof. intros Ha. unfold or_else. by rewrite (bind_Ok _ _ _ _ _ Ha). Qed.

Lemma or_else_inv (a b : M E bool) w r w' :
  or_else a b w = Ok r w' →
  (a w = Ok true w' ∧ r = true) ∨ (∃ w1, a w = Ok false w1 ∧ b w1 = Ok r w').
Proof.
  unfold or_else. intros Hb. apply bind_Ok_inv in Hb as (x & w1 & Ha & Hb).
  destruct x.
  - injection Hb as <- <-. by left.
  - right. by exists w1.
Qed.

Lemma gtb_leb n : (n >? 0) = negb (n <=? 0).
Proof. unfold Z.gtb, Z.leb. by destruct (n ?= 0). Qed.

Lemma reply_fails_inv fuel p f w r w' :
  reply_fails fuel p f w = Ok r w' → reply_read fuel p f w (negb r) w'.
Proof.
  destruct f; simpl; intros Hb; apply test_Ok_inv in Hb as (x & Hx & <-).
  - exists x. split; [done|]. symmetry. apply gtb_leb.
  - by rewrite negb_involutive.
Qed.

Lemma reply_fails_run fuel p f w got w' :
  reply_read fuel p f w got w' → reply_fails fuel p f w = Ok (negb got) w'.
Proof.
  destruct f; simpl.
  - intros (n & Hr & ->). rewrite (bind_Ok _ _ _ _ _ Hr).
    unfold ret. by rewrite gtb_leb, negb_involutive.
  - intros Hr. by rewrite (bind_Ok _ _ _ _ _ Hr).
Qed.

(** What the failure test of an exchange comes to. *)
Lemma exchange_fails_inv fuel p c w b w' :
  exchange_fails fuel p c w = Ok b w' →
  if b then ∃ why, refused fuel p c why w w' else accepted fuel p c w w'.
Proof.
  unfold exchange_fails. intros Hrun.
  apply or_else_inv in Hrun as [[Hrun ->]|(w3 & Hrun & Hd)].
  - apply or_else_inv in Hrun as [[Hrun _]|(w2 & Hrun & Hc)].
    + apply or_else_inv in Hrun as [[Ha _]|(w1 & Ha & Hb)].
      * apply test_Ok_inv in Ha as (n & Hs & Hn).
        exists ShortWrite, n, w'. split; [done|]. split; [|done].
        by apply negb_true_iff.
      * apply test_Ok_inv in Ha as (n & Hs & Hn).
        apply reply_fails_inv in Hb. simpl in Hb.
        exists NoReply, n, w1. split; [done|].
        split; [by apply negb_false_iff | done].
    + apply or_else_false_inv in Hrun as (w1 & Ha & Hb).
      apply test_Ok_inv in Ha as (n & Hs & Hn).
      apply reply_fails_inv in Hb. simpl in Hb.
      apply test_Ok_inv in Hc as (r & Hst & Hr).
      exists BadStatus, n, w1. split; [done|].
      split; [by apply negb_false_iff|]. exists w2, r.
      split; [done|]. split; [done|]. apply negb_true_iff in Hr. lia.
  - apply or_else_false_inv in Hrun as (w2 & Hrun & Hc).
    apply or_else_false_inv in Hrun as (w1 & Ha & Hb).
    apply test_Ok_inv in Ha as (n & Hs & Hn). apply negb_false_iff in Hn.
    apply reply_fails_inv in Hb. simpl in Hb.
    apply test_Ok_inv in Hc as (r & Hst & Hr).
    apply negb_false_iff in Hr. assert (r = 1) as -> by lia.
    apply bind_Ok_inv in Hd as (l & w4 & Hf & Hl).
    apply field_Ok_inv in Hf as (-> & s & Hlive & ->).
    injection Hl as <- <-.
    destruct (is_set _) eqn:Hcode.
    + exists WrongCode, n, w1. split; [done|]. split; [done|].
      exists w2, s. split; [done|]. split; [done|]. split; [done|].
      by apply is_set_true.
    + exists n. split; [done|]. exists w1, w2, s.
      split; [done|]. split; [done|]. split; [done|]. split; [done|].
      by apply is_set_false.
Qed.

Lemma accepted_run fuel p c w w' :
  accepted fuel p c w w' → exchange_fails fuel p c w = Ok false w'.
Proof.
  intros (n & Hn & w1 & w2 & s & Hs & Hr & Hst & Hl & Hc).
  unfold exchange_fails.
  assert (H1 : (n <- sends p c ;; ret (negb (cmd_count c n))) w = Ok false w1)
    by (rewrite (bind_Ok _ _ _ _ _ Hs); unfold ret; by rewrite Hn).
  assert (H2 : reply_fails fuel p (cmd_framing c) w1 = Ok false w2)
    by (by apply (reply_fails_run _ _ _ _ true)).
  assert (H3 : (s <- client_status p ;; ret (negb (s =? 1))) w2 = Ok false w')
    by (by rewrite (bind_Ok _ _ _ _ _ Hst)).
  rewrite (or_else_false _ _ w w').
  - rewrite (bind_field_live _ _ _ _ _ Hl). unfold ret. by rewrite Hc.
  - rewrite (or_else_false _ _ w w2); [exact H3|].
    rewrite (or_else_false _ _ w w1); [exact H2 | exact H1].
Qed.

Lemma refused_run fuel p c why w w' :
  refused fuel p c why w w' → exchange_fails fuel p c w = Ok true w'.
Proof.
  intros (n & w1 & Hs & Hwhy). unfold exchange_fails.
  destruct why.
  - destruct Hwhy as [Hn ->]. repeat (apply or_else_true).
    rewrite (bind_Ok _ _ _ _ _ Hs). unfold ret. by rewrite Hn.
  - destruct Hwhy as [Hn Hr]. do 2 (apply or_else_true).
    rewrite (or_else_false _ _ w w1).
    + by apply (reply_fails_run _ _ _ _ false).
    + rewrite (bind_Ok _ _ _ _ _ Hs). unfold ret. by rewrite Hn.
  - destruct Hwhy as (Hn & w2 & r & Hr & Hst & Hne). apply or_else_true.
    rewrite (or_else_false _ _ w w2).
    + rewrite (bind_Ok _ _ _ _ _ Hst). unfold ret. f_equal.
      apply negb_true_iff. lia.
    + rewrite (or_else_false _ _ w w1).
      * by apply (reply_fails_run _ _ _ _ true).
      * rewrite (bind_Ok _ _ _ _ _ Hs). unfold ret. by rewrite Hn.
  - destruct Hwhy as (Hn & w2 & s & Hr & Hst & Hl & Hc).
    rewrite (or_else_false _ _ w w').
    + rewrite (bind_field_live _ _ _ _ _ Hl). unfold ret. f_equal.
      by apply is_set_true.
    + rewrite (or_else_false _ _ w w2).
      * by rewrite (bind_Ok _ _ _ _ _ Hst).
      * rewrite (or_else_false _ _ w w1).
        -- by apply (reply_fails_run _ _ _ _ true).
        -- rewrite (bind_Ok _ _ _ _ _ Hs). unfold ret. by rewrite Hn.
Qed.

Lemma ks_exchange_fails fuel p c : keeps_strings (exchange_fails fuel p c).
Proof.
  unfold exchange_fails, reply_fails, sends.
  destruct (cmd_writer c), (cmd_framing c); ks_auto.
Qed.

Lemma accepted_strings fuel p c w w' :
  accepted fuel p c w w' → w_strings w' = w_strings w.
Proof. intros Ha. exact (ks_exchange_fails _ _ _ _ _ _ (accepted_run _ _ _ _ _ Ha)). Qed.

Lemma refused_strings fuel p c why w w' :
  refused fuel p c why w w' → w_strings w' = w_strings w.
Proof. intros Hr. exact (ks_exchange_fails _ _ _ _ _ _ (refused_run _ _ _ _ _ _ Hr)). Qed.

Lemma all_accepted_strings fuel p (cs : list command) w w' :
  all_accepted fuel p cs w w' → w_strings w' = w_strings w.
Proof.
  revert w. induction cs as [|c cs IH]; intros w; simpl; [by intros ->|].
  intros (w1 & Ha & Hrest). rewrite (IH _ Hrest). by eapply accepted_strings.
Qed.

(** A run of exchanges: either all are accepted and the run goes on, or
    the first one refused ends it. *)
Lemma exchanges_accepted fuel p on_fail (cs : list (command * string))
    and_then w wq :
  all_accepted fuel p (map fst cs) w wq →
  exchanges fuel p on_fail cs and_then w = and_then wq.
Proof.
  revert w. induction cs as [|[c msg] cs IH]; intros w; simpl.
  - by intros ->.
  - intros (w1 & Ha & Hrest).
    rewrite (bind_Ok _ _ _ _ _ (accepted_run _ _ _ _ _ Ha)). by apply IH.
Qed.

Lemma exchanges_refused fuel p on_fail (cs : list (command * string))
    and_then k c msg why w wk w0 :
  nth_error cs k = Some (c, msg) →
  all_accepted fuel p (map fst (firstn k cs)) w wk →
  refused fuel p c why wk w0 →
  exchanges fuel p on_fail cs and_then w = on_fail msg w0.
Proof.
  revert w k. induction cs as [|[c' msg'] cs IH]; intros w k; [by destruct k|].
  destruct k as [|k]; simpl.
  - intros [= -> ->] -> Hr.
    by rewrite (bind_Ok _ _ _ _ _ (refused_run _ _ _ _ _ _ Hr)).
  - intros Hn (w1 & Ha & Hrest) Hr.
    rewrite (bind_Ok _ _ _ _ _ (accepted_run _ _ _ _ _ Ha)). by eapply IH.
Qed.

Lemma exchanges_inv fuel p on_fail (cs : list (command * string))
    and_then w b w' :
  exchanges fuel p on_fail cs and_then w = Ok b w' →
  (∃ wq, all_accepted fuel p (map fst cs) w wq ∧ and_then wq = Ok b w') ∨
  (∃ k c msg why wk w0,
     nth_error cs k = Some (c, msg) ∧
     all_accepted fuel p (map fst (firstn k cs)) w wk ∧
     refused fuel p c why wk w0 ∧
     on_fail msg w0 = Ok b w').
Proof.
  revert w. induction cs as [|[c msg] cs IH]; intros w; simpl.
  - intros Hr. left. by exists w.
  - intros Hb. apply bind_Ok_inv in Hb as (failed & w1 & Hf & Hb).
    apply exchange_fails_inv in Hf. destruct failed.
    + destruct Hf as [why Hf]. right. by exists 0%nat, c, msg, why, w, w1.
    + destruct (IH _ Hb)
        as [(wq & Ha & Ht)|(k & c' & msg' & why & wk & w0 & Hn & Ha & Hr & Ho)].
      * left. exists wq. split; [|done]. by exists w1.
      * right. exists (S k), c', msg', why, wk, w0.
        split; [done|]. split; [by exists w1 | done].
Qed.

(** The steps are runs of exchanges. *)
Lemma mail_rcpt_data_exchanges fuel p from to errmsg :
  check_smtp_client_mail_rcpt_data fuel p from to errmsg =
  exchanges fuel p (fun msg => st_sprint errmsg msg ;;; ret false)
    (mail_rcpt_data_script from to) (ret true).
Proof. reflexivity. Qed.

Lemma auth_plain_exchanges fuel p auth :
  check_smtp_client_auth_plain fuel p auth =
  exchanges fuel p (fun _ => ret false)
    [(auth_plain_command auth, EmptyString)] (ret true).
Proof. reflexivity. Qed.

Lemma auth_login_exchanges fuel p user pass :
  check_smtp_client_auth_login fuel p user pass =
  exchanges fuel p (fun _ => ret false)
    (map (fun c => (c, EmptyString)) (auth_login_commands user pass))
    (ret true).
Proof. reflexivity. Qed.

Lemma quit_exchanges p errmsg fuel :
  check_smtp_client_quit p errmsg =
  exchanges fuel p (fun msg => st_sprint errmsg msg ;;; ret false)
    [(quit_command,
      "Failed to return successful status following the QUIT command.")]
    (n <- client_read_line p ;;
     if n >? 0 then
       st_sprint errmsg
         "The server failed to close the connection after issuing a QUIT command." ;;;
       ret false
     else ret true).
Proof. reflexivity. Qed.

Lemma sprint_fail_run errmsg msg w b w' :
  errmsg ≠ NULL →
  (st_sprint errmsg msg ;;; ret false) w = Ok b w' →
  b = false ∧ w' = set_strings (<[errmsg := msg]> (w_strings w)) w.
Proof.
  intros Hne Hb. unfold st_sprint in Hb. apply Z.eqb_neq in Hne.
  rewrite Hne in Hb. by injection Hb as <- <-.
Qed.

(** X5.  The MAIL/RCPT/DATA step reports through the buffer it is given,
    and the message names the command that failed.  When it returns true
    the three exchanges were accepted in order and no message buffer has
    changed.  When it returns false, the exchanges before some command of
    the three were accepted and that command was refused (a short write, no
    complete reply, a status other than 1, or a reply that does not start
    with the expected code); the state is the one in which that exchange
    stopped, with the message of that very command in the buffer and no
    other buffer changed. *)
Theorem mail_rcpt_data_reports fuel p from to errmsg w b w' :
  errmsg ≠ NULL →
  check_smtp_client_mail_rcpt_data fuel p from to errmsg w = Ok b w' →
  if b then
    all_accepted fuel p (map fst (mail_rcpt_data_script from to)) w w' ∧
    w_strings w' = w_strings w
  else
    ∃ k c msg why wk w0,
      nth_error (mail_rcpt_data_script from to) k = Some (c, msg) ∧
      all_accepted fuel p
        (map fst (firstn k (mail_rcpt_data_script from to))) w wk ∧
      refused fuel p c why wk w0 ∧
      w' = set_strings (<[errmsg := msg]> (w_strings w0)) w0 ∧
      w_strings w' = <[errmsg := msg]> (w_strings w).
Proof.
  intros Hne. rewrite mail_rcpt_data_exchanges. intros Hrun.
  apply exchanges_inv in Hrun
    as [(wq & Ha & Ht)|(k & c & msg & why & wk & w0 & Hn & Ha & Hr & Ho)].
  - injection Ht as <- <-. split; [done|]. by eapply all_accepted_strings.
  - apply sprint_fail_run in Ho as [-> ->]; [|done].
    exists k, c, msg, why, wk, w0. split; [done|]. split; [done|].
    split; [done|]. split; [done|]. simpl.
    by rewrite (refused_strings _ _ _ _ _ _ Hr),
      (all_accepted_strings _ _ _ _ _ Ha).
Qed.

(** X14.  A short write fails a step at once, at every write of the four
    steps.  When the exchanges before a command were accepted and the
    writer then reports a count that fails the step's test, the step
    returns false without reading a reply or asking for the status: the
    state is the one the writer left, plus the message of that command
    where the step records one. *)
Theorem short_write_fails_at_once fuel p errmsg from to auth user pass
    k c msg w wk n w1 :
  sends p c wk = Ok n w1 → cmd_count c n = false →
  (nth_error (mail_rcpt_data_script from to) k = Some (c, msg) →
   all_accepted fuel p
     (map fst (firstn k (mail_rcpt_data_script from to))) w wk →
   check_smtp_client_mail_rcpt_data fuel p from to errmsg w =
     (st_sprint errmsg msg ;;; ret false) w1) ∧
  (nth_error [auth_plain_command auth] k = Some c →
   all_accepted fuel p (firstn k [auth_plain_command auth]) w wk →
   check_smtp_client_auth_plain fuel p auth w = Ok false w1) ∧
  (nth_error (auth_login_commands user pass) k = Some c →
   all_accepted fuel p (firstn k (auth_login_commands user pass)) w wk →
   check_smtp_client_auth_login fuel p user pass w = Ok false w1) ∧
  (c = quit_command → wk = w →
   check_smtp_client_quit p errmsg w =
     (st_sprint errmsg
        "Failed to return successful status following the QUIT command." ;;;
      ret false) w1).
Proof.
  intros Hs Hn.
  assert (Hr : refused fuel p c ShortWrite wk w1) by (by exists n, w1).
  split; [|split; [|split]].
  - intros Hk Ha. rewrite mail_rcpt_data_exchanges.
    by rewrite (exchanges_refused _ _ _ _ _ _ _ _ _ _ _ _ Hk Ha Hr).
  - intros Hk Ha. rewrite auth_plain_exchanges.
    assert (Hk' : nth_error [(auth_plain_command auth, EmptyString)] k
                  = Some (c, EmptyString)).
    { destruct k as [|[|k]]; simpl in *; congruence. }
    assert (Ha' : all_accepted fuel p
                    (map fst (firstn k [(auth_plain_command auth, EmptyString)]))
                    w wk).
    { by destruct k as [|[|k]]. }
    by rewrite (exchanges_refused _ _ _ _ _ _ _ _ _ _ _ _ Hk' Ha' Hr).
  - intros Hk Ha. rewrite auth_login_exchanges.
    assert (Hk' : nth_error (map (fun c => (c, EmptyString))
                               (auth_login_commands user pass)) k
                  = Some (c, EmptyString)).
    { by rewrite nth_error_map, Hk. }
    assert (Ha' : all_accepted fuel p
                    (map fst (firstn k (map (fun c => (c, EmptyString))
                                          (auth_login_commands user pass))))
                    w wk).
    { rewrite List.firstn_map, List.map_map. simpl. by rewrite List.map_id. }
    by rewrite (exchanges_refused _ _ _ _ _ _ _ _ _ _ _ _ Hk' Ha' Hr).
  - intros -> ->. rewrite (quit_exchanges p errmsg fuel).
    cbn [exchanges].
    by rewrite (bind_Ok _ _ _ _ _ (refused_run _ _ _ _ _ _ Hr)).
Qed.

End ExchangeFacts.

(** ** The byte counts the steps expect *)

Lemma string_length_app (a b : string) :
  String.length (a ++ b) = (String.length a + String.length b)%nat.
Proof. induction a as [|x a IH]; simpl; [done | by rewrite IH]. Qed.

Lemma substring_all (s : string) : substring 0 (String.length s) s = s.
Proof. induction s as [|x s IH]; simpl; [done | by rewrite IH]. Qed.

Lemma printed_whole (s : string) :
  c_str s = s → st_length_get s ≤ INT_MAX →
  printed (Some (st_length_int s)) s = s.
Proof.
  intros Hc Hl. unfold printed, st_length_int. rewrite Z.min_l by done.
  unfold st_length_get.
  destruct (Z.ltb_spec (Z.of_nat (String.length s)) 0); [lia|].
  by rewrite Nat2Z.id, substring_all.
Qed.

Lemma size_test_same (n m : Z) : n = m → (to_size_t n =? to_size_t m) = true.
Proof. intros ->. apply Z.eqb_refl. Qed.

Lemma mail_counts (from to : string) :
  Forall (fun c => cmd_count c (Z.of_nat (String.length (cmd_text c))) = true)
    (map fst (mail_rcpt_data_script from to)).
Proof.
  repeat constructor; cbn [fst cmd_count cmd_text].
  - apply size_test_same. unfold ns_length_get.
    change (format_s ("MAIL FROM: <%s>" ++ CRLF) from)
      with ("MAIL FROM: <" ++ (c_str from ++ (">" ++ CRLF))).
    change (c_str ("MAIL FROM: <%s>" ++ CRLF)) with ("MAIL FROM: <%s>" ++ CRLF).
    rewrite !string_length_app.
    change (String.length "MAIL FROM: <") with 12%nat.
    change (String.length ">") with 1%nat.
    change (String.length CRLF) with 2%nat.
    change (String.length "MAIL FROM: <%s>") with 15%nat. lia.
  - apply size_test_same. unfold ns_length_get.
    change (format_s ("RCPT TO: <%s>" ++ CRLF) to)
      with ("RCPT TO: <" ++ (c_str to ++ (">" ++ CRLF))).
    change (c_str ("RCPT TO: <%s>" ++ CRLF)) with ("RCPT TO: <%s>" ++ CRLF).
    rewrite !string_length_app.
    change (String.length "RCPT TO: <") with 10%nat.
    change (String.length ">") with 1%nat.
    change (String.length CRLF) with 2%nat.
    change (String.length "RCPT TO: <%s>") with 13%nat. lia.
Qed.

Lemma auth_plain_count (auth : string) :
  c_str auth = auth → st_length_get auth ≤ INT_MAX →
  cmd_count (auth_plain_command auth)
    (Z.of_nat (String.length (cmd_text (auth_plain_command auth)))) = true.
Proof.
  intros Hc Hl. cbn [auth_plain_command cmd_count cmd_text].
  apply size_test_same.
  change (format_ps ("AUTH PLAIN %.*s" ++ CRLF) (st_length_int auth) auth)
    with ("AUTH PLAIN " ++ (printed (Some (st_length_int auth)) auth ++ CRLF)).
  rewrite printed_whole by done. rewrite !string_length_app.
  unfold st_length_get.
  change (String.length "AUTH PLAIN ") with 11%nat.
  change (String.length CRLF) with 2%nat. lia.
Qed.

Lemma credential_count (s code : string) :
  c_str s = s → st_length_get s ≤ INT_MAX →
  cmd_count (credential_command s code)
    (Z.of_nat (String.length (cmd_text (credential_command s code)))) = true.
Proof.
  intros Hc Hl. cbn [credential_command cmd_count cmd_text].
  apply size_test_same.
  change (format_ps ("%.*s" ++ CRLF) (st_length_int s) s)
    with (printed (Some (st_length_int s)) s ++ CRLF).
  rewrite printed_whole by done. rewrite !string_length_app.
  unfold st_length_get. change (String.length CRLF) with 2%nat. lia.
Qed.

Section CountFacts.

Context {E : Type} `{Platform E}.
Implicit Types (w : world E) (c : command) (p : ptr).

Lemma all_in_full_accepted fuel p (cs : list command) w w' :
  Forall (fun c => cmd_count c (Z.of_nat (String.length (cmd_text c))) = true) cs →
  all_in_full fuel p cs w w' → all_accepted fuel p cs w w'.
Proof.
  intros Hall. revert w. induction Hall as [|c cs Hc Hcs IH]; intros w; simpl.
  - done.
  - intros (w1 & Hx & Hrest). exists w1. split; [|by apply IH].
    by exists (Z.of_nat (String.length (cmd_text c))).
Qed.

(** X13.  The byte counts the steps compare the writer's result with are
    the lengths of the commands they send: whenever the writer reports
    the length of the text it was handed and every reply is accepted, the
    step succeeds, for all arguments.  The counted arguments of the AUTH
    steps must hold no NUL byte and have a length that fits an int: printf
    stops at a NUL, and the count the step expects does not.  The literal
    counts of the basic scenario agree with its literals as well. *)
Theorem expected_counts_are_command_lengths fuel p errmsg from to auth user
    pass w w' :
  (∀ s, In s [auth; user; pass] → c_str s = s ∧ st_length_get s ≤ INT_MAX) →
  (all_in_full fuel p (map fst (mail_rcpt_data_script from to)) w w' →
   check_smtp_client_mail_rcpt_data fuel p from to errmsg w = Ok true w') ∧
  (all_in_full fuel p [auth_plain_command auth] w w' →
   check_smtp_client_auth_plain fuel p auth w = Ok true w') ∧
  (all_in_full fuel p (auth_login_commands user pass) w w' →
   check_smtp_client_auth_login fuel p user pass w = Ok true w') ∧
  (∀ wq n, all_in_full fuel p [quit_command] w wq →
     client_read_line p wq = Ok n w' → n ≤ 0 →
     check_smtp_client_quit p errmsg w = Ok true w') ∧
  Forall (fun c => cmd_count c (Z.of_nat (String.length (cmd_text c))) = true)
    (map fst basic_script).
Proof.
  intros Hargs.
  destruct (Hargs auth ltac:(simpl; tauto)) as [Ha1 Ha2].
  destruct (Hargs user ltac:(simpl; tauto)) as [Hu1 Hu2].
  destruct (Hargs pass ltac:(simpl; tauto)) as [Hp1 Hp2].
  split; [|split; [|split; [|split]]].
  - intros Hfull. apply all_in_full_accepted in Hfull; [|apply mail_counts].
    rewrite mail_rcpt_data_exchanges.
    by rewrite (exchanges_accepted _ _ _ _ _ _ _ Hfull).
  - intros Hfull.
    apply all_in_full_accepted in Hfull;
      [|by repeat constructor; apply auth_plain_count].
    rewrite auth_plain_exchanges.
    by rewrite (exchanges_accepted _ _ _
                  [(auth_plain_command auth, EmptyString)] _ _ _ Hfull).
  - intros Hfull.
    apply all_in_full_accepted in Hfull;
      [|by repeat constructor; apply credential_count].
    rewrite auth_login_exchanges.
    rewrite (exchanges_accepted _ _ _ _ _ w w'); [done|]. exact Hfull.
  - intros wq n Hfull Hr Hn.
    apply all_in_full_accepted in Hfull; [|by repeat constructor].
    rewrite (quit_exchanges p errmsg fuel).
    rewrite (exchanges_accepted _ _ _
               [(quit_command,
                 "Failed to return successful status following the QUIT command.")]
               _ _ _ Hfull).
    rewrite (bind_Ok _ _ _ _ _ Hr).
    assert (Hg : (n >? 0) = false) by lia. by rewrite Hg.
  - repeat constructor.
Qed.

End CountFacts.

(** ** What the basic scenario reports *)

Section BasicReports.

Context {E : Type} `{Platform E} `{Timeouts E}.
Implicit Types (w : world E) (c : command) (p : ptr).

Lemma and_also_inv (a b : M E bool) w r w' :
  and_also a b w = Ok r w' →
  (a w = Ok false w' ∧ r = false) ∨ (∃ w1, a w = Ok true w1 ∧ b w1 = Ok r w').
Proof.
  unfold and_also. intros Hb. apply bind_Ok_inv in Hb as (x & w1 & Ha & Hb).
  destruct x.
  - right. by exists w1.
  - injection Hb as <- <-. by left.
Qed.

Lemma greeting_fails_inv secure client w wg :
  greeting_fails secure client w = Ok false wg → greeted secure client w wg.
Proof.
  unfold greeting_fails. intros Hrun.
  apply or_else_false_inv in Hrun as (w6 & Hrun & G6).
  apply or_else_false_inv in Hrun as (w5 & Hrun & G5).
  apply or_else_false_inv in Hrun as (w4 & Hrun & G4).
  apply or_else_false_inv in Hrun as (w3 & Hrun & G3).
  apply or_else_false_inv in Hrun as (w2 & Hrun & G2).
  apply or_else_false_inv in Hrun as (w1 & G0 & G1).
  injection G0 as Hc <-. apply negb_false_iff, is_set_true in Hc.
  split; [done|].
  apply bind_Ok_inv in G2 as (sd & w2' & Hf & G2).
  apply field_Ok_inv in Hf as (-> & c & Hlc & ->).
  apply bind_Ok_inv in G2 as (ok & w3' & Hcall & G2).
  injection G2 as Hok <-. apply negb_false_iff in Hok. subst ok.
  apply test_Ok_inv in G3 as (n & Hread & Hn).
  apply test_Ok_inv in G4 as (r & Hst & Hr).
  apply negb_false_iff in Hr. assert (r = 1) as -> by lia.
  apply bind_Ok_inv in G5 as (l & w5' & Hf & G5).
  apply field_Ok_inv in Hf as (-> & s & Hls & ->).
  injection G5 as Hcode <-. apply is_set_false in Hcode.
  apply bind_Ok_inv in G6 as (l & w6' & Hf & G6).
  apply field_Ok_inv in Hf as (-> & s' & Hls' & ->).
  injection G6 as Hes <-. apply negb_false_iff in Hes.
  rewrite <- (live_inj _ _ _ _ Hls Hls') in Hes.
  exists w2, w3', n, w4, c, s.
  split.
  { apply and_also_inv in G1 as [[G1 _]|(w1' & G1 & Hsec)].
    - injection G1 as -> <-. done.
    - injection G1 as -> <-.
      apply test_Ok_inv in Hsec as (r & Hsec & Hr'). exists r.
      split; [done | lia]. }
  split; [done|]. split; [done|]. split; [done|]. split; [lia|].
  split; [done|]. by split.
Qed.

Lemma greeted_run secure client w wg :
  greeted secure client w wg → greeting_fails secure client w = Ok false wg.
Proof.
  intros (Hne & ws & wt & n & wr & c & s & Hsec & Hlc & Hcall & Hread & Hn &
          Hst & Hls & Hcode & Hes).
  unfold greeting_fails.
  rewrite (or_else_false _ _ w wg).
  { rewrite (bind_field_live _ _ _ _ _ Hls). unfold ret. by rewrite Hes. }
  rewrite (or_else_false _ _ w wg).
  { rewrite (bind_field_live _ _ _ _ _ Hls). unfold ret. by rewrite Hcode. }
  rewrite (or_else_false _ _ w wr).
  { by rewrite (bind_Ok _ _ _ _ _ Hst). }
  rewrite (or_else_false _ _ w wt).
  { rewrite (bind_Ok _ _ _ _ _ Hread). unfold ret. f_equal. lia. }
  rewrite (or_else_false _ _ w ws).
  { rewrite (bind_field_live _ _ _ _ _ Hlc).
    by rewrite (bind_Ok _ _ _ _ _ Hcall). }
  rewrite (or_else_false _ _ w w).
  { unfold and_also. rewrite bind_ret. destruct secure.
    - destruct Hsec as (r & Hsec & Hr). rewrite (bind_Ok _ _ _ _ _ Hsec).
      unfold ret. f_equal. lia.
    - by subst ws. }
  unfold ret. f_equal. by apply negb_false_iff, is_set_true.
Qed.

Lemma ks_greeting_fails secure client :
  keeps_strings (E:=E) (greeting_fails secure client).
Proof. unfold greeting_fails. ks_auto. Qed.

Lemma basic_sthread_exchanges fuel errmsg port secure :
  check_smtp_network_basic_sthread fuel errmsg port secure =
  (client <- client_connect "localhost" port ;;
   failed <- greeting_fails secure client ;;
   if failed then
     st_sprint errmsg "Failed to connect with the SMTP server." ;;;
     client_close client ;;; ret false
   else
     exchanges fuel client
       (fun msg => st_sprint errmsg msg ;;; client_close client ;;; ret false)
       basic_script
       (ok <- check_smtp_client_quit client errmsg ;;
        if negb ok then client_close client ;;; ret false
        else client_close client ;;; ret true)).
Proof. reflexivity. Qed.

Lemma sprint_close_fail_run errmsg msg client w b w' :
  errmsg ≠ NULL →
  (st_sprint errmsg msg ;;; client_close client ;;; ret false) w = Ok b w' →
  b = false ∧ w_strings w' = <[errmsg := msg]> (w_strings w).
Proof.
  intros Hne Hb. unfold st_sprint in Hb. apply Z.eqb_neq in Hne.
  rewrite Hne in Hb. apply bind_Ok_inv in Hb as (? & w1 & Hs & Hb).
  injection Hs as Hs. subst w1.
  apply close_then_ret_strings in Hb as [-> ->]. done.
Qed.

(** X7.  The basic scenario tells its caller what went wrong.  When it
    returns false after the opening failed (no session, or no upgrade, or
    no timeouts, or no greeting that starts with 220 and names ESMTP with
    status 1), the buffer holds the connect message.  When the opening
    went through and the exchanges before some command were accepted and
    that command was refused, the buffer holds the message of that very
    command.  When all six exchanges were accepted the QUIT step decides:
    the result is its result, and on failure the buffer holds one of its
    two messages.  In every case no other buffer has changed, and on
    success none has. *)
Theorem basic_sthread_reports fuel errmsg port secure w b w' :
  errmsg ≠ NULL →
  check_smtp_network_basic_sthread fuel errmsg port secure w = Ok b w' →
  ∃ client w1,
    client_connect "localhost" port w = Ok client w1 ∧
    ((b = false ∧ (∀ wg, ¬ greeted secure client w1 wg) ∧
      w_strings w' =
        <[errmsg := "Failed to connect with the SMTP server."]> (w_strings w)) ∨
     (∃ wg, greeted secure client w1 wg ∧
        ((∃ k c msg why wk w0,
            nth_error basic_script k = Some (c, msg) ∧
            all_accepted fuel client (map fst (firstn k basic_script)) wg wk ∧
            refused fuel client c why wk w0 ∧
            b = false ∧
            w_strings w' = <[errmsg := msg]> (w_strings w)) ∨
         (∃ wq wq',
            all_accepted fuel client (map fst basic_script) wg wq ∧
            check_smtp_client_quit client errmsg wq = Ok b wq' ∧
            if b then w_strings w' = w_strings w
            else ∃ msg, In msg quit_messages ∧
                        w_strings w' = <[errmsg := msg]> (w_strings w))))).
Proof.
  intros Hne. rewrite basic_sthread_exchanges. intros Hrun.
  apply bind_Ok_inv in Hrun as (client & w1 & Hconn & Hrun).
  exists client, w1. split; [done|].
  pose proof (ks_client_connect _ _ _ _ _ Hconn) as Hs1.
  apply bind_Ok_inv in Hrun as (failed & w2 & Hg & Hrun).
  pose proof (ks_greeting_fails _ _ _ _ _ Hg) as Hs2.
  destruct failed.
  - left. apply sprint_close_fail_run in Hrun as [-> Hs]; [|done].
    split; [done|]. split; [|by rewrite Hs, Hs2, Hs1].
    intros wg Hgr. apply greeted_run in Hgr. congruence.
  - right. exists w2. split; [by apply greeting_fails_inv|].
    apply exchanges_inv in Hrun
      as [(wq & Ha & Ht)|(k & c & msg & why & wk & w0 & Hn & Ha & Hr & Ho)].
    + right. apply bind_Ok_inv in Ht as (ok & wq' & Hq & Ht).
      exists wq, wq'. split; [done|].
      pose proof (reports_quit client errmsg Hne _ _ _ Hq) as Hrep.
      pose proof (all_accepted_strings _ _ _ _ _ Ha) as Hs3.
      destruct ok; simpl in Ht;
        apply close_then_ret_strings in Ht as [-> Hs4]; (split; [done|]).
      * rewrite Hs4, Hrep. congruence.
      * destruct Hrep as (msg & Hin & Hrep). exists msg. split; [done|].
        rewrite Hs4, Hrep. congruence.
    + left. apply sprint_close_fail_run in Ho as [-> Hs]; [|done].
      exists k, c, msg, why, wk, w0. split; [done|]. split; [done|].
      split; [done|]. split; [done|].
      rewrite Hs, (refused_strings _ _ _ _ _ _ Hr),
        (all_accepted_strings _ _ _ _ _ Ha). congruence.
Qed.

End BasicReports.

(** ** Scenarios close their session *)

Create HintDb session.

Section SessionKept.

Context {E : Type} `{Platform E}.
Implicit Types (w : world E) (c : client_t) (p : ptr).

(** A session whose address field points at the session block itself
    cannot be closed: releasing the address releases the session. *)
Lemma client_close_aliased p c w :
  live p c w → ip c = p → client_close p w = Fault UseAfterFree.
Proof.
  intros Hl Hip. pose proof (is_set_live _ _ _ Hl) as Hs.
  unfold client_close. rewrite Hs.
  erewrite bind_field_live by eauto.
  assert (∃ w1, (if is_set (tls c) then tls_free (tls c) else ret tt) w = Ok tt w1
                ∧ live p c w1) as (w1 & Hr1 & Hl1).
  { destruct (is_set (tls c)); eexists; (split; [reflexivity|]);
      [by apply live_set_trace | done]. }
  rewrite (bind_Ok _ _ _ _ _ Hr1).
  erewrite bind_field_live by eauto.
  assert (∃ w2, (if negb (sockd c =? -1) then close (sockd c) else ret tt) w1 = Ok tt w2
                ∧ live p c w2) as (w2 & Hr2 & Hl2).
  { destruct (sockd c =? -1); simpl; eexists; (split; [reflexivity|]);
      [done | by apply live_set_trace]. }
  rewrite (bind_Ok _ _ _ _ _ Hr2).
  erewrite bind_field_live by eauto. rewrite Hip.
  unfold mm_cleanup. rewrite eqb_NULL_is_set, Hs. cbn [negb].
  unfold mm_free. msimpl. unfold bind at 1. cbv beta iota.
  unfold field, load, bind. destruct Hl as [Hp _].
  apply Z.eqb_neq in Hp. rewrite Hp. simpl. by rewrite lookup_delete_eq.
Qed.

Lemma client_close_Ok_inv p w w' :
  client_close p w = Ok tt w' → p ≠ NULL →
  ∃ c, live p c w ∧ w_trace w' = (w_trace w ++ releases p c)%list ∧
       w_clients w' !! p = None.
Proof.
  intros Hrun Hp.
  assert (∃ c, live p c w) as [c Hl].
  { unfold client_close in Hrun. apply is_set_true in Hp. rewrite Hp in Hrun.
    apply bind_Ok_inv in Hrun as (t & w1 & Hf & _).
    apply field_Ok_inv in Hf as (_ & c & Hl & _). by exists c. }
  exists c. split; [done|].
  destruct (decide (ip c = p)) as [Hip|Hip].
  - rewrite (client_close_aliased _ _ _ Hl Hip) in Hrun. done.
  - destruct (client_close_live _ _ _ Hl Hip) as (w2 & Hr & Ht & Hgone & _).
    rewrite Hrun in Hr. injection Hr as <-. by split.
Qed.

Lemma same_handles_refl c : same_handles c c.
Proof. by repeat split. Qed.

Lemma same_handles_trans c1 c2 c3 :
  same_handles c1 c2 → same_handles c2 c3 → same_handles c1 c3.
Proof.
  intros (? & ? & ? & ?) (? & ? & ? & ?).
  unfold same_handles. split; [|split; [|split]]; congruence.
Qed.

Lemma same_handles_releases p c c' :
  same_handles c c' → releases p c' = releases p c.
Proof. intros (Hs & Ht & Hi & Hb). unfold releases. by rewrite Hs, Ht, Hi, Hb. Qed.

Lemma kss_ret p {A} (a : A) : keeps_session (E:=E) p (ret a).
Proof.
  intros w x w' c Hl Hr. inversion Hr; subst. split; [done|].
  exists c. split; [done | apply same_handles_refl].
Qed.

Lemma kss_bind p {A B} (m : M E A) (k : A → M E B) :
  keeps_session p m → (∀ a, keeps_session p (k a)) →
  keeps_session p (bind m k).
Proof.
  intros Hm Hk w b w' c Hl Hb. apply bind_Ok_inv in Hb as (a & w1 & Ha & Hb).
  destruct (Hm _ _ _ _ Hl Ha) as (Ht1 & c1 & Hl1 & Hh1).
  destruct (Hk _ _ _ _ _ Hl1 Hb) as (Ht2 & c2 & Hl2 & Hh2).
  split; [congruence|]. exists c2. split; [done|].
  by eapply same_handles_trans.
Qed.

Lemma kss_if p {A} (b : bool) (x y : M E A) :
  keeps_session p x → keeps_session p y →
  keeps_session p (if b then x else y).
Proof. by destruct b. Qed.

Lemma kss_call p {A} (f : E → A * E) : keeps_session p (call f).
Proof.
  intros w x w' c Hl Hr. inversion Hr; subst. split; [done|].
  exists c. split; [by apply live_set_env | apply same_handles_refl].
Qed.

Lemma kss_observe p {A} (f : E → A) : keeps_session p (observe f).
Proof.
  intros w x w' c Hl Hr. inversion Hr; subst. split; [done|].
  exists c. split; [done | apply same_handles_refl].
Qed.

Lemma kss_raise p {A} f : keeps_session (E:=E) (A:=A) p (raise f).
Proof. by intros w x w' c Hl Hr. Qed.

Lemma kss_out_of_fuel p {A} : keeps_session (E:=E) (A:=A) p out_of_fuel.
Proof. by intros w x w' c Hl Hr. Qed.

Lemma kss_load p q : keeps_session (E:=E) p (load q).
Proof.
  intros w x w' c Hl Hr. apply load_Ok_inv in Hr as [-> _]. split; [done|].
  exists c. split; [done | apply same_handles_refl].
Qed.

Lemma kss_field p {A} (f : client_t → A) q : keeps_session (E:=E) p (field f q).
Proof. apply kss_bind; [apply kss_load | intros; apply kss_ret]. Qed.

Lemma store_live p c c' w :
  live p c w →
  store p c' w = Ok tt (set_clients (<[p := c']> (w_clients w)) w).
Proof.
  intros [Hp Hc]. unfold store. destruct (Z.eqb_spec p NULL); [done|].
  by rewrite Hc.
Qed.

Lemma kss_io p (f : client_t → E → (Z * client_t) * E) :
  (∀ c e, same_handles c (snd (fst (f c e)))) →
  keeps_session p
    (c <- load p ;; r <- call (f c) ;; store p (snd r) ;;; ret (fst r)).
Proof.
  intros Hf w n w' c Hl Hrun.
  rewrite (bind_Ok _ _ _ _ _ (load_live _ _ _ Hl)) in Hrun.
  rewrite bind_call in Hrun.
  rewrite (bind_Ok _ _ _ _ _
             (store_live p c _ _ (live_set_env _ _ _ _ Hl))) in Hrun.
  inversion Hrun; subst. split; [done|]. eexists.
  split; [|apply Hf].
  split; [by destruct Hl | simpl; apply lookup_insert_eq].
Qed.

Lemma kss_assign_status p v :
  keeps_session (E:=E) p (assign (with_status v) p).
Proof.
  intros w x w' c Hl Hr. rewrite (assign_live _ _ _ _ Hl) in Hr.
  inversion Hr; subst. split; [done|]. exists (with_status v c).
  split; [by eapply live_insert | by repeat split].
Qed.

Lemma kss_and_also p (a b : M E bool) :
  keeps_session p a → keeps_session p b → keeps_session p (and_also a b).
Proof.
  intros Ha Hb. apply kss_bind; [done|]. intros x.
  apply kss_if; [done | apply kss_ret].
Qed.

Lemma kss_or_else p (a b : M E bool) :
  keeps_session p a → keeps_session p b → keeps_session p (or_else a b).
Proof.
  intros Ha Hb. apply kss_bind; [done|]. intros x.
  apply kss_if; [apply kss_ret | done].
Qed.

Lemma kss_st_sprint p dest msg : keeps_session (E:=E) p (st_sprint dest msg).
Proof.
  unfold st_sprint. destruct (dest =? NULL); [apply kss_ret|].
  intros w x w' c Hl Hr. inversion Hr; subst. split; [done|].
  exists c. split; [by apply live_set_strings | apply same_handles_refl].
Qed.

Lemma kss_st_empty p s : keeps_session (E:=E) p (st_empty s).
Proof.
  unfold st_empty. destruct (s =? NULL); [apply kss_ret|].
  intros w x w' c Hl Hr. inversion Hr; subst. split; [done|].
  exists c. split; [done | apply same_handles_refl].
Qed.

Lemma kss_client_status p : keeps_session (E:=E) p (client_status p).
Proof.
  unfold client_status. cbv zeta.
  repeat first
    [ apply kss_ret | apply kss_call | apply kss_field
    | apply kss_assign_status
    | apply kss_bind; [|intros ?]
    | apply kss_and_also | apply kss_or_else | apply kss_if ].
Qed.

(** Closing the session found at [client]. *)
Lemma cs_close_ret client (b : bool) :
  closes_session (E:=E) client (client_close client ;;; ret b).
Proof.
  intros w x w' c Hl Hb. apply bind_Ok_inv in Hb as ([] & w1 & Hc & Hb).
  inversion Hb; subst.
  destruct (client_close_Ok_inv _ _ _ Hc (live_nonnull _ _ _ Hl))
    as (c0 & Hl0 & Ht & Hgone).
  by rewrite (live_inj _ _ _ _ Hl Hl0).
Qed.

Lemma cs_bind {A B} client (m : M E A) (k : A → M E B) :
  keeps_session client m → (∀ a, closes_session client (k a)) →
  closes_session client (bind m k).
Proof.
  intros Hm Hk w b w' c Hl Hb. apply bind_Ok_inv in Hb as (a & w1 & Ha & Hb).
  destruct (Hm _ _ _ _ Hl Ha) as (Ht1 & c1 & Hl1 & Hh1).
  destruct (Hk _ _ _ _ _ Hl1 Hb) as (Ht & Hgone).
  split; [|done]. by rewrite Ht, Ht1, (same_handles_releases _ _ _ Hh1).
Qed.

Lemma cs_if {A} client (b : bool) (x y : M E A) :
  closes_session client x → closes_session client y →
  closes_session client (if b then x else y).
Proof. by destruct b. Qed.

(** Securing the session. *)
Lemma sec_of_kss p {A} (m : M E A) : keeps_session p m → secures p m.
Proof.
  intros Hm w a w' c Hl Hrun. destruct (Hm _ _ _ _ Hl Hrun) as (Ht & c' & Hl' & Hh).
  exists (tls c), [], c'. split; [done|]. split.
  { destruct Hh as (? & ? & ? & ?). by repeat split. }
  split; [by left | by rewrite app_nil_r].
Qed.

Lemma sec_bind_l p {A B} (m : M E A) (k : A → M E B) :
  secures p m → (∀ a, keeps_session p (k a)) → secures p (bind m k).
Proof.
  intros Hm Hk w b w' c Hl Hb. apply bind_Ok_inv in Hb as (a & w1 & Ha & Hb).
  destruct (Hm _ _ _ _ Hl Ha) as (t & acq & c1 & Hl1 & Hh1 & Hacq & Ht1).
  destruct (Hk _ _ _ _ _ Hl1 Hb) as (Ht2 & c2 & Hl2 & Hh2).
  exists t, acq, c2. split; [done|].
  split; [by eapply same_handles_trans|]. split; [done | congruence].
Qed.

Lemma sec_bind_r p {A B} (m : M E A) (k : A → M E B) :
  keeps_session p m → (∀ a, secures p (k a)) → secures p (bind m k).
Proof.
  intros Hm Hk w b w' c Hl Hb. apply bind_Ok_inv in Hb as (a & w1 & Ha & Hb).
  destruct (Hm _ _ _ _ Hl Ha) as (Ht1 & c1 & Hl1 & Hh1).
  destruct (Hk _ _ _ _ _ Hl1 Hb) as (t & acq & c2 & Hl2 & Hh2 & Hacq & Ht2).
  destruct Hh1 as (Hs1 & Htl1 & Hi1 & Hb1).
  exists t, acq, c2. split; [done|]. split.
  { destruct Hh2 as (? & ? & ? & ?). unfold same_handles in *. simpl in *.
    split; [|split; [|split]]; congruence. }
  split; [|congruence].
  destruct Hacq as [[-> ->]|(Hn & Hne & ->)]; [left; by split|].
  right. split; [congruence | by split].
Qed.

Lemma sec_or_else_l p (a b : M E bool) :
  secures p a → keeps_session p b → secures p (or_else a b).
Proof.
  intros Ha Hb. apply sec_bind_l; [done|]. intros x.
  apply kss_if; [apply kss_ret | done].
Qed.

Lemma sec_client_secure p : secures (E:=E) p (client_secure p).
Proof.
  intros w r w' c Hl Hrun. rewrite (client_secure_live _ _ _ Hl) in Hrun.
  cbv zeta in Hrun. destruct (is_set (tls c)) eqn:Htls.
  { inversion Hrun; subst. exists (tls c), [], c. split; [done|].
    split; [by destruct c|]. split; [by left | by rewrite app_nil_r]. }
  apply is_set_false in Htls.
  destruct (is_set (fst (tls_client_alloc (sockd c) (w_env w)))) eqn:Ht;
    inversion Hrun; subst.
  - apply is_set_true in Ht.
    exists (fst (tls_client_alloc (sockd c) (w_env w))),
      [Acquire (RTls (fst (tls_client_alloc (sockd c) (w_env w))))],
      (with_status 1 (with_tls (fst (tls_client_alloc (sockd c) (w_env w))) c)).
    split; [split; [by destruct Hl | simpl; apply lookup_insert_eq]|].
    split; [by repeat split|]. split; [right; by split | reflexivity].
  - apply is_set_false in Ht.
    exists (tls c), [],
      (with_status (-1) (with_tls (fst (tls_client_alloc (sockd c) (w_env w))) c)).
    split; [split; [by destruct Hl | simpl; apply lookup_insert_eq]|].
    split; [repeat split; simpl; congruence|].
    split; [by left | simpl; by rewrite app_nil_r].
Qed.

End SessionKept.

#[export] Hint Resolve kss_ret kss_call kss_observe kss_raise kss_out_of_fuel
  kss_load kss_field kss_assign_status kss_st_sprint kss_st_empty
  kss_client_status : session.

Ltac kss_step :=
  first
    [ solve [auto 2 with session nocore]
    | apply kss_bind; [|intros ?]
    | apply kss_or_else
    | apply kss_and_also
    | apply kss_if
    | match goal with
      | |- keeps_session _ (match ?x with _ => _ end) => destruct x
      end ].

Ltac kss_auto := repeat kss_step.

Ltac cs_fail :=
  repeat (apply cs_bind; [solve [kss_auto]|]; intros ?);
  apply cs_close_ret.

Ltac cs_branch :=
  apply cs_bind; [solve [kss_auto]|]; intros ?;
  apply cs_if; [cs_fail|].

Section ScenarioCloses.

Context {E : Type} `{Platform E} `{Timeouts E}.
Implicit Types (w : world E) (c : client_t) (p : ptr).

Hypothesis Hio : steady_io.

Lemma kss_client_read_line p : keeps_session (E:=E) p (client_read_line p).
Proof. destruct Hio as (Hr & _ & _). by apply kss_io. Qed.

Lemma kss_client_write p data :
  keeps_session (E:=E) p (client_write p data).
Proof.
  destruct Hio as (_ & Hw & _).
  apply (kss_io p (fun c => client_write_ext c data)). intros c e. apply Hw.
Qed.

Lemma kss_client_print p text :
  keeps_session (E:=E) p (client_print p text).
Proof.
  destruct Hio as (_ & _ & Hp).
  apply (kss_io p (fun c => client_print_ext c text)). intros c e. apply Hp.
Qed.

Lemma kss_line_char p i : keeps_session (E:=E) p (line_char p i).
Proof. unfold line_char. kss_auto. Qed.

Hint Resolve kss_client_read_line kss_client_write kss_client_print
  kss_line_char : session.

Lemma kss_read_end fuel p :
  keeps_session (E:=E) p (check_smtp_client_read_end fuel p).
Proof.
  induction fuel as [|fuel IH]; simpl; [apply kss_out_of_fuel|].
  apply kss_bind; [apply kss_client_read_line|]. intros n.
  apply kss_if; [|apply kss_ret].
  apply kss_bind; [apply kss_line_char|]. intros ch.
  apply kss_if; [apply kss_ret | apply IH].
Qed.

Hint Resolve kss_read_end : session.

Lemma kss_mail_rcpt_data fuel p from to errmsg :
  keeps_session (E:=E) p (check_smtp_client_mail_rcpt_data fuel p from to errmsg).
Proof. unfold check_smtp_client_mail_rcpt_data. cbv zeta. kss_auto. Qed.

Lemma kss_auth_plain fuel p auth :
  keeps_session (E:=E) p (check_smtp_client_auth_plain fuel p auth).
Proof. unfold check_smtp_client_auth_plain. kss_auto. Qed.

Lemma kss_auth_login fuel p user pass :
  keeps_session (E:=E) p (check_smtp_client_auth_login fuel p user pass).
Proof. unfold check_smtp_client_auth_login. kss_auto. Qed.

Lemma kss_quit p errmsg :
  keeps_session (E:=E) p (check_smtp_client_quit p errmsg).
Proof. unfold check_smtp_client_quit. kss_auto. Qed.

Hint Resolve kss_mail_rcpt_data kss_auth_plain kss_auth_login kss_quit
  : session.

Lemma cs_auth_sthread_relay fuel client errmsg :
  closes_session (E:=E) client (auth_sthread_relay fuel client errmsg).
Proof.
  unfold auth_sthread_relay. cbv zeta.
  cs_branch. cs_branch.
  apply cs_bind; [solve [kss_auto]|]. intros ok.
  apply cs_if; apply cs_close_ret.
Qed.

Lemma connect_session port w client w1 :
  client_connect "localhost" port w = Ok client w1 → client ≠ NULL →
  ∃ c, live client c w1 ∧ tls c = NULL.
Proof.
  intros Hconn Hne.
  destruct (client_connect_paths "localhost" port w)
    as (p & w' & log & Hr & _ & _ & Hp).
  rewrite Hconn in Hr. injection Hr as <- <-.
  apply is_set_true in Hne. rewrite Hne in Hp.
  destruct Hp as (sd & ip_ & b & _ & _ & Hl & _). eexists. by split.
Qed.

(** X9.  The authenticated scenario closes the session it opened, once,
    on every path.  Provided the reader and the writers leave the session
    its handles, whatever the scenario returns, everything it did to
    resources after a successful connect is the release of the resources
    of the session the connect returned (its descriptor, its address, its
    buffer, and last the session block); when the connect fails it returns
    false and touches no resource. *)
Theorem auth_sthread_closes_session fuel errmsg port login w b w' :
  check_smtp_network_auth_sthread fuel errmsg port login w = Ok b w' →
  ∃ client w1,
    client_connect "localhost" port w = Ok client w1 ∧
    (client = NULL → b = false ∧ w_trace w' = w_trace w1) ∧
    (client ≠ NULL →
     ∃ c, live client c w1 ∧
          w_trace w' = (w_trace w1 ++ releases client c)%list ∧
          w_clients w' !! client = None).
Proof.
  unfold check_smtp_network_auth_sthread. intros Hrun.
  apply bind_Ok_inv in Hrun as (client & w1 & Hconn & Hrest).
  exists client, w1. split; [done|]. split.
  - intros ->.
    apply bind_Ok_inv in Hrest as (failed & w2 & Hch & Hrest).
    erewrite !or_else_true in Hch by reflexivity.
    injection Hch as <- <-.
    apply bind_Ok_inv in Hrest as (? & w3 & Hs & Hrest).
    destruct (kr_st_sprint _ _ _ _ _ Hs) as [Ht _].
    inversion Hrest; subst. by split.
  - intros Hne.
    destruct (connect_session _ _ _ _ Hconn Hne) as (c & Hl & _).
    exists c. split; [done|]. revert Hrest.
    match goal with
    | |- ?m w1 = Ok b w' → _ =>
        cut (closes_session client m);
        [intros Hco Hrest; exact (Hco _ _ _ _ Hl Hrest)|]
    end.
    cs_branch. cs_branch.
    apply cs_bind; [solve [kss_auto]|]. intros bad.
    apply cs_if; [cs_fail|].
    apply cs_bind; [solve [kss_auto]|]. intros good.
    apply cs_if; [cs_fail|].
    apply cs_auth_sthread_relay.
Qed.

(** X10.  The basic scenario closes the session it opened, once, on every
    path.  Provided the reader and the writers leave the session its
    handles: between a successful connect and the return the scenario
    acquires at most one thing, a TLS context and only when [secure] is
    set, and then releases the resources of the session the connect
    returned together with that context (the context first, then the
    descriptor, the address, the buffer, and last the session block); when
    the connect fails it returns false and touches no resource. *)
Theorem basic_sthread_closes_session fuel errmsg port secure w b w' :
  check_smtp_network_basic_sthread fuel errmsg port secure w = Ok b w' →
  ∃ client w1,
    client_connect "localhost" port w = Ok client w1 ∧
    (client = NULL → b = false ∧ w_trace w' = w_trace w1) ∧
    (client ≠ NULL →
     ∃ c t acq,
       live client c w1 ∧
       (t = NULL ∧ acq = [] ∨
        secure = true ∧ t ≠ NULL ∧ acq = [Acquire (RTls t)]) ∧
       w_trace w' =
         (w_trace w1 ++ acq ++ releases client (with_tls t c))%list ∧
       w_clients w' !! client = None).
Proof.
  rewrite basic_sthread_exchanges. intros Hrun.
  apply bind_Ok_inv in Hrun as (client & w1 & Hconn & Hrest).
  exists client, w1. split; [done|]. split.
  - intros ->.
    apply bind_Ok_inv in Hrest as (failed & w2 & Hch & Hrest).
    unfold greeting_fails in Hch.
    erewrite !or_else_true in Hch by reflexivity.
    injection Hch as <- <-.
    apply bind_Ok_inv in Hrest as (? & w3 & Hs & Hrest).
    destruct (kr_st_sprint _ _ _ _ _ Hs) as [Ht _].
    inversion Hrest; subst. by split.
  - intros Hne.
    destruct (connect_session _ _ _ _ Hconn Hne) as (c & Hl & Htls).
    apply bind_Ok_inv in Hrest as (failed & w2 & Hch & Hrest).
    assert (Hsec : ∃ t acq c2,
               live client c2 w2 ∧ same_handles (with_tls t c) c2 ∧
               (t = NULL ∧ acq = [] ∨
                secure = true ∧ t ≠ NULL ∧ acq = [Acquire (RTls t)]) ∧
               w_trace w2 = (w_trace w1 ++ acq)%list).
    { destruct secure.
      - assert (Hs : secures client (greeting_fails true client)).
        { unfold greeting_fails.
          do 5 (apply sec_or_else_l; [|solve [kss_auto]]).
          apply sec_bind_r; [apply kss_ret|]. intros x.
          destruct x; [apply sec_of_kss, kss_ret|].
          apply sec_bind_r; [apply kss_ret|]. intros y.
          destruct y; [|apply sec_of_kss, kss_ret].
          apply sec_bind_l; [apply sec_client_secure|].
          intros r. apply kss_ret. }
        destruct (Hs _ _ _ _ Hl Hch) as (t & acq & c2 & Hl2 & Hh & Hacq & Ht).
        exists t, acq, c2. split; [done|]. split; [done|]. split; [|done].
        destruct Hacq as [[-> ->]|(_ & Hn & ->)]; [left | right]; by repeat split.
      - assert (Hs : keeps_session client (greeting_fails false client)).
        { unfold greeting_fails.
          change (and_also (ret false)
                    (r <- client_secure client ;; ret (r =? -1)))
            with (ret (E:=E) false).
          kss_auto. }
        destruct (Hs _ _ _ _ Hl Hch) as (Ht & c2 & Hl2 & Hh).
        exists NULL, [], c2. split; [done|]. split.
        { destruct Hh as (? & ? & ? & ?). repeat split; simpl; congruence. }
        split; [by left | by rewrite app_nil_r]. }
    destruct Hsec as (t & acq & c2 & Hl2 & Hh & Hacq & Ht2).
    exists c, t, acq. split; [done|]. split; [done|]. revert Hrest.
    match goal with
    | |- ?m w2 = Ok b w' → _ =>
        cut (closes_session client m);
        [intros Hco Hrest; destruct (Hco _ _ _ _ Hl2 Hrest) as (Ht & Hgone);
         split; [|done];
         rewrite Ht, Ht2, (same_handles_releases _ _ _ Hh);
         by rewrite <- app_assoc|]
    end.
    apply cs_if; [cs_fail|].
    unfold basic_script. cbn [exchanges].
    do 6 (apply cs_bind;
          [unfold exchange_fails, reply_fails, sends; cbn; solve [kss_auto]|];
          intros ?; apply cs_if; [cs_fail|]).
    apply cs_bind; [solve [kss_auto]|]. intros ok.
    apply cs_if; apply cs_close_ret.
Qed.

End ScenarioCloses.

(** ** What client_status and client_secure touch *)

Section StatusSecureFrame.

Context {E : Type} `{Platform E}.
Implicit Types (w : world E) (c : client_t) (p : ptr).

Lemma with_status_same c : with_status (status c) c = c.
Proof. by destruct c. Qed.

(** X11.  client_status changes nothing but the cached status of the
    session it is asked about, and that only to record an error: the value
    it returns is the cached status or -1, the session holds it afterwards
    with every other field as before, no other session changes, and
    nothing is acquired, released or written to a message buffer, also
    when the probes report the connection gone. *)
Theorem client_status_touches_status_only p c w r w' :
  live p c w → client_status p w = Ok r w' →
  (r = status c ∨ r = -1) ∧
  w_clients w' = <[p := with_status r c]> (w_clients w) ∧
  w_trace w' = w_trace w ∧ w_strings w' = w_strings w ∧ w_ips w' = w_ips w.
Proof.
  intros Hl Hrun. rewrite (client_status_live _ _ _ Hl) in Hrun.
  unfold status_outcome, tcp_branch in Hrun.
  assert (Hid : <[p := with_status (status c) c]> (w_clients w) = w_clients w).
  { rewrite with_status_same. apply insert_id. by destruct Hl. }
  repeat match type of Hrun with
         | context [if ?b then _ else _] => destruct b eqn:?
         end;
    inversion Hrun; subst; simpl; rewrite ?Hid; auto.
Qed.

(** X12.  client_secure on a live session returns 0 exactly when the
    session has a TLS overlay afterwards and -1 exactly when it has none;
    on failure the status is -1, and after a new overlay was built it is 1.
    Descriptor, address, buffer and line are as before, and nothing is
    released: a failed upgrade leaves the descriptor open for the caller
    to close. *)
Theorem client_secure_outcome p c w :
  live p c w →
  ∃ r w' c',
    client_secure p w = Ok r w' ∧ live p c' w' ∧
    (r = 0 ∧ tls c' ≠ NULL ∨ r = -1 ∧ tls c' = NULL ∧ status c' = -1) ∧
    (tls c = NULL → r = 0 → status c' = 1) ∧
    sockd c' = sockd c ∧ ip c' = ip c ∧ buffer c' = buffer c ∧
    line c' = line c ∧
    (∀ x, count_release x (w_trace w') = count_release x (w_trace w)) ∧
    w_strings w' = w_strings w.
Proof.
  intros Hl. rewrite (client_secure_live _ _ _ Hl). cbv zeta.
  destruct (is_set (tls c)) eqn:Ht.
  { exists 0, w, c. split; [done|]. split; [done|].
    split; [left; split; [done | by apply is_set_true]|].
    split; [intros Hn; apply is_set_true in Ht; done|]. by repeat split. }
  destruct (is_set (fst (tls_client_alloc (sockd c) (w_env w)))) eqn:Hnew.
  - eexists _, _, _. split; [reflexivity|]. split; [eauto with live|].
    split; [left; split; [done | by apply is_set_true]|].
    split; [done|]. repeat (split; [reflexivity|]).
    split; [|reflexivity]. intros x. simpl.
    induction (w_trace w) as [|[y|y] l IH]; simpl; lia.
  - eexists _, _, _. split; [reflexivity|]. split; [eauto with live|].
    split; [right; split; [done|]; split; [by apply is_set_false | done]|].
    split; [done|]. by repeat (split; [reflexivity|]).
Qed.

End StatusSecureFrame.

(** ** The QUIT messages *)

Section QuitReports.

Context {E : Type} `{Platform E}.
Implicit Types (w : world E) (c : client_t) (p : ptr).

(** X6.  The QUIT step reports through the buffer it is given: when it
    returns true no message buffer has changed, and when it returns false
    the buffer holds one of its two messages and no other buffer has
    changed. *)
Theorem quit_reports p errmsg w b w' :
  errmsg ≠ NULL →
  check_smtp_client_quit p errmsg w = Ok b w' →
  if b then w_strings w' = w_strings w
  else ∃ msg, In msg quit_messages ∧
              w_strings w' = <[errmsg := msg]> (w_strings w).
Proof.
  intros Hne Hrun. exact (reports_quit p errmsg Hne _ _ _ Hrun).
Qed.

End QuitReports.

(** ** The further properties on the scripted platforms *)

(** X5: the server answers MAIL FROM with 550. *)
Lemma mail_rcpt_data_reports_witness :
  ∃ w', check_smtp_client_mail_rcpt_data 5 Script.session_at
          "ladar@lavabit.com" "princess@example.com" Script.errmsg_at
          (Script.world_with Script.plain_session
             (Script.with_incoming [Script.reply "550 Denied"] Script.quiet))
        = Ok false w' ∧
        w_strings w' !! Script.errmsg_at
          = Some "Failed to return successful status after MAIL." ∧
        ∃ k c msg why wk w0,
          nth_error (mail_rcpt_data_script "ladar@lavabit.com"
                       "princess@example.com") k = Some (c, msg) ∧
          all_accepted 5 Script.session_at
            (map fst (firstn k (mail_rcpt_data_script "ladar@lavabit.com"
                                  "princess@example.com")))
            (Script.world_with Script.plain_session
               (Script.with_incoming [Script.reply "550 Denied"] Script.quiet))
            wk ∧
          refused 5 Script.session_at c why wk w0 ∧
          w' = set_strings (<[Script.errmsg_at := msg]> (w_strings w0)) w0 ∧
          w_strings w' =
            <[Script.errmsg_at := msg]>
              (w_strings (Script.world_with Script.plain_session
                 (Script.with_incoming [Script.reply "550 Denied"] Script.quiet))).
Proof.
  assert (Hrun : ∃ w', check_smtp_client_mail_rcpt_data 5 Script.session_at
                   "ladar@lavabit.com" "princess@example.com" Script.errmsg_at
                   (Script.world_with Script.plain_session
                      (Script.with_incoming [Script.reply "550 Denied"]
                         Script.quiet)) = Ok false w' ∧
                 w_strings w' !! Script.errmsg_at
                   = Some "Failed to return successful status after MAIL.")
    by (eexists; split; vm_compute; reflexivity).
  destruct Hrun as (w' & Hr & Hm). exists w'. split; [exact Hr|].
  split; [exact Hm|].
  refine (mail_rcpt_data_reports _ _ _ _ _ _ _ _ _ Hr). done.
Defined.

(** X7 and X10: the server answers HELO with 500. *)

Lemma script_basic_helo_rejected :
  ∃ w', check_smtp_network_basic_sthread 5 Script.errmsg_at 25 false
          (Script.empty_world
             (Script.with_incoming
                [Script.reply "220 mail.example.com ESMTP Magma";
                 Script.reply "500 Unrecognized"] Script.accepting))
        = Ok false w'.
Proof. eexists. vm_compute. reflexivity. Qed.

Lemma basic_sthread_reports_witness :
  ∃ w' client w1,
    check_smtp_network_basic_sthread 5 Script.errmsg_at 25 false
      (Script.empty_world
         (Script.with_incoming
            [Script.reply "220 mail.example.com ESMTP Magma";
             Script.reply "500 Unrecognized"] Script.accepting))
      = Ok false w' ∧
    client_connect "localhost" 25
      (Script.empty_world
         (Script.with_incoming
            [Script.reply "220 mail.example.com ESMTP Magma";
             Script.reply "500 Unrecognized"] Script.accepting))
      = Ok client w1 ∧
    ((false = false ∧ (∀ wg, ¬ greeted false client w1 wg) ∧
      w_strings w' =
        <[Script.errmsg_at := "Failed to connect with the SMTP server."]>
          (w_strings (Script.empty_world
             (Script.with_incoming
                [Script.reply "220 mail.example.com ESMTP Magma";
                 Script.reply "500 Unrecognized"] Script.accepting)))) ∨
     (∃ wg, greeted false client w1 wg ∧
        ((∃ k c msg why wk w0,
            nth_error basic_script k = Some (c, msg) ∧
            all_accepted 5 client (map fst (firstn k basic_script)) wg wk ∧
            refused 5 client c why wk w0 ∧
            false = false ∧
            w_strings w' =
              <[Script.errmsg_at := msg]>
                (w_strings (Script.empty_world
                   (Script.with_incoming
                      [Script.reply "220 mail.example.com ESMTP Magma";
                       Script.reply "500 Unrecognized"] Script.accepting)))) ∨
         (∃ wq wq',
            all_accepted 5 client (map fst basic_script) wg wq ∧
            check_smtp_client_quit client Script.errmsg_at wq = Ok false wq' ∧
            ∃ msg, In msg quit_messages ∧
              w_strings w' =
                <[Script.errmsg_at := msg]>
                  (w_strings (Script.empty_world
                     (Script.with_incoming
                        [Script.reply "220 mail.example.com ESMTP Magma";
                         Script.reply "500 Unrecognized"] Script.accepting))))))).
Proof.
  destruct script_basic_helo_rejected as [w' Hr].
  assert (Hne : Script.errmsg_at ≠ NULL) by done.
  destruct (basic_sthread_reports _ _ _ _ _ _ _ Hne Hr) as (client & w1 & Hc).
  exists w', client, w1. split; [exact Hr | exact Hc].
Defined.

Lemma script_steady_io : steady_io (E:=Script.env).
Proof.
  split; [|split].
  - intros c e. simpl. unfold Script.read_line.
    destruct (Script.incoming e) as [|[n l] rest]; simpl; by repeat split.
  - intros c data e. simpl. by repeat split.
  - intros c text e. simpl. by repeat split.
Qed.

Lemma basic_sthread_closes_session_witness :
  ∃ w' client w1,
    check_smtp_network_basic_sthread 5 Script.errmsg_at 25 false
      (Script.empty_world
         (Script.with_incoming
            [Script.reply "220 mail.example.com ESMTP Magma";
             Script.reply "500 Unrecognized"] Script.accepting))
      = Ok false w' ∧
    client_connect "localhost" 25
      (Script.empty_world
         (Script.with_incoming
            [Script.reply "220 mail.example.com ESMTP Magma";
             Script.reply "500 Unrecognized"] Script.accepting))
      = Ok client w1 ∧
    (client = NULL → false = false ∧ w_trace w' = w_trace w1) ∧
    (client ≠ NULL →
     ∃ c t acq,
       live client c w1 ∧
       (t = NULL ∧ acq = [] ∨
        false = true ∧ t ≠ NULL ∧ acq = [Acquire (RTls t)]) ∧
       w_trace w' =
         (w_trace w1 ++ acq ++ releases client (with_tls t c))%list ∧
       w_clients w' !! client = None).
Proof.
  destruct script_basic_helo_rejected as [w' Hr].
  destruct (basic_sthread_closes_session script_steady_io _ _ _ _ _ _ _ Hr)
    as (client & w1 & Hc).
  exists w', client, w1. split; [exact Hr | exact Hc].
Defined.

(** X8: the QUIT step against a server that says 221 and closes. *)

Lemma exchange_steps_leave_session_open_witness :
  ∃ w', check_smtp_client_quit Script.session_at Script.errmsg_at
          (Script.world_with Script.plain_session
             (Script.with_incoming [Script.reply "221 Bye"] Script.quiet))
        = Ok true w' ∧
        w_trace w' = [] ∧ ∃ c', live Script.session_at c' w'.
Proof.
  assert (Hrun : ∃ w', check_smtp_client_quit Script.session_at Script.errmsg_at
                   (Script.world_with Script.plain_session
                      (Script.with_incoming [Script.reply "221 Bye"]
                         Script.quiet)) = Ok true w')
    by (eexists; vm_compute; reflexivity).
  destruct Hrun as [w' Hr]. exists w'. split; [exact Hr|].
  refine (exchange_steps_leave_session_open 5 Script.session_at
            Script.plain_session _ Script.errmsg_at "" "" "" "" ""
            (script_live _ _) _ _ _ _ Hr).
  simpl. tauto.
Defined.

(** X9: the scenario in which the unauthenticated sender is let through. *)

Lemma script_auth_relay_accepted :
  ∃ w', check_smtp_network_auth_sthread 5 Script.errmsg_at 25 false
          (Script.empty_world
             (Script.with_incoming
                [Script.reply "220 mail.example.com ESMTP Magma";
                 Script.reply "250-mail.example.com";
                 Script.reply "250 AUTH PLAIN LOGIN";
                 Script.reply "535 Authentication failed";
                 Script.reply "235 Authenticated";
                 Script.reply "250 OK"; Script.reply "250 OK";
                 Script.reply "354 Go ahead"; Script.reply "250 Accepted"]
                Script.accepting)) = Ok false w'.
Proof. eexists. vm_compute. reflexivity. Qed.

Lemma auth_sthread_closes_session_witness :
  ∃ w' client w1,
    check_smtp_network_auth_sthread 5 Script.errmsg_at 25 false
      (Script.empty_world
         (Script.with_incoming
            [Script.reply "220 mail.example.com ESMTP Magma";
             Script.reply "250-mail.example.com";
             Script.reply "250 AUTH PLAIN LOGIN";
             Script.reply "535 Authentication failed";
             Script.reply "235 Authenticated";
             Script.reply "250 OK"; Script.reply "250 OK";
             Script.reply "354 Go ahead"; Script.reply "250 Accepted"]
            Script.accepting)) = Ok false w' ∧
    client_connect "localhost" 25
      (Script.empty_world
         (Script.with_incoming
            [Script.reply "220 mail.example.com ESMTP Magma";
             Script.reply "250-mail.example.com";
             Script.reply "250 AUTH PLAIN LOGIN";
             Script.reply "535 Authentication failed";
             Script.reply "235 Authenticated";
             Script.reply "250 OK"; Script.reply "250 OK";
             Script.reply "354 Go ahead"; Script.reply "250 Accepted"]
            Script.accepting)) = Ok client w1 ∧
    (client = NULL → false = false ∧ w_trace w' = w_trace w1) ∧
    (client ≠ NULL →
     ∃ c, live client c w1 ∧
          w_trace w' = (w_trace w1 ++ releases client c)%list ∧
          w_clients w' !! client = None).
Proof.
  destruct script_auth_relay_accepted as [w' Hr].
  destruct (auth_sthread_closes_session script_steady_io _ _ _ _ _ _ _ Hr)
    as (client & w1 & Hc).
  exists w', client, w1. split; [exact Hr | exact Hc].
Defined.

(** X11: the TLS probe and the TCP probe both report the connection gone. *)

Lemma client_status_touches_status_only_witness :
  ∃ w',
    client_status Script.session_at
      (Script.world_with Script.secured_session
         (Script.Env [] 1 1 0 (0, []) 3 0 4096)) = Ok (-1) w' ∧
    (-1 = status Script.secured_session ∨ -1 = -1) ∧
    w_clients w' =
      <[Script.session_at := with_status (-1) Script.secured_session]>
        (w_clients (Script.world_with Script.secured_session
                      (Script.Env [] 1 1 0 (0, []) 3 0 4096))) ∧
    w_trace w' = [] ∧
    w_strings w' =
      w_strings (Script.world_with Script.secured_session
                   (Script.Env [] 1 1 0 (0, []) 3 0 4096)) ∧
    w_ips w' = ∅.
Proof.
  assert (Hrun : ∃ w', client_status Script.session_at
                   (Script.world_with Script.secured_session
                      (Script.Env [] 1 1 0 (0, []) 3 0 4096)) = Ok (-1) w')
    by (eexists; vm_compute; reflexivity).
  destruct Hrun as [w' Hr]. exists w'. split; [exact Hr|].
  exact (client_status_touches_status_only _ _ _ _ _ (script_live _ _) Hr).
Defined.

(** X12: an upgrade the TLS provider refuses. *)
Lemma client_secure_outcome_witness :
  ∃ r w' c',
    client_secure Script.session_at
      (Script.world_with Script.plain_session Script.quiet) = Ok r w' ∧
    live Script.session_at c' w' ∧
    (r = 0 ∧ tls c' ≠ NULL ∨ r = -1 ∧ tls c' = NULL ∧ status c' = -1) ∧
    (tls Script.plain_session = NULL → r = 0 → status c' = 1) ∧
    sockd c' = sockd Script.plain_session ∧ ip c' = ip Script.plain_session ∧
    buffer c' = buffer Script.plain_session ∧
    line c' = line Script.plain_session ∧
    (∀ x, count_release x (w_trace w') =
          count_release x
            (w_trace (Script.world_with Script.plain_session Script.quiet))) ∧
    w_strings w' =
      w_strings (Script.world_with Script.plain_session Script.quiet).
Proof.
  exact (client_secure_outcome _ _ _ (script_live _ _)).
Defined.

(** X6: the server says 221 and then goes on talking. *)

Lemma quit_reports_witness :
  ∃ w', check_smtp_client_quit Script.session_at Script.errmsg_at
          (Script.world_with Script.plain_session
             (Script.with_incoming
                [Script.reply "221 Bye"; Script.reply "250 Still here"]
                Script.quiet)) = Ok false w' ∧
        ∃ msg, In msg quit_messages ∧
          w_strings w' =
            <[Script.errmsg_at := msg]>
              (w_strings (Script.world_with Script.plain_session
                 (Script.with_incoming
                    [Script.reply "221 Bye"; Script.reply "250 Still here"]
                    Script.quiet))).
Proof.
  assert (Hrun : ∃ w', check_smtp_client_quit Script.session_at Script.errmsg_at
                   (Script.world_with Script.plain_session
                      (Script.with_incoming
                         [Script.reply "221 Bye"; Script.reply "250 Still here"]
                         Script.quiet)) = Ok false w')
    by (eexists; vm_compute; reflexivity).
  destruct Hrun as [w' Hr]. exists w'. split; [exact Hr|].
  refine (quit_reports _ _ _ _ _ _ Hr). done.
Defined.

(** X13: AUTH PLAIN with the credentials of the authenticated scenario,
    written in full and answered with 235. *)
Lemma expected_counts_are_command_lengths_witness :
  ∃ w', check_smtp_client_auth_plain 5 Script.session_at
          "bWFnbWEAbWFnbWEAcGFzc3dvcmQ="
          (Script.world_with Script.plain_session
             (Script.with_incoming [Script.reply "235 Authenticated"]
                Script.quiet)) = Ok true w'.
Proof.
  assert (Hfull : ∃ w',
            all_in_full 5 Script.session_at
              [auth_plain_command "bWFnbWEAbWFnbWEAcGFzc3dvcmQ="]
              (Script.world_with Script.plain_session
                 (Script.with_incoming [Script.reply "235 Authenticated"]
                    Script.quiet)) w').
  { eexists. simpl. eexists. split; [|reflexivity].
    eexists _, _, _.
    split; [vm_compute; reflexivity|]. split; [vm_compute; reflexivity|].
    split; [vm_compute; reflexivity|].
    split; [split; [done | vm_compute; reflexivity] | vm_compute; reflexivity]. }
  destruct Hfull as [w' Hfull]. exists w'.
  refine (proj1 (proj2 (expected_counts_are_command_lengths 5 Script.session_at
                          Script.errmsg_at "ladar@lavabit.com"
                          "princess@example.com"
                          "bWFnbWEAbWFnbWEAcGFzc3dvcmQ=" "bWFnbWE="
                          "cGFzc3dvcmQ=" _ w' _)) Hfull).
  intros s [<-|[<-|[<-|[]]]]; split; vm_compute; (reflexivity || discriminate).
Defined.

(** X14: the peer takes the MAIL FROM line and answers 250, and then takes
    no more: the RCPT TO line is not written, and the step fails there
    with the message of RCPT. *)
Lemma short_write_fails_at_once_witness :
  ∃ w', check_smtp_client_mail_rcpt_data 5 100 "a@example.com" "b@example.com"
          200 (Replay.after_greeting [Replay.reply "250 OK"] 1) = Ok false w' ∧
        w_strings w' !! 200
          = Some "Failed to return successful status after RCPT.".
Proof.
  assert (Hacc : ∃ wk w1,
            all_accepted 5 100
              (map fst (firstn 1 (mail_rcpt_data_script "a@example.com"
                                    "b@example.com")))
              (Replay.after_greeting [Replay.reply "250 OK"] 1) wk ∧
            sends 100
              (Command ByPrint (format_s ("RCPT TO: <%s>" ++ CRLF) "b@example.com")
                 (fun n => to_size_t n =?
                           to_size_t (ns_length_get ("RCPT TO: <%s>" ++ CRLF)
                                      + ns_length_get "b@example.com" - 2))
                 ToEnd "250") wk = Ok (-1) w1).
  { eexists _, _. split.
    - simpl. eexists. split; [|reflexivity]. eexists.
      split; [|eexists _, _, _;
               split; [vm_compute; reflexivity|];
               split; [vm_compute; reflexivity|];
               split; [vm_compute; reflexivity|];
               split; [split; [done | vm_compute; reflexivity]
                      | vm_compute; reflexivity]].
      vm_compute. reflexivity.
    - vm_compute. reflexivity. }
  destruct Hacc as (wk & w1 & Ha & Hs).
  destruct (short_write_fails_at_once 5 100 200 "a@example.com" "b@example.com"
              "" "" "" 1 _ "Failed to return successful status after RCPT."
              (Replay.after_greeting [Replay.reply "250 OK"] 1) wk (-1) w1 Hs
              ltac:(vm_compute; reflexivity)) as (H1 & _).
  rewrite (H1 eq_refl Ha). eexists. split; [reflexivity|].
  simpl. apply lookup_insert_eq.
Defined.
